(** * Cubes: dimensional metadata, extension registry, SQL expression
      compiler, logical-to-physical mapper and request preparation

    A shallow embedding of the Python sources
    - [cubes/metadata/dimension.py]
    - [cubes/ext.py]
    - [cubes/sql/expressions.py]
    - [cubes/sql/mapper.py]
    - [cubes/server/decorators.py]

    Conventions.  A Python [str] is a [string]; a character is an [ascii]
    holding a code point below 256.  [Optional[str]] is [option string].
    A raised exception is the [Err] case of [result]; the order of the
    checks in a Python body is the order of the binds here.  Insertion
    ordered dictionaries ([OrderedDict], [dict] iterated in order) are
    association lists; dictionaries that are only looked up are [gmap]s.
    What the five modules call but do not define (the import system, the
    aggregate function lookup, the methods of attributes and column
    references) is a [Variable] of the section that needs it. *)

From Stdlib Require Import Ascii DecimalString.
From stdpp Require Import gmap strings list fin_maps.

(** ** Exceptions and results *)

(** The exception classes the five modules raise, with their message. *)
Inductive error : Type :=
  | ModelError (msg : string)
  | ModelInconsistencyError (msg : string)
  | NoSuchAttributeError (msg : string)
  | HierarchyError (msg : string)
  | ArgumentError (msg : string)
  | ExpressionError (msg : string)
  | InternalError (msg : string)
  | SyntaxError (msg : string)
  | IndexError (msg : string)
  | ValueError (msg : string)
  | ImportError (msg : string)
  | PlainException (msg : string).

Inductive result (A : Type) : Type :=
  | Ok (a : A)
  | Err (e : error).
Arguments Ok {A} a.
Arguments Err {A} e.

#[global] Instance result_ret : MRet result := fun A a => Ok a.
#[global] Instance result_bind : MBind result := fun A B f r =>
  match r with
  | Ok a => f a
  | Err e => Err e
  end.
#[global] Instance result_fmap : FMap result := fun A B f r =>
  match r with
  | Ok a => Ok (f a)
  | Err e => Err e
  end.

Definition is_ok {A} (r : result A) : bool :=
  match r with Ok _ => true | Err _ => false end.

(** Python truthiness of an [Optional[str]]: [None] and the empty string
    are false. *)
Definition truthy (o : option string) : bool :=
  match o with
  | Some s => negb (bool_decide (s = ""))
  | None => false
  end.

(** [x or y] on optional strings. *)
Definition py_or (o : option string) (d : string) : string :=
  match o with
  | Some s => if bool_decide (s = "") then d else s
  | None => d
  end.

(** [x or y] where both may be absent. *)
Definition py_or_opt (a b : option string) : option string :=
  if truthy a then a else b.

(** [l[i]] for a non-negative [i]. *)
Definition py_index {A} (l : list A) (i : nat) : result A :=
  match l !! i with
  | Some x => Ok x
  | None => Err (IndexError "list index out of range")
  end.

(** Truncating slice [l[0:n]] for a non-negative [n]. *)
Definition slice_to {A} (n : nat) (l : list A) : list A := take n l.

(** ** Ordered dictionaries *)

Fixpoint odict_get {V} (k : string) (d : list (string * V)) : option V :=
  match d with
  | [] => None
  | (k', v) :: d' => if decide (k = k') then Some v else odict_get k d'
  end.

(** [d[k] = v]: an existing key keeps its position. *)
Fixpoint odict_set {V} (k : string) (v : V) (d : list (string * V))
  : list (string * V) :=
  match d with
  | [] => [(k, v)]
  | (k', v') :: d' =>
      if decide (k = k') then (k, v) :: d' else (k', v') :: odict_set k v d'
  end.

Definition odict_keys {V} (d : list (string * V)) : list string := d.*1.
Definition odict_values {V} (d : list (string * V)) : list V := d.*2.

(** [s.split(sep)] for a one-character separator: one more piece than
    there are separators. *)
Fixpoint split_on (sep : ascii) (s : string) : list string :=
  match s with
  | EmptyString => [""]
  | String c s' =>
      if decide (c = sep) then "" :: split_on sep s'
      else match split_on sep s' with
           | piece :: rest => String c piece :: rest
           | [] => [String c ""]
           end
  end.

(** ** [cubes/metadata/dimension.py] *)

Module Metadata.

(** Custom information dictionaries are carried around, never inspected. *)
Definition JSONType : Type := list (string * string).

(** The part of [Attribute] (attributes.py) that dimension.py reads and
    writes: the name and the owning dimension.  Only the owner's identity
    and its name are used here, so the back-reference is the owner's name. *)
Record Attribute : Type := mkAttribute {
  attr_name : string;
  attr_dimension : option string
}.

#[global] Instance Attribute_eq_dec : EqDecision Attribute.
Proof. solve_decision. Defined.

Record Level : Type := mkLevel {
  level_name : string;
  level_label : option string;
  level_description : option string;
  level_info : option JSONType;
  level_cardinality : option string;
  level_role : option string;
  level_attributes : list Attribute;
  level_nonadditive : option string;
  level_key : Attribute;
  level_label_attribute : Attribute;
  level_order_attribute : Attribute;
  level_order : option string
}.

(** [Level.attribute]: first attribute of that name. *)
Definition attribute_of (attributes : list Attribute) (name : string)
  : result Attribute :=
  match filter (fun a => attr_name a = name) attributes with
  | a :: _ => Ok a
  | [] => Err (NoSuchAttributeError name)
  end.

(** The [if]/[elif] chain on [nonadditive] of lines 128-133 (and 825-830):
    what it assigns to [self.nonadditive], [None] when no branch assigns. *)
Definition nonadditive_chain (nonadditive : option string)
  : result (option (option string)) :=
  if negb (truthy nonadditive) || bool_decide (nonadditive = Some "none")
  then Ok (Some None)
  else if bool_decide (nonadditive = Some "all")
          || bool_decide (nonadditive = Some "any")
  then Ok (Some (Some "all"))
  else if negb (bool_decide (nonadditive = Some "time"))
  then Err (ModelError ("Unknown non-additive diension type '"
                        +:+ default "" nonadditive +:+ "'"))
  else Ok None.

(** [Level.__init__]. *)
Definition Level_init
    (name : string) (attributes : list Attribute)
    (key order_attribute order label_attribute label : option string)
    (info : option JSONType)
    (cardinality role nonadditive description : option string)
  : result Level :=
  if bool_decide (attributes = [])
  then Err (ModelError "Attribute list should not be empty")
  else
    _ ← nonadditive_chain nonadditive;
    (* line 134: the argument is assigned after the chain, whatever the
       chain assigned *)
    let self_nonadditive := nonadditive in
    self_key ←
      (if truthy key then attribute_of attributes (default "" key)
       else match attributes with
            | a :: _ => Ok a
            | [] => Err (ModelInconsistencyError
                           "Attribute list should not be empty")
            end);
    self_label_attribute ←
      (if truthy label_attribute
       then attribute_of attributes (default "" label_attribute)
       else match attributes with
            | _ :: b :: _ => Ok b
            | _ => Ok self_key
            end);
    self_order_attribute ←
      (if truthy order_attribute
       then match attribute_of attributes (default "" order_attribute) with
            | Ok a => Ok a
            | Err (NoSuchAttributeError _) =>
                Err (NoSuchAttributeError
                       ("Unknown order attribute "
                        +:+ default "" order_attribute
                        +:+ " in level " +:+ name))
            | Err e => Err e
            end
       else match attributes with
            | a :: _ => Ok a
            | [] => Err (IndexError "list index out of range")
            end);
    Ok {| level_name := name;
          level_label := label;
          level_description := description;
          level_info := info;
          level_cardinality := cardinality;
          level_role := role;
          level_attributes := attributes;
          level_nonadditive := self_nonadditive;
          level_key := self_key;
          level_label_attribute := self_label_attribute;
          level_order_attribute := self_order_attribute;
          level_order := order |}.

(** *** [string_to_dimension_level] *)

Definition code (c : ascii) : N := N_of_ascii c.

Definition between (lo hi : N) (c : ascii) : bool :=
  (lo <=? code c)%N && (code c <=? hi)%N.

(** [\d] on [str] patterns: the decimal digits; below 256 these are 0-9. *)
Definition re_d (c : ascii) : bool := between 48 57 c.

(** [\w] on [str] patterns: the alphanumeric characters of the Unicode
    database and the underscore.  Below 256 these are the ASCII letters
    and digits, the underscore and the Latin-1 letters and numerics. *)
Definition re_w (c : ascii) : bool :=
  between 48 57 c || between 65 90 c || between 97 122 c
  || bool_decide (code c = 95%N)
  || bool_decide (code c = 170%N) || between 178 179 c
  || bool_decide (code c = 181%N) || between 185 186 c
  || between 188 190 c || between 192 214 c || between 216 246 c
  || between 248 255 c.

(** The character class [[\w\d_]] of line 330. *)
Definition ident (c : ascii) : bool :=
  re_w c || re_d c || bool_decide (c = "_"%char).

(** Longest prefix of characters in the class, and the rest. *)
Fixpoint span (p : ascii -> bool) (s : string) : string * string :=
  match s with
  | EmptyString => ("", "")
  | String c s' =>
      if p c
      then let '(a, b) := span p s' in (String c a, b)
      else ("", s)
  end.

(** [ident+] at the head of [s].  The quantifier is greedy and everything
    after it in the pattern is optional, so the first (longest) attempt is
    the one the match keeps. *)
Definition ident_plus (s : string) : option (string * string) :=
  let '(a, b) := span ident s in
  if bool_decide (a = "") then None else Some (a, b).

(** An optional group [(sep(ident+))?] at the head of [s]: the captured
    text, if the group took part in the match, and the rest. *)
Definition opt_group (sep : ascii) (s : string) : option string * string :=
  match s with
  | String c s' =>
      if bool_decide (c = sep)
      then match ident_plus s' with
           | Some (g, rest) => (Some g, rest)
           | None => (None, s)
           end
      else (None, s)
  | EmptyString => (None, s)
  end.

(** [re.match] anchors the pattern at the start of the string only. *)
Definition string_to_dimension_level (astring : string)
  : result (string * option string * option string) :=
  if bool_decide (astring = "")
  then Err (ArgumentError "Drilldown string should not be empty")
  else
    match ident_plus astring with
    | Some (dim, r1) =>
        let '(hier, r2) := opt_group "@" r1 in
        let '(level, _) := opt_group ":" r2 in
        Ok (dim, hier, level)
    | None =>
        Err (ArgumentError
               ("String '" +:+ astring +:+ "' does not match drilldown level "
                +:+ "pattern 'dimension@hierarchy:level'"))
    end.

(** Modelled from the spec: [object_dict] of metadata/base.py is not among
    these sources.  It builds an insertion-ordered dictionary keyed by the
    objects' names.  For a hierarchy's and a dimension's levels the spec
    says that duplicate names overwrite; for a dimension's hierarchies,
    where a message is passed, that a duplicate name is a model error
    carrying that message.  [object_dict_into] is its loop. *)
Fixpoint object_dict_into {V} (name_of : V -> string)
    (error_message : option (string -> string))
    (ordered : list (string * V)) (objects : list V)
  : result (list (string * V)) :=
  match objects with
  | [] => Ok ordered
  | obj :: rest =>
      let key := name_of obj in
      match odict_get key ordered, error_message with
      | Some _, Some message => Err (ModelError (message key))
      | _, _ =>
          object_dict_into name_of error_message
            (odict_set key obj ordered) rest
      end
  end.

Definition object_dict {V} (name_of : V -> string)
    (error_message : option (string -> string)) (objects : list V)
  : result (list (string * V)) :=
  object_dict_into name_of error_message [] objects.

(** *** [Hierarchy] *)

Record Hierarchy : Type := mkHierarchy {
  hier_name : string;
  hier_label : option string;
  hier_description : option string;
  hier_info : option JSONType;
  hier_levels_dict : list (string * Level)   (* [_levels] *)
}.

(** [Hierarchy.__init__].  The test for levels given as strings is on the
    type of the elements; here the elements are [Level]s. *)
Definition Hierarchy_init (name : string) (levels : list Level)
    (label : option string) (info : option JSONType)
    (description : option string) : result Hierarchy :=
  if bool_decide (levels = [])
  then Err (ModelInconsistencyError
              ("Hierarchy level list should not be empty (in "
               +:+ name +:+ ")"))
  else
    d ← object_dict level_name None levels;
    Ok {| hier_name := name; hier_label := label;
          hier_description := description; hier_info := info;
          hier_levels_dict := d |}.

Definition hier_levels (h : Hierarchy) : list Level :=
  odict_values (hier_levels_dict h).

Definition hier_level_names (h : Hierarchy) : list string :=
  odict_keys (hier_levels_dict h).

(** [list.index]: position of the first occurrence. *)
Fixpoint list_index (name : string) (l : list string) : option nat :=
  match l with
  | [] => None
  | x :: l' =>
      if decide (x = name) then Some 0
      else S <$> list_index name l'
  end.

Definition level_index (h : Hierarchy) (name : string) : result nat :=
  match list_index name (hier_level_names h) with
  | Some i => Ok i
  | None => Err (HierarchyError
                   ("Level " +:+ name +:+ " is not part of hierarchy "
                    +:+ hier_name h))
  end.

(** [repr] of a list of strings, for elements that need no escaping. *)
Fixpoint repr_items (l : list string) : string :=
  match l with
  | [] => ""
  | [x] => "'" +:+ x +:+ "'"
  | x :: l' => "'" +:+ x +:+ "', " +:+ repr_items l'
  end.
Definition repr_path (l : list string) : string :=
  "[" +:+ repr_items l +:+ "]".

(** [Hierarchy.rollup]. *)
Definition rollup (h : Hierarchy) (path : list string)
    (level : option Level) : result (list string) :=
  last ←
    match level with
    | Some lv =>
        i ← level_index h (level_name lv);
        let last := i + 1 in
        if bool_decide (length path < last)
        then Err (HierarchyError
                    ("Can not roll-up: level '" +:+ level_name lv
                     +:+ "' – it is deeper than deepest element of path "
                     +:+ repr_path path))
        else Ok (Some last)
    | None =>
        if bool_decide (0 < length path)
        then Ok (Some (length path - 1))
        else Ok None
    end;
  match last with
  | None => Ok []
  | Some n => Ok (slice_to n path)
  end.

(** *** [Dimension] *)

(* FIXME of the source: see #354 *)
Definition _DEFAULT_LEVEL_ROLES : list (string * list string) :=
  [("time",
    ["year"; "quarter"; "month"; "day"; "hour"; "minute"; "second";
     "week"; "weeknum"; "dow"; "isoyear"; "isoweek"; "isoweekday"])].

#[warnings="-register-all"]
Inductive Dimension : Type := mkDimension {
  dim_name : string;
  dim_label : option string;
  dim_description : option string;
  dim_info : option JSONType;
  dim_role : option string;
  dim_cardinality : option string;
  dim_category : option string;
  dim_master : option Dimension;
  dim_nonadditive : option string;
  dim_levels_dict : list (string * Level);              (* [_levels] *)
  dim_attributes_dict : list (string * Attribute);      (* [_attributes] *)
  dim_attributes_by_ref : list (string * Attribute);
  dim_hierarchies_dict : list (string * Hierarchy);     (* [_hierarchies] *)
  dim_default_hierarchy : Hierarchy;
  default_hierarchy_name : string
}.

Definition dim_levels (d : Dimension) : list Level :=
  odict_values (dim_levels_dict d).

Definition dim_hierarchies (d : Dimension) : list Hierarchy :=
  odict_values (dim_hierarchies_dict d).

Definition level_has_details (l : Level) : bool :=
  bool_decide (1 < length (level_attributes l)).

(** [Dimension.has_details] and [Dimension.is_flat]: a clone answers for
    its master. *)
Fixpoint has_details (d : Dimension) : bool :=
  match d with
  | mkDimension _ _ _ _ _ _ _ master _ levels _ _ _ _ _ =>
      match master with
      | Some m => has_details m
      | None => existsb level_has_details (odict_values levels)
      end
  end.

Fixpoint is_flat (d : Dimension) : bool :=
  match d with
  | mkDimension _ _ _ _ _ _ _ master _ levels _ _ _ _ _ =>
      match master with
      | Some m => is_flat m
      | None => bool_decide (length (odict_values levels) = 1)
      end
  end.

(** [Dimension.hierarchy(obj)] for a name or no argument. *)
Definition hierarchy (d : Dimension) (obj : option string)
  : result Hierarchy :=
  match obj with
  | None => Ok (dim_default_hierarchy d)
  | Some name =>
      match odict_get name (dim_hierarchies_dict d) with
      | Some h => Ok h
      | None => Err (ModelError ("No hierarchy " +:+ name
                                 +:+ " in dimension " +:+ dim_name d))
      end
  end.

Section Ownership.

(** [Attribute.ref] of an attribute that has just been given its owner
    (a property of attributes.py, which is not among these sources). *)
Variable attribute_ref : Attribute -> string.

(** [a.dimension = self]. *)
Definition own (self_name : string) (a : Attribute) : Attribute :=
  {| attr_name := attr_name a; attr_dimension := Some self_name |}.

(** The two maps after the inner loop body of lines 866-874 for one
    attribute.  The dimension under construction is a new object, so an
    attribute that already has an owner is owned by another one. *)
Definition claim_attribute (self_name : string)
    (maps : list (string * Attribute) * list (string * Attribute))
    (a : Attribute)
  : result (list (string * Attribute) * list (string * Attribute)) :=
  match attr_dimension a with
  | Some other =>
      Err (ModelError ("Dimension '" +:+ self_name
                       +:+ "' can not claim attribute '" +:+ attr_name a
                       +:+ "' because it is owned by another dimension '"
                       +:+ other +:+ "'."))
  | None =>
      let a' := own self_name a in
      Ok (odict_set (attr_name a') a' maps.1,
          odict_set (attribute_ref a') a' maps.2)
  end.

Fixpoint claim_attributes (self_name : string)
    (maps : list (string * Attribute) * list (string * Attribute))
    (attrs : list Attribute)
  : result (list (string * Attribute) * list (string * Attribute)) :=
  match attrs with
  | [] => Ok maps
  | a :: rest =>
      maps' ← claim_attribute self_name maps a;
      claim_attributes self_name maps' rest
  end.

Fixpoint claim_levels (self_name : string)
    (maps : list (string * Attribute) * list (string * Attribute))
    (levels : list Level)
  : result (list (string * Attribute) * list (string * Attribute)) :=
  match levels with
  | [] => Ok maps
  | l :: rest =>
      maps' ← claim_attributes self_name maps (level_attributes l);
      claim_levels self_name maps' rest
  end.

(** A level after the two loops: its role set when the dimension's role
    names it, its attributes owned. *)
Definition adopt_level (self_name : string) (default_roles : list string)
    (l : Level) : Level :=
  {| level_name := level_name l;
     level_label := level_label l;
     level_description := level_description l;
     level_info := level_info l;
     level_cardinality := level_cardinality l;
     level_role :=
       if negb (bool_decide (default_roles = []))
          && bool_decide (level_name l ∈ default_roles)
       then Some (level_name l) else level_role l;
     level_attributes := own self_name <$> level_attributes l;
     level_nonadditive := level_nonadditive l;
     level_key := own self_name (level_key l);
     level_label_attribute := own self_name (level_label_attribute l);
     level_order_attribute := own self_name (level_order_attribute l);
     level_order := level_order l |}.

(** [Dimension.__init__].  The levels of the hierarchies passed in are
    stored as given. *)
Definition Dimension_init
    (name : string)
    (levels : option (list Level))
    (hierarchies : option (list Hierarchy))
    (default_hierarchy_name label description : option string)
    (info : option JSONType)
    (role cardinality category : option string)
    (master : option Dimension)
    (nonadditive : option string)
    (attributes : option (list Attribute))
  : result Dimension :=
  _ ← nonadditive_chain nonadditive;
  (* line 832: the argument is assigned after the chain *)
  let self_nonadditive := nonadditive in
  let no_levels := bool_decide (default [] levels = []) in
  let no_attributes := bool_decide (default [] attributes = []) in
  if no_levels && no_attributes
  then Err (ModelError
              ("No levels or attriutes specified for dimension " +:+ name))
  else if negb no_levels && negb no_attributes
  then Err (ModelError "Both levels and attributes specified")
  else
    levels ←
      (if negb no_attributes
       then level ← Level_init name (default [] attributes)
                       None None None None None None None None None None;
            Ok [level]
       else Ok (default [] levels));
    levels_dict ← object_dict level_name None levels;
    let default_roles :=
      match role with
      | Some r => default [] (odict_get r _DEFAULT_LEVEL_ROLES)
      | None => []
      end in
    maps ← claim_levels name ([], []) (odict_values levels_dict);
    let levels_dict :=
      prod_map id (adopt_level name default_roles) <$> levels_dict in
    hierarchies_dict ←
      (if negb (bool_decide (default [] hierarchies = []))
       then object_dict hier_name
              (Some (fun key => "Duplicate hierarchy '" +:+ key
                                +:+ "' in cube '" +:+ name +:+ "'"))
              (default [] hierarchies)
       else dflt ← Hierarchy_init "default" (odict_values levels_dict)
                      None None None;
            object_dict hier_name None [dflt]);
    let default_name := py_or default_hierarchy_name "default" in
    (* the fallback argument of [get] is evaluated before the lookup *)
    first ←
      match odict_values hierarchies_dict with
      | h :: _ => Ok h
      | [] => Err (IndexError "list index out of range")
      end;
    let hierarchy :=
      default first (odict_get default_name hierarchies_dict) in
    Ok {| dim_name := name;
          dim_label := label;
          dim_description := description;
          dim_info := info;
          dim_role := role;
          dim_cardinality := cardinality;
          dim_category := category;
          dim_master := master;
          dim_nonadditive := self_nonadditive;
          dim_levels_dict := levels_dict;
          dim_attributes_dict := maps.1;
          dim_attributes_by_ref := maps.2;
          dim_hierarchies_dict := hierarchies_dict;
          dim_default_hierarchy := hierarchy;
          default_hierarchy_name := hier_name hierarchy |}.

End Ownership.

End Metadata.

(** ** [cubes/ext.py] *)

Module Ext.

Definition EXTENSION_TYPES : list string :=
  ["browser"; "store"; "provider"; "formatter"; "authorizer";
   "authenticators"; "request_log_handlers"].

Definition _BUILTIN_EXTENSIONS : list (string * list (string * string)) :=
  [("authenticators",
    [("admin_admin", "cubes.server.auth:AdminAdminAuthenticator");
     ("pass_parameter", "cubes.server.auth:PassParameterAuthenticator");
     ("http_basic_proxy", "cubes.server.auth:HTTPBasicProxyAuthenticator")]);
   ("authorizers",
    [("simple", "cubes.auth:SimpleAuthorizer")]);
   ("browsers",
    [("sql", "cubes.sql.browser:SQLBrowser");
     ("slicer", "cubes.server.browser:SlicerBrowser")]);
   ("formatters",
    [("text_table", "cubes.formatters:TextTableFormatter");
     ("simple_data_table", "cubes.formatters:SimpleDataTableFormatter");
     ("text_data_table", "cubes.formatters:TextDataTableFormatter");
     ("cross_data_table", "cubes.formatters:CrossTableFormatter");
     ("html_cross_data_table", "cubes.formatters:HTMLCrossTableFormatter");
     ("simple_html_table", "cubes.formatters:SimpleHtmlTableFormatter");
     ("rickshaw_multi_series", "cubes.formatters:RickshawMultiSeriesFormatter")]);
   ("providers",
    [("default", "cubes.providers:StaticModelProvider");
     ("slicer", "cubes.server.store:SlicerProvider")]);
   ("request_log_handlers",
    [("default", "cubes.server.logging:DefaultRequestLogger");
     ("csv", "cubes.server.logging:CSVRequestLogger");
     ("json", "cubes.server.logging:JSONRequestLogger");
     ("sql", "cubes.sql.logging:SQLRequestLogger")]);
   ("stores",
    [("sql", "cubes.sql.store:SQLStore");
     ("slicer", "cubes.server.store:SlicerStore")])].

Definition _DEFAULT_OPTIONS : list (string * list (string * option string)) :=
  [].

(** A loaded factory: a handle on the callable and its [__options__], each
    option with its name and declared type. *)
Record Factory : Type := mkFactory {
  factory_path : string;
  factory_options : option (list (string * option string))
}.

Record _Extension : Type := mk_Extension {
  ext_type_ : string;
  ext_name : string;
  ext_options : list (string * (string * option string));
  ext_option_types : list (string * string);
  ext_factory : option Factory
}.

(** [_Extension.__init__] with a name and no entry point. *)
Definition _Extension_init (type_ name : string) : _Extension :=
  {| ext_type_ := type_; ext_name := name; ext_options := [];
     ext_option_types := []; ext_factory := None |}.

Definition set_factory (ext : _Extension) (factory : Factory) : _Extension :=
  let defaults := default [] (odict_get (ext_type_ ext) _DEFAULT_OPTIONS) in
  let options := default [] (factory_options factory) in
  let all := defaults ++ options in
  {| ext_type_ := ext_type_ ext;
     ext_name := ext_name ext;
     ext_options :=
       foldl (fun d o => odict_set o.1 o d) [] all;
     ext_option_types :=
       foldl (fun d o => odict_set o.1 (default "string" o.2) d)
             (ext_option_types ext) all;
     ext_factory := Some factory |}.

Record ExtensionFinder : Type := mkExtensionFinder {
  type_ : string;
  group : string;
  extensions : gmap string _Extension;
  builtins : list (string * string)
}.

Definition ExtensionFinder_init (type_ : string) : ExtensionFinder :=
  {| type_ := type_;
     group := "cubes." +:+ type_;
     extensions := ∅;
     builtins := default [] (odict_get type_ _BUILTIN_EXTENSIONS) |}.

Section Loading.

(** [getattr(_load_module(modname), attr)]: the import system. *)
Variable load_attribute : string -> string -> result Factory.

(** [ExtensionFinder.builtin]: the extension, if the name is builtin, and
    the finder with the extension cached. *)
Definition builtin (self : ExtensionFinder) (name : string)
  : result (option _Extension * ExtensionFinder) :=
  match odict_get name (builtins self) with
  | None => Ok (None, self)
  | Some ext_mod =>
      match split_on ":" ext_mod with
      | [modname; attr] =>
          factory ← load_attribute modname attr;
          let ext := set_factory (_Extension_init (type_ self) name) factory in
          Ok (Some ext,
              {| type_ := type_ self; group := group self;
                 extensions := <[name := ext]> (extensions self);
                 builtins := builtins self |})
      | _ => Err (ValueError "not enough or too many values to unpack")
      end
  end.

(** [ExtensionFinder._get].  The debugger breakpoint of line 167 is
    passed over; the statements after the [raise] of line 168 are never
    reached. *)
Definition _get (self : ExtensionFinder) (name : string)
  : result (_Extension * ExtensionFinder) :=
  '(ext, self) ←
    match extensions self !! name with
    | Some ext => Ok (Some ext, self)
    | None => builtin self name
    end;
  match ext with
  | None => Err (PlainException "nono")
  | Some ext => Ok (ext, self)
  end.

(** [ExtensionFinder.factory]. *)
Definition factory (self : ExtensionFinder) (name : string)
  : result (option Factory * ExtensionFinder) :=
  '(ext, self) ← _get self name;
  Ok (ext_factory ext, self).

End Loading.

Definition authenticator := ExtensionFinder_init "authenticators".
Definition authorizer := ExtensionFinder_init "authorizers".
Definition browser := ExtensionFinder_init "browsers".
Definition formatter := ExtensionFinder_init "formatters".
Definition model_provider := ExtensionFinder_init "providers".
Definition request_log_handler := ExtensionFinder_init "request_log_handlers".
Definition store := ExtensionFinder_init "stores".

End Ext.

(** ** [cubes/sql/expressions.py] *)

Module SqlExpressions.

Definition SQL_FUNCTIONS : list string :=
  [ (* String *)
    "lower"; "upper"; "left"; "right"; "substr"; "lpad"; "rpad"; "replace";
    "concat"; "repeat"; "position";
    (* Math *)
    "round"; "trunc"; "floor"; "ceil"; "mod"; "remainder"; "sign"; "min";
    "max"; "pow"; "exp"; "log"; "log10"; "sqrt"; "cos"; "sin"; "tan";
    (* Date/time *)
    "extract";
    (* Conditionals *)
    "coalesce"; "nullif"; "case" ].

Definition SQL_AGGREGATE_FUNCTIONS : list string :=
  ["sum"; "min"; "max"; "avg"; "stddev"; "variance"; "count"].

Definition SQL_ALL_FUNCTIONS : list string :=
  SQL_FUNCTIONS ++ SQL_AGGREGATE_FUNCTIONS.

Definition SQL_VARIABLES : list string :=
  ["current_date"; "current_time"; "local_date"; "local_time"].

(** Literal and parameter values. *)
Inductive value : Type :=
  | VStr (s : string)
  | VInt (n : Z).

(** SQL expression objects, as terms: what the SQLAlchemy constructors and
    operators were applied to. *)
#[warnings="-register-all"]
Inductive sql : Type :=
  | Column (name : string)                 (* a column given in [bases] *)
  | Param (v : value)                      (* a parameter value, as it is *)
  | BindParam (key : string) (v : value)   (* [bindparam(key, v, unique=True)] *)
  | FuncCall (name : string) (args : list sql)  (* [getattr(sql.func, name)(...)] *)
  | BinaryOp (operator : string) (op1 op2 : sql)
  | UnaryOp (operator : string) (operand : sql)
  | And_ (op1 op2 : sql)
  | Or_ (op1 op2 : sql)
  | Not_ (operand : sql).

Record SQLExpressionContext : Type := mkContext {
  columns : gmap string sql;          (* [_columns] *)
  parameters : gmap string value;
  label : option string
}.

(** [SQLExpressionContext.__init__]: a copy of the columns, or an empty
    dictionary for none. *)
Definition SQLExpressionContext_init
    (columns : option (gmap string sql))
    (parameters : option (gmap string value))
    (label : option string) : SQLExpressionContext :=
  {| columns := default ∅ columns;
     parameters := default ∅ parameters;
     label := label |}.

Definition resolve (self : SQLExpressionContext) (variable : string)
  : result sql :=
  match columns self !! variable with
  | Some column => Ok column
  | None =>
      match parameters self !! variable with
      | Some v => Ok (Param v)
      | None =>
          if bool_decide (variable ∈ SQL_VARIABLES)
          then Ok (FuncCall variable [])
          else
            let label :=
              if truthy (label self)
              then " in " +:+ default "" (label self) else "" in
            Err (ExpressionError
                   ("Unknown attribute, variable or parameter '"
                    +:+ variable +:+ "'" +:+ label))
      end
  end.

(** [SQLExpressionContext.function]: the generator of the named SQL
    function, here its name. *)
Definition function (self : SQLExpressionContext) (name : string)
  : result string :=
  if negb (bool_decide (name ∈ SQL_ALL_FUNCTIONS))
  then Err (ExpressionError ("Unknown function '" +:+ name +:+ "'"))
  else Ok name.

Definition add_column (self : SQLExpressionContext) (name : string)
    (column : sql) : SQLExpressionContext :=
  {| columns := <[name := column]> (columns self);
     parameters := parameters self;
     label := label self |}.

(** *** [SQLExpressionCompiler] *)

Definition compile_literal (context : SQLExpressionContext) (literal : value)
  : sql :=
  BindParam "literal" literal.

Definition compile_binary (context : SQLExpressionContext)
    (operator : string) (op1 op2 : sql) : result sql :=
  if bool_decide (operator ∈ ["*"; "/"; "%"; "+"; "-"; "&"; "|"; "<"; "<=";
                               ">"; ">="])
  then Ok (BinaryOp operator op1 op2)
  else if bool_decide (operator = "=") then Ok (BinaryOp "==" op1 op2)
  else if bool_decide (operator = "!=") then Ok (BinaryOp "!=" op1 op2)
  else if bool_decide (operator = "and") then Ok (And_ op1 op2)
  else if bool_decide (operator = "or") then Ok (Or_ op1 op2)
  else Err (SyntaxError ("Unknown operator '" +:+ operator +:+ "'")).

Definition compile_variable (context : SQLExpressionContext)
    (name : string) : result sql :=
  resolve context name.

Definition compile_unary (context : SQLExpressionContext)
    (operator : string) (operand : sql) : result sql :=
  if bool_decide (operator ∈ ["-"; "+"; "~"])
  then Ok (UnaryOp operator operand)
  else if bool_decide (operator = "not") then Ok (Not_ operand)
  else Err (SyntaxError ("Unknown unary operator '" +:+ operator +:+ "'")).

Definition compile_function (context : SQLExpressionContext)
    (func : string) (args : list sql) : result sql :=
  func ← function context func;
  Ok (FuncCall func args).

(** The expression trees of the [expressions] framework. *)
#[warnings="-register-all"]
Inductive expr : Type :=
  | Literal (v : value)
  | Variable_ (name : string)
  | Binary (operator : string) (lhs rhs : expr)
  | Unary (operator : string) (operand : expr)
  | Function_ (name : string) (args : list expr).

(** [Compiler.compile] of the framework, on a parsed expression: operands
    and arguments are compiled first, left to right, then the node. *)
Fixpoint compile (e : expr) (context : SQLExpressionContext) : result sql :=
  match e with
  | Literal v => Ok (compile_literal context v)
  | Variable_ name => compile_variable context name
  | Binary operator lhs rhs =>
      op1 ← compile lhs context;
      op2 ← compile rhs context;
      compile_binary context operator op1 op2
  | Unary operator operand =>
      operand ← compile operand context;
      compile_unary context operator operand
  | Function_ name args =>
      args ←
        (fix compile_args (l : list expr) : result (list sql) :=
           match l with
           | [] => Ok []
           | a :: rest =>
               x ← compile a context;
               xs ← compile_args rest;
               Ok (x :: xs)
           end) args;
      compile_function context name args
  end.

(** [str.lower] on code points below 256. *)
Definition lower_char (c : ascii) : ascii :=
  let n := N_of_ascii c in
  if ((65 <=? n) && (n <=? 90) || (192 <=? n) && (n <=? 214)
      || (216 <=? n) && (n <=? 222))%N
  then ascii_of_N (n + 32) else c.

Fixpoint lower (s : string) : string :=
  match s with
  | EmptyString => EmptyString
  | String c s' => String (lower_char c) (lower s')
  end.

(** A dependant attribute as [compile_attributes] reads it: its qualified
    reference, its aggregate function if it has one, and its expression,
    parsed. *)
Record Dependant : Type := mkDependant {
  dep_ref : string;
  dep_function : option string;
  dep_expression : expr
}.

Section Aggregates.

(** [get_aggregate_function(name)(attr, context, coalesce)] of
    sql/functions.py, which is not among these sources. *)
Variable aggregate_function :
  string -> Dependant -> SQLExpressionContext -> option bool -> result sql.

(** One turn of the loop of lines 145-162. *)
Definition compile_attribute (coalesce : option bool)
    (context : SQLExpressionContext) (attr : Dependant)
  : result SQLExpressionContext :=
  column ←
    (if truthy (dep_function attr)
     then
       let function_name := lower (default "" (dep_function attr)) in
       aggregate_function function_name attr context coalesce
     else compile (dep_expression attr) context);
  Ok (add_column context (dep_ref attr) column).

Fixpoint compile_loop (coalesce : option bool)
    (context : SQLExpressionContext) (dependants : list Dependant)
  : result SQLExpressionContext :=
  match dependants with
  | [] => Ok context
  | attr :: rest =>
      context ← compile_attribute coalesce context attr;
      compile_loop coalesce context rest
  end.

Definition compile_attributes
    (bases : option (gmap string sql)) (dependants : list Dependant)
    (parameters : option (gmap string value))
    (coalesce : option bool) (label : option string)
  : result (gmap string sql) :=
  let context := SQLExpressionContext_init bases parameters label in
  context ← compile_loop coalesce context dependants;
  Ok (columns context).

End Aggregates.

End SqlExpressions.

(** ** [cubes/sql/mapper.py] *)

Module SqlMapper.

Import Metadata.

Definition DEFAULT_KEY_FIELD : string := "id".
Definition DEFAULT_FACT_KEY : string := "id".
Definition DEFAULT_DIMENSION_KEY : string := "id".

(** [ColumnReference] of metadata/physical.py: a plain triple. *)
Record ColumnReference : Type := mkColumnReference {
  column : string;
  table : string;
  schema : option string
}.

(** The part of [AttributeBase] (attributes.py) that the mappers read.
    Here the owner is read for its name, [is_flat] and [has_details], so
    the back-reference is the dimension itself. *)
Record AttributeBase : Type := mkAttributeBase {
  name : string;
  ref : string;
  dimension : option Dimension;
  expression : option string;
  locales : list string
}.

Section Mappers.

(** The values of [cube.mappings]: physical references as written in the
    cube's metadata, and [ColumnReference.from_dict], which reads them. *)
Context {Physical : Type}.
Variable from_dict : Physical -> result ColumnReference.

(** [AttributeBase.is_localizable] and [AttributeBase.localized_ref] of
    attributes.py, which is not among these sources. *)
Variable is_localizable : AttributeBase -> bool.
Variable localized_ref : AttributeBase -> option string -> result string.

(** The state of a [Mapper] after [__init__], without the three compiled
    name patterns, which [__getitem__] does not read. *)
Record Mapper : Type := mkMapper {
  locale : option string;
  mappings : gmap string Physical;
  fact_name : string;
  fact_prefix : option string;
  fact_suffix : option string;
  dimension_prefix : option string;
  dimension_suffix : option string;
  aggregated_prefix : option string;
  aggregated_suffix : option string;
  dimension_key_prefix : option string;
  dimension_key_suffix : option string;
  self_schema : option string;
  fact_schema : option string;
  dimension_schema : option string;
  aggregate_schema : option string
}.

Definition dimension_table_name (self : Mapper) (name : string) : string :=
  py_or (dimension_prefix self) "" +:+ name
  +:+ py_or (dimension_suffix self) "".

Definition fact_table_name (self : Mapper) (name : string) : string :=
  py_or (fact_prefix self) "" +:+ name +:+ py_or (fact_suffix self) "".

Definition aggregated_table_name (self : Mapper) (name : string) : string :=
  py_or (aggregated_prefix self) "" +:+ name
  +:+ py_or (aggregated_suffix self) "".

(** [self.locale if self.locale in attribute.locales
     else attribute.locales[0]]. *)
Definition attribute_locale (self : Mapper) (attribute : AttributeBase)
  : result string :=
  match locale self with
  | Some l =>
      if bool_decide (l ∈ locales attribute) then Ok l
      else py_index (locales attribute) 0
  | None => py_index (locales attribute) 0
  end.

(** [Mapper.attribute_table]: the pair (schema, table). *)
Definition attribute_table (self : Mapper) (attribute : AttributeBase)
  : option string * string :=
  match dimension attribute with
  | Some dimension =>
      let schema := py_or_opt (dimension_schema self) (self_schema self) in
      let table :=
        if is_flat dimension && negb (has_details dimension)
        then fact_name self
        else dimension_table_name self (dim_name dimension) in
      (schema, table)
  | None => (self_schema self, fact_name self)
  end.

(** [Mapper.__getitem__]. *)
Definition Mapper_getitem (self : Mapper) (attribute : AttributeBase)
  : result ColumnReference :=
  column_name ←
    (if is_localizable attribute
     then locale ← attribute_locale self attribute;
          Ok (name attribute +:+ "_" +:+ locale)
     else Ok (name attribute));
  let '(schema, table) := attribute_table self attribute in
  Ok {| column := column_name; table := table; schema := schema |}.

Definition has_expression_error (attribute : AttributeBase) : error :=
  ModelError ("Attribute '" +:+ name attribute
              +:+ "' has an expression, it can not "
              +:+ "have a direct physical representation").

(** [DenormalizedMapper.__getitem__]. *)
Definition DenormalizedMapper_getitem (self : Mapper)
    (attribute : AttributeBase) : result ColumnReference :=
  match expression attribute with
  | Some _ => Err (has_expression_error attribute)
  | None => Mapper_getitem self attribute
  end.

(** [StarSchemaMapper.__getitem__]. *)
Definition StarSchemaMapper_getitem (self : Mapper)
    (attribute : AttributeBase) : result ColumnReference :=
  match expression attribute with
  | Some _ => Err (has_expression_error attribute)
  | None =>
      locale ←
        (if is_localizable attribute
         then Some <$> attribute_locale self attribute
         else Ok None);
      logical ← localized_ref attribute locale;
      match mappings self !! logical with
      | Some physical => from_dict physical
      | None => Mapper_getitem self attribute
      end
  end.

End Mappers.

Arguments Mapper : clear implicits.

End SqlMapper.

(** ** [cubes/server/decorators.py] *)

Module Server.

(** [request.args.getlist(key)]: the values given for the key, in the
    order of the query string. *)
Definition getlist (args : list (string * string)) (key : string)
  : list string :=
  (filter (fun kv => kv.1 = key) args).*2.

(** Lines 111-115: one segment of an [order] value. *)
Definition order_item (order : string) : result (string * option string) :=
  let split := split_on ":" order in
  if bool_decide (length split = 1)
  then Ok (order, None)
  else
    field ← py_index split 0;
    direction ← py_index split 1;
    Ok (field, Some direction).

(** Lines 110-115: the inner loop, appending to [g.order]. *)
Fixpoint append_orders (g_order : list (string * option string))
    (segments : list string) : result (list (string * option string)) :=
  match segments with
  | [] => Ok g_order
  | order :: rest =>
      item ← order_item order;
      append_orders (g_order ++ [item]) rest
  end.

(** Lines 109-115: the outer loop over the values of the parameter. *)
Fixpoint collect_orders (g_order : list (string * option string))
    (values : list string) : result (list (string * option string)) :=
  match values with
  | [] => Ok g_order
  | orders :: rest =>
      g_order ← append_orders g_order (split_on "," orders);
      collect_orders g_order rest
  end.

(** Lines 108-115 of [requires_browser]: [g.order] for the arguments of
    the request. *)
Definition requires_browser_order (args : list (string * string))
  : result (list (string * option string)) :=
  collect_orders [] (getlist args "order").

End Server.

(** ** Sample values and notions used in the statements *)

(** Every value of the dictionary is stored under its own name. *)
Definition keyed_by {V} (name_of : V -> string) (d : list (string * V))
  : Prop :=
  forall k v, (k, v) ∈ d -> name_of v = k.

Module Samples.
Import Metadata.

(** A level with one attribute, both named [n]. *)
Definition flat_level (n : string) : Level :=
  let a := {| attr_name := n; attr_dimension := None |} in
  {| level_name := n; level_label := None; level_description := None;
     level_info := None; level_cardinality := None; level_role := None;
     level_attributes := [a]; level_nonadditive := None;
     level_key := a; level_label_attribute := a;
     level_order_attribute := a; level_order := None |}.

Definition year := flat_level "year".
Definition quarter := flat_level "quarter".
Definition month := flat_level "month".

(** The hierarchy year > quarter > month. *)
Definition ymd : Hierarchy :=
  {| hier_name := "ymd"; hier_label := None; hier_description := None;
     hier_info := None;
     hier_levels_dict :=
       [("year", year); ("quarter", quarter); ("month", month)] |}.

(** The one-character text of code point 233 (e with acute accent). *)
Definition e_acute : string := String (ascii_of_N 233) EmptyString.

(** A qualified reference for an owned attribute. *)
Definition dotted_ref (a : Attribute) : string :=
  default "" (attr_dimension a) +:+ "." +:+ attr_name a.

(** An import system that finds every attribute of every module. *)
Definition sample_loader (modname attr : string) : result Ext.Factory :=
  Ok (Ext.mkFactory (modname +:+ ":" +:+ attr) None).

(** Two base columns, and three dependants: the net amount, twice the
    net amount, and today's date. *)
Definition sales_bases : gmap string SqlExpressions.sql :=
  <["amount" := SqlExpressions.Column "amount"]>
    (<["discount" := SqlExpressions.Column "discount"]> ∅).

Definition net : SqlExpressions.Dependant :=
  {| SqlExpressions.dep_ref := "net";
     SqlExpressions.dep_function := None;
     SqlExpressions.dep_expression :=
       SqlExpressions.Binary "-" (SqlExpressions.Variable_ "amount")
                                 (SqlExpressions.Variable_ "discount") |}.

Definition double_net : SqlExpressions.Dependant :=
  {| SqlExpressions.dep_ref := "double_net";
     SqlExpressions.dep_function := None;
     SqlExpressions.dep_expression :=
       SqlExpressions.Binary "*" (SqlExpressions.Variable_ "net")
         (SqlExpressions.Literal (SqlExpressions.VInt 2)) |}.

Definition today : SqlExpressions.Dependant :=
  {| SqlExpressions.dep_ref := "today";
     SqlExpressions.dep_function := None;
     SqlExpressions.dep_expression :=
       SqlExpressions.Variable_ "current_date" |}.

(** A flat dimension without details: one level, one attribute. *)
Definition flag_dimension : Dimension :=
  {| dim_name := "flag"; dim_label := None; dim_description := None;
     dim_info := None; dim_role := None; dim_cardinality := None;
     dim_category := None; dim_master := None; dim_nonadditive := None;
     dim_levels_dict := [("flag", flat_level "flag")];
     dim_attributes_dict := []; dim_attributes_by_ref := [];
     dim_hierarchies_dict := [];
     dim_default_hierarchy :=
       {| hier_name := "default"; hier_label := None;
          hier_description := None; hier_info := None;
          hier_levels_dict := [("flag", flat_level "flag")] |};
     default_hierarchy_name := "default" |}.

(** A dimension with two levels. *)
Definition date_dimension : Dimension :=
  {| dim_name := "date"; dim_label := None; dim_description := None;
     dim_info := None; dim_role := None; dim_cardinality := None;
     dim_category := None; dim_master := None; dim_nonadditive := None;
     dim_levels_dict := [("year", year); ("month", month)];
     dim_attributes_dict := []; dim_attributes_by_ref := [];
     dim_hierarchies_dict := [];
     dim_default_hierarchy := ymd;
     default_hierarchy_name := "ymd" |}.

Definition flag_attribute : SqlMapper.AttributeBase :=
  {| SqlMapper.name := "flag"; SqlMapper.ref := "flag";
     SqlMapper.dimension := Some flag_dimension;
     SqlMapper.expression := None; SqlMapper.locales := [] |}.

Definition month_attribute : SqlMapper.AttributeBase :=
  {| SqlMapper.name := "month"; SqlMapper.ref := "date.month";
     SqlMapper.dimension := Some date_dimension;
     SqlMapper.expression := None; SqlMapper.locales := [] |}.

Definition year_attribute : SqlMapper.AttributeBase :=
  {| SqlMapper.name := "year"; SqlMapper.ref := "date.year";
     SqlMapper.dimension := Some date_dimension;
     SqlMapper.expression := None; SqlMapper.locales := [] |}.

Definition margin_attribute : SqlMapper.AttributeBase :=
  {| SqlMapper.name := "margin"; SqlMapper.ref := "margin";
     SqlMapper.dimension := None;
     SqlMapper.expression := Some "amount - cost";
     SqlMapper.locales := [] |}.

(** Stand-ins for the two methods of attributes.py: localizable with at
    least one locale, and the reference with the locale after a dot. *)
Definition sample_is_localizable (a : SqlMapper.AttributeBase) : bool :=
  negb (bool_decide (SqlMapper.locales a = [])).

Definition sample_localized_ref (a : SqlMapper.AttributeBase)
    (locale : option string) : result string :=
  Ok (match locale with
      | Some l => SqlMapper.ref a +:+ "." +:+ l
      | None => SqlMapper.ref a
      end).

(** A mapper of the cube [sales] with one explicit mapping, whose values
    are column references already. *)
Definition sales_mapper : SqlMapper.Mapper SqlMapper.ColumnReference :=
  {| SqlMapper.locale := None;
     SqlMapper.mappings :=
       {["date.year" :=
           {| SqlMapper.column := "yr"; SqlMapper.table := "calendar";
              SqlMapper.schema := None |}]};
     SqlMapper.fact_name := "ft_sales";
     SqlMapper.fact_prefix := Some "ft_"; SqlMapper.fact_suffix := None;
     SqlMapper.dimension_prefix := Some "dm_";
     SqlMapper.dimension_suffix := None;
     SqlMapper.aggregated_prefix := None;
     SqlMapper.aggregated_suffix := None;
     SqlMapper.dimension_key_prefix := None;
     SqlMapper.dimension_key_suffix := None;
     SqlMapper.self_schema := None; SqlMapper.fact_schema := None;
     SqlMapper.dimension_schema := None;
     SqlMapper.aggregate_schema := None |}.

(** An aggregate lookup that knows no function. *)
Definition no_aggregate (function_name : string)
    (attr : SqlExpressions.Dependant)
    (context : SqlExpressions.SQLExpressionContext)
    (coalesce : option bool) : result SqlExpressions.sql :=
  Err (ModelError ("Unknown aggregate function '" +:+ function_name
                   +:+ "'")).

End Samples.

(** An identifier character as the spec has it: [[A-Za-z0-9_]]. *)
Definition spec_ident (c : ascii) : bool :=
  Metadata.between 48 57 c || Metadata.between 65 90 c
  || Metadata.between 97 122 c || bool_decide (c = "_"%char).

(** The text after an optional [sep component] at the head of [s], the
    component being a non-empty run of [spec_ident] characters. *)
Definition spec_skip_group (sep : ascii) (s : string) : string :=
  match s with
  | String c s' =>
      if bool_decide (c = sep)
      then let '(g, rest) := Metadata.span spec_ident s' in
           if bool_decide (g = "") then s else rest
      else s
  | EmptyString => s
  end.

(** The whole text has the form [dimension[@hierarchy][:level]] of the
    spec, each component matching [[A-Za-z0-9_]+]. *)
Definition spec_form (s : string) : bool :=
  let '(d, r1) := Metadata.span spec_ident s in
  negb (bool_decide (d = ""))
  && bool_decide (spec_skip_group ":" (spec_skip_group "@" r1) = "").

(** A non-empty run of characters of the class of the pattern. *)
Fixpoint all_ident (s : string) : bool :=
  match s with
  | EmptyString => true
  | String c s' => Metadata.ident c && all_ident s'
  end.

Definition is_word (s : string) : bool :=
  negb (bool_decide (s = "")) && all_ident s.

(** The text after a run either is empty or starts outside the class. *)
Definition stops (rest : string) : bool :=
  match rest with
  | EmptyString => true
  | String c _ => negb (Metadata.ident c)
  end.

(** The implicit reference as the claim describes it: the column named
    after the attribute, in the table of the owning dimension, or in the
    fact table when the attribute has no owning dimension. *)
Definition claimed_implicit_reference {Physical}
    (self : SqlMapper.Mapper Physical) (attribute : SqlMapper.AttributeBase)
  : SqlMapper.ColumnReference :=
  {| SqlMapper.column := SqlMapper.name attribute;
     SqlMapper.table :=
       match SqlMapper.dimension attribute with
       | Some d => SqlMapper.dimension_table_name self (Metadata.dim_name d)
       | None => SqlMapper.fact_name self
       end;
     SqlMapper.schema := (SqlMapper.attribute_table self attribute).1 |}.

(** The character occurs in the string. *)
Fixpoint occurs (c : ascii) (s : string) : bool :=
  match s with
  | EmptyString => false
  | String c' s' => bool_decide (c' = c) || occurs c s'
  end.

(** The pieces put together again, [sep.join(pieces)]. *)
Fixpoint join (sep : ascii) (pieces : list string) : string :=
  match pieces with
  | [] => ""
  | [piece] => piece
  | piece :: rest => piece +:+ String sep (join sep rest)
  end.

(** The pair for one segment of an [order] value, as the spec words it:
    the segment cut at its colons, the direction absent without a colon. *)
Definition order_pair (segment : string) : string * option string :=
  match split_on ":" segment with
  | field :: direction :: _ => (field, Some direction)
  | _ => (segment, None)
  end.

(** The names an expression refers to as variables. *)
Fixpoint variables (e : SqlExpressions.expr) : list string :=
  match e with
  | SqlExpressions.Literal _ => []
  | SqlExpressions.Variable_ name => [name]
  | SqlExpressions.Binary _ lhs rhs => variables lhs ++ variables rhs
  | SqlExpressions.Unary _ operand => variables operand
  | SqlExpressions.Function_ _ args => concat (map variables args)
  end.



(** The name is a column of the context, a parameter or an SQL variable. *)
Definition resolvable (context : SqlExpressions.SQLExpressionContext)
    (name : string) : bool :=
  bool_decide (is_Some (SqlExpressions.columns context !! name))
  || bool_decide (is_Some (SqlExpressions.parameters context !! name))
  || bool_decide (name ∈ SqlExpressions.SQL_VARIABLES).

(** The optional " in <label>" at the end of the message of [resolve]. *)
Definition label_suffix (label : option string) : string :=
  match label with
  | Some l => if bool_decide (l = "") then "" else " in " +:+ l
  | None => ""
  end.

(** The compiled arguments of a function call, left to right. *)
Fixpoint compile_list (args : list SqlExpressions.expr)
    (context : SqlExpressions.SQLExpressionContext)
  : result (list SqlExpressions.sql) :=
  match args with
  | [] => Ok []
  | a :: rest =>
      x ← SqlExpressions.compile a context;
      xs ← compile_list rest context;
      Ok (x :: xs)
  end.


(** ** Further parts of the five modules *)

(** Exceptions of Python itself that the parts below let through, beside
    the ones above. *)
Inductive exception : Type :=
  | Raised (e : error)
  | KeyError (key : string).

Inductive outcome (A : Type) : Type :=
  | Returns (a : A)
  | Raises (x : exception).
Arguments Returns {A} a.
Arguments Raises {A} x.

(** [l[0:stop]] for any integer [stop]: a negative one counts from the
    end. *)
Definition py_slice_stop {A} (stop : Z) (l : list A) : list A :=
  if (stop <? 0)%Z
  then take (Z.to_nat (Z.of_nat (length l) + stop)) l
  else take (Z.to_nat stop) l.

(** ["%d" % n]. *)
Definition format_d (n : Z) : string := NilZero.string_of_int (Z.to_int n).

(** ["%s" % b] for a boolean. *)
Definition format_bool (b : bool) : string := if b then "True" else "False".

(** *** More of [Hierarchy] and [Dimension] (dimension.py) *)

Module MetadataOps.
Import Metadata.

(** The setter of [Hierarchy.levels] (lines 405-409): the dictionary is
    emptied and every level stored under its name. *)
Definition store_level (d : list (string * Level)) (level : Level)
  : list (string * Level) :=
  odict_set (level_name level) level d.

Definition set_levels (self : Hierarchy) (levels : list Level) : Hierarchy :=
  {| hier_name := hier_name self; hier_label := hier_label self;
     hier_description := hier_description self; hier_info := hier_info self;
     hier_levels_dict := foldl store_level [] levels |}.

(** [Hierarchy.keys]. *)
Definition keys (self : Hierarchy) (depth : option Z) : list Attribute :=
  let levels :=
    match depth with
    | Some depth => py_slice_stop depth (hier_levels self)
    | None => hier_levels self
    end in
  level_key <$> levels.

(** [Hierarchy.__len__]. *)
Definition hier_len (self : Hierarchy) : nat := length (hier_levels self).

(** [Hierarchy.__getitem__].  The handler is for [IndexError]; a dictionary
    raises [KeyError] for a missing key, which passes through. *)
Definition Hierarchy_getitem (self : Hierarchy) (item : string)
  : outcome Level :=
  match odict_get item (hier_levels_dict self) with
  | Some level => Returns level
  | None => Raises (KeyError item)
  end.

(** [Hierarchy.__contains__] for a name: a string is equal to no level, so
    the answer is the second test, on the names of the levels. *)
Definition Hierarchy_contains (self : Hierarchy) (item : string) : bool :=
  bool_decide (item ∈ level_name <$> hier_levels self).

Section Depth.

(** [repr] of the dictionary of levels, which goes through the
    [to_dict] of the base class of model objects (not among these
    sources). *)
Variable repr_levels : list (string * Level) -> string.

(** [Hierarchy.levels_for_depth]. *)
Definition levels_for_depth (self : Hierarchy) (depth : Z) (drilldown : bool)
  : result (list Level) :=
  let extend := if drilldown then 1%Z else 0%Z in
  if bool_decide (Z.of_nat (length (hier_levels self)) < depth + extend)%Z
  then Err (HierarchyError
              ("Depth " +:+ format_d depth
               +:+ " is longer than hierarchy levels "
               +:+ repr_levels (hier_levels_dict self)
               +:+ " (drilldown: " +:+ format_bool drilldown +:+ ")"))
  else Ok (py_slice_stop (depth + extend) (hier_levels self)).

End Depth.

(** [list(self._levels).index(str(level))], which raises [ValueError]. *)
Definition index_of_level (self : Hierarchy) (level : Level) : result nat :=
  match list_index (level_name level) (hier_level_names self) with
  | Some i => Ok i
  | None => Err (ValueError ("'" +:+ level_name level
                             +:+ "' is not in list"))
  end.

(** [Hierarchy.next_level]. *)
Definition next_level (self : Hierarchy) (level : option Level)
  : result (option Level) :=
  match level with
  | None => Some <$> py_index (hier_levels self) 0
  | Some level =>
      index ← index_of_level self level;
      if bool_decide (length (hier_levels self) <= index + 1)
      then Ok None
      else Some <$> py_index (hier_levels self) (index + 1)
  end.

(** [Hierarchy.previous_level]. *)
Definition previous_level (self : Hierarchy) (level : option Level)
  : result (option Level) :=
  match level with
  | None => Ok None
  | Some level =>
      index ← index_of_level self level;
      if bool_decide (index = 0)
      then Ok None
      else Some <$> py_index (hier_levels self) (index - 1)
  end.

(** [Hierarchy.path_is_base]. *)
Definition path_is_base (self : Hierarchy) (path : option (list string))
  : bool :=
  match path with
  | Some path => bool_decide (length path = length (hier_levels self))
  | None => false
  end.

(** [Hierarchy.key_attributes] and [Hierarchy.all_attributes]. *)
Definition key_attributes (self : Hierarchy) : list Attribute :=
  level_key <$> hier_levels self.

Definition all_attributes (self : Hierarchy) : list Attribute :=
  foldl (fun attributes level => attributes ++ level_attributes level)
        [] (hier_levels self).

(** [Dimension.level] for a name. *)
Definition Dimension_level (self : Dimension) (obj : string)
  : outcome Level :=
  match odict_get obj (dim_levels_dict self) with
  | None => Raises (KeyError ("No level " +:+ obj +:+ " in dimension "
                              +:+ dim_name self))
  | Some level => Returns level
  end.

(** [Dimension.attribute]. *)
Definition Dimension_attribute (self : Dimension) (name : string)
    (by_ref : bool) : outcome Attribute :=
  if by_ref
  then match odict_get name (dim_attributes_by_ref self) with
       | Some a => Returns a
       | None => Raises (KeyError name)
       end
  else match odict_get name (dim_attributes_dict self) with
       | Some a => Returns a
       | None =>
           Raises (Raised (NoSuchAttributeError
                             ("Unknown attribute '" +:+ name
                              +:+ "' in dimension '" +:+ dim_name self
                              +:+ "'")))
       end.

(** [Dimension.level_names], [Dimension.key_attributes] and
    [Dimension.attributes]. *)
Definition Dimension_level_names (self : Dimension) : list string :=
  odict_keys (dim_levels_dict self).

Definition Dimension_key_attributes (self : Dimension) : list Attribute :=
  level_key <$> odict_values (dim_levels_dict self).

Definition Dimension_attributes (self : Dimension) : list Attribute :=
  odict_values (dim_attributes_dict self).

End MetadataOps.

(** *** Naming conventions (mapper.py) *)

Module Naming.

(** The values of a naming dictionary: a string, a boolean or [None]. *)
Inductive naming_value : Type :=
  | NStr (s : string)
  | NBool (b : bool)
  | NNone.

Definition NAMING_DEFAULTS : list (string * naming_value) :=
  [("fact_prefix", NNone);
   ("fact_suffix", NNone);
   ("dimension_prefix", NNone);
   ("dimension_suffix", NNone);
   ("dimension_key_prefix", NNone);
   ("dimension_key_suffix", NNone);
   ("denormalized_prefix", NNone);
   ("denormalized_suffix", NNone);
   ("aggregated_prefix", NNone);
   ("aggregated_suffix", NNone);
   ("fact_key", NStr SqlMapper.DEFAULT_FACT_KEY);
   ("dimension_key", NStr SqlMapper.DEFAULT_DIMENSION_KEY);
   ("explicit_dimension_primary", NBool false);
   ("schema", NNone);
   ("fact_schema", NNone);
   ("dimension_schema", NNone);
   ("aggregate_schema", NNone)].

(** [distill_naming]: the items whose key is a key of [NAMING_DEFAULTS],
    in their order. *)
Definition distill_naming {V} (dictionary : list (string * V))
  : list (string * V) :=
  filter (fun kv => kv.1 ∈ odict_keys NAMING_DEFAULTS) dictionary.

(** [_naming_default]: [naming.get(key, NAMING_DEFAULTS.get(key))]. *)
Definition _naming_default (naming : list (string * naming_value))
    (key : string) : naming_value :=
  match odict_get key naming with
  | Some v => v
  | None => default NNone (odict_get key NAMING_DEFAULTS)
  end.

End Naming.

(** *** The drilldown of [log_request] (decorators.py) *)

Module ServerLog.

(** Lines 153-157: the values of [drilldown], each cut at its bars. *)
Definition drilldown (args : list (string * string)) : list string :=
  let ddlist := Server.getlist args "drilldown" in
  if bool_decide (ddlist = []) then []
  else foldl (fun drilldown ddstring => drilldown ++ split_on "|" ddstring)
             [] ddlist.

End ServerLog.

(** *** Invariants and measures used in the further statements *)

(** The dictionary of levels of a hierarchy as Python keeps it: the keys
    are distinct, and every level is stored under its name. *)
Definition hier_wf (h : Metadata.Hierarchy) : Prop :=
  NoDup (Metadata.hier_level_names h)
  /\ keyed_by Metadata.level_name (Metadata.hier_levels_dict h).

(** The key, the label attribute and the order attribute of a level are
    attributes of the level. *)
Definition level_wf (l : Metadata.Level) : Prop :=
  Metadata.level_key l ∈ Metadata.level_attributes l
  /\ Metadata.level_label_attribute l ∈ Metadata.level_attributes l
  /\ Metadata.level_order_attribute l ∈ Metadata.level_attributes l.

(** Every entry of the two maps of a dimension is an attribute owned by
    the dimension, the first map keyed by the attribute's name. *)
Definition maps_owned (self_name : string)
    (maps : list (string * Metadata.Attribute)
            * list (string * Metadata.Attribute)) : Prop :=
  (forall k a, odict_get k maps.1 = Some a ->
               Metadata.attr_name a = k
               /\ Metadata.attr_dimension a = Some self_name)
  /\ (forall r a, odict_get r maps.2 = Some a ->
                  Metadata.attr_dimension a = Some self_name).

(** The default level roles that go with the role of a dimension. *)
Definition default_roles_of (role : option string) : list string :=
  match role with
  | Some r => default [] (odict_get r Metadata._DEFAULT_LEVEL_ROLES)
  | None => []
  end.

(** The number of occurrences of the character in the string. *)
Fixpoint count_char (c : ascii) (s : string) : nat :=
  match s with
  | EmptyString => 0
  | String c' s' => (if bool_decide (c' = c) then 1 else 0) + count_char c s'
  end.

(** The last item of the list that has the key. *)
Definition last_with {V} (key_of : V -> string) (k : string) (l : list V)
  : option V :=
  last (filter (fun v => key_of v = k) l).

(** Two results that succeed together, and then with the same value. *)
Definition same_outcome {A} (r1 r2 : result A) : Prop :=
  match r1, r2 with
  | Ok a, Ok b => a = b
  | Err _, Err _ => True
  | _, _ => False
  end.

(** The registries of extensions that ext.py creates. *)
Definition registries : list Ext.ExtensionFinder :=
  [Ext.authenticator; Ext.authorizer; Ext.browser; Ext.formatter;
   Ext.model_provider; Ext.request_log_handler; Ext.store].

(** Further sample values. *)
Module MoreSamples.
Import Metadata.

(** An attribute that already belongs to the dimension [other]. *)
Definition taken : Attribute :=
  {| attr_name := "code"; attr_dimension := Some "other" |}.

(** Two attributes without an owner. *)
Definition flag : Attribute :=
  {| attr_name := "flag"; attr_dimension := None |}.

Definition month_name : Attribute :=
  {| attr_name := "month_name"; attr_dimension := None |}.

Definition month_number : Attribute :=
  {| attr_name := "month"; attr_dimension := None |}.

(** The attribute [flag] of the mappers, of the dimension given. *)
Definition flag_of (d : Dimension) : SqlMapper.AttributeBase :=
  {| SqlMapper.name := "flag"; SqlMapper.ref := "flag";
     SqlMapper.dimension := Some d;
     SqlMapper.expression := None; SqlMapper.locales := [] |}.

(** An import system in which nothing can be imported. *)
Definition no_loader (modname attr : string) : result Ext.Factory :=
  Err (ImportError ("No module named '" +:+ modname +:+ "'")).

(** The context of the sample bases, and the same with one column more
    and a label. *)
Definition sales_context : SqlExpressions.SQLExpressionContext :=
  SqlExpressions.SQLExpressionContext_init (Some Samples.sales_bases)
    None None.

Definition labelled_context : SqlExpressions.SQLExpressionContext :=
  {| SqlExpressions.columns :=
       <["cost" := SqlExpressions.Column "cost"]> Samples.sales_bases;
     SqlExpressions.parameters := ∅;
     SqlExpressions.label := Some "sales" |}.

End MoreSamples.

(** * Properties *)

(** A decidable proposition settled by evaluating its decision. *)
Ltac by_computation :=
  apply (bool_decide_unpack _); vm_compute; exact I.

(** ** Generic facts on results and ordered dictionaries *)

Lemma bind_Ok {A B} (r : result A) (f : A -> result B) (b : B) :
  r ≫= f = Ok b -> exists a, r = Ok a /\ f a = Ok b.
Proof. destruct r as [a|e]; simpl; [eauto | discriminate]. Qed.

Lemma Ok_bind {A B} (a : A) (f : A -> result B) : Ok a ≫= f = f a.
Proof. reflexivity. Qed.

Lemma Err_bind {A B} (e : error) (f : A -> result B) : Err e ≫= f = Err e.
Proof. reflexivity. Qed.

Lemma bind_Err {A B} (r : result A) (f : A -> result B) (e : error) :
  r = Err e -> r ≫= f = Err e.
Proof. intros ->. reflexivity. Qed.

Lemma truthy_false_py_or (o : option string) (d : string) :
  truthy o = false -> py_or o d = d.
Proof.
  destruct o as [s|]; simpl; [|done].
  case_bool_decide; [done | discriminate].
Qed.

Lemma odict_get_elem_of {V} (k : string) (v : V) (d : list (string * V)) :
  odict_get k d = Some v -> (k, v) ∈ d.
Proof.
  induction d as [|[k' v'] d IH]; simpl; [discriminate|].
  case_decide as Hk.
  - intros [= ->]. subst k'. left.
  - intros H. right. auto.
Qed.

Lemma elem_of_odict_set {V} (k : string) (v : V) (d : list (string * V))
    (kv : string * V) :
  kv ∈ odict_set k v d -> kv = (k, v) \/ kv ∈ d.
Proof.
  induction d as [|[k' v'] d IH]; simpl.
  - intros H. apply list_elem_of_singleton in H. auto.
  - case_decide as Hk.
    + intros H. apply elem_of_cons in H as [->|H]; [auto|].
      right. right. exact H.
    + intros H. apply elem_of_cons in H as [->|H].
      * right. left.
      * destruct (IH H) as [->|Hd]; [auto|]. right. right. exact Hd.
Qed.

(** ** Levels *)

Section LevelFacts.
Import Metadata.

Lemma nonadditive_chain_ok (nonadditive : option string) :
  is_ok (nonadditive_chain nonadditive) = true <->
  nonadditive = None \/ nonadditive = Some "" \/ nonadditive = Some "none"
  \/ nonadditive = Some "all" \/ nonadditive = Some "any"
  \/ nonadditive = Some "time".
Proof.
  unfold nonadditive_chain.
  destruct nonadditive as [s|]; simpl; [|by intuition].
  repeat case_bool_decide; simplify_eq; simpl;
    try (split; [intros _ | done]; by intuition).
  split; [discriminate|].
  intros [?|[?|[?|[?|[?|?]]]]]; simplify_eq.
Qed.

(** Whenever a level is constructed, [nonadditive] holds the argument as
    it was given. *)
Lemma Level_init_nonadditive name attributes key order_attribute order
    label_attribute label info cardinality role nonadditive description l :
  Level_init name attributes key order_attribute order label_attribute
             label info cardinality role nonadditive description = Ok l ->
  level_nonadditive l = nonadditive.
Proof.
  unfold Level_init. case_bool_decide; [discriminate|].
  intros Hinit.
  apply bind_Ok in Hinit as (? & _ & Hinit).
  apply bind_Ok in Hinit as (? & _ & Hinit).
  apply bind_Ok in Hinit as (? & _ & Hinit).
  apply bind_Ok in Hinit as (? & _ & Hinit).
  by injection Hinit as <-.
Qed.

End LevelFacts.

(** ** Dimensions *)

Section DimensionFacts.
Import Metadata.

Lemma keyed_by_set {V} (name_of : V -> string) (d : list (string * V)) v :
  keyed_by name_of d -> keyed_by name_of (odict_set (name_of v) v d).
Proof.
  intros Hd k v' Hin.
  apply elem_of_odict_set in Hin as [[= -> ->]|Hin]; [done|].
  by apply Hd.
Qed.

Lemma object_dict_into_keyed {V} (name_of : V -> string) message objects :
  forall ordered d,
    keyed_by name_of ordered ->
    object_dict_into name_of message ordered objects = Ok d ->
    keyed_by name_of d.
Proof.
  induction objects as [|obj rest IH]; simpl; intros ordered d Hk Hd.
  - by injection Hd as <-.
  - destruct (odict_get (name_of obj) ordered), message;
      try discriminate; (eapply IH; [|exact Hd]; by apply keyed_by_set).
Qed.

Lemma object_dict_keyed {V} (name_of : V -> string) message objects d :
  object_dict name_of message objects = Ok d -> keyed_by name_of d.
Proof.
  apply object_dict_into_keyed. intros k v Hin. by apply elem_of_nil in Hin.
Qed.

Lemma keyed_by_get {V} (name_of : V -> string) (d : list (string * V)) k v :
  keyed_by name_of d -> odict_get k d = Some v -> name_of v = k.
Proof. intros Hd Hg. apply Hd. by apply odict_get_elem_of. Qed.

Lemma keyed_by_head {V} (name_of : V -> string) (d : list (string * V)) v :
  keyed_by name_of d -> head (odict_values d) = Some v ->
  odict_get (name_of v) d = Some v.
Proof.
  destruct d as [|[k v'] d]; simpl; [discriminate|].
  intros Hd [= ->]. rewrite (Hd k v) by left.
  by rewrite decide_True.
Qed.

Lemma odict_get_keys {V} (d : list (string * V)) k v :
  odict_get k d = Some v -> k ∈ odict_keys d.
Proof.
  intros Hg. apply odict_get_elem_of in Hg.
  unfold odict_keys. apply list_elem_of_fmap. by exists (k, v).
Qed.

Variable attribute_ref : Attribute -> string.

(** What [Dimension.__init__] has built before it looks at
    [default_hierarchy_name]: the dictionary of hierarchies. *)
Lemma Dimension_init_hierarchies name levels hierarchies dhn label
    description info role cardinality category master nonadditive
    attributes d :
  Dimension_init attribute_ref name levels hierarchies dhn label
    description info role cardinality category master nonadditive
    attributes = Ok d ->
  keyed_by hier_name (dim_hierarchies_dict d)
  /\ exists first,
       head (dim_hierarchies d) = Some first
       /\ dim_default_hierarchy d =
            default first (odict_get (py_or dhn "default")
                                     (dim_hierarchies_dict d))
       /\ default_hierarchy_name d = hier_name (dim_default_hierarchy d)
       /\ dim_nonadditive d = nonadditive.
Proof.
  unfold Dimension_init. intros Hinit.
  apply bind_Ok in Hinit as (? & _ & Hinit).
  destruct (bool_decide (default [] levels = [])
            && bool_decide (default [] attributes = [])); [discriminate|].
  destruct (negb (bool_decide (default [] levels = []))
            && negb (bool_decide (default [] attributes = [])));
    [discriminate|].
  apply bind_Ok in Hinit as (lv & _ & Hinit).
  apply bind_Ok in Hinit as (ld & _ & Hinit).
  apply bind_Ok in Hinit as (maps & _ & Hinit).
  apply bind_Ok in Hinit as (hd & Hhd & Hinit).
  apply bind_Ok in Hinit as (first & Hfirst & Hinit).
  injection Hinit as <-. simpl. split.
  - destruct (negb (bool_decide (default [] hierarchies = []))).
    + by eapply object_dict_keyed.
    + apply bind_Ok in Hhd as (? & _ & Hhd). by eapply object_dict_keyed.
  - exists first. unfold dim_hierarchies. simpl.
    destruct (odict_values hd); [discriminate|].
    by injection Hfirst as ->.
Qed.

(** Whether the construction succeeds does not depend on the name asked
    for. *)
Lemma Dimension_init_ok_any_default name levels hierarchies dhn dhn' label
    description info role cardinality category master nonadditive
    attributes :
  is_ok (Dimension_init attribute_ref name levels hierarchies dhn label
           description info role cardinality category master nonadditive
           attributes)
  = is_ok (Dimension_init attribute_ref name levels hierarchies dhn' label
             description info role cardinality category master nonadditive
             attributes).
Proof.
  unfold Dimension_init.
  repeat match goal with
         | |- context [mbind _ ?r] =>
             lazymatch r with
             | Ok _ => fail
             | Err _ => fail
             | _ => destruct r; simpl
             end
         | |- context [if ?b then _ else _] => destruct b; simpl
         | |- context [match ?l with [] => _ | _ :: _ => _ end] =>
             destruct l; simpl
         end; reflexivity.
Qed.

End DimensionFacts.

(** ** Claims on levels and dimensions *)

Section MetadataClaims.
Import Metadata Samples.

(** C1.  The [nonadditive] argument is not normalised: a level and a
    dimension constructed with "any" store "any" (not "all"), and
    constructed with "none" store "none" (not absent), because the
    argument is assigned again after the normalising chain. *)
Theorem nonadditive_stored_as_given :
  level_nonadditive <$>
    Level_init "year" [mkAttribute "year" None] None None None None None
               None None None (Some "any") None = Ok (Some "any")
  /\ level_nonadditive <$>
       Level_init "year" [mkAttribute "year" None] None None None None None
                  None None None (Some "none") None = Ok (Some "none")
  /\ dim_nonadditive <$>
       Dimension_init dotted_ref "date" (Some [year]) None None None None
                      None None None None None (Some "any") None
     = Ok (Some "any")
  /\ dim_nonadditive <$>
       Dimension_init dotted_ref "date" (Some [year]) None None None None
                      None None None None None (Some "none") None
     = Ok (Some "none").
Proof. repeat split; vm_compute; reflexivity. Qed.

(** C8.  A level built from a non-empty attribute list with no explicit
    key, label attribute or order attribute has the first attribute as
    key, the second as label attribute (the key when there is only one)
    and the first as order attribute; it is built whenever [nonadditive]
    is acceptable; with an empty attribute list the construction fails
    with a model error. *)
Theorem Level_init_defaults name a rest key order_attribute order
    label_attribute label info cardinality role nonadditive description :
  truthy key = false ->
  truthy label_attribute = false ->
  truthy order_attribute = false ->
  (forall l,
      Level_init name (a :: rest) key order_attribute order label_attribute
                 label info cardinality role nonadditive description = Ok l ->
      level_key l = a
      /\ level_label_attribute l
         = match rest with b :: _ => b | [] => level_key l end
      /\ level_order_attribute l = a
      /\ level_attributes l = a :: rest)
  /\ (is_ok (nonadditive_chain nonadditive) = true ->
      exists l,
        Level_init name (a :: rest) key order_attribute order
                   label_attribute label info cardinality role nonadditive
                   description = Ok l)
  /\ Level_init name [] key order_attribute order label_attribute label
                info cardinality role nonadditive description
     = Err (ModelError "Attribute list should not be empty").
Proof.
  intros Hkey Hlabel Horder. unfold Level_init.
  rewrite Hkey, Hlabel, Horder.
  rewrite (bool_decide_false (a :: rest = [])) by discriminate.
  split; [|split].
  - intros l Hinit. apply bind_Ok in Hinit as (? & _ & Hinit).
    simpl in Hinit. destruct rest; injection Hinit as <-; done.
  - intros Hna. destruct (nonadditive_chain nonadditive); [|discriminate].
    simpl. destruct rest; eauto.
  - reflexivity.
Qed.

Lemma Level_init_defaults_witness :
  exists l,
    Level_init "customer"
      [mkAttribute "id" None; mkAttribute "name" None;
       mkAttribute "city" None]
      None None None None None None None None None None = Ok l
    /\ level_key l = mkAttribute "id" None
    /\ level_label_attribute l = mkAttribute "name" None
    /\ level_order_attribute l = mkAttribute "id" None.
Proof.
  eexists. split; [vm_compute; reflexivity|].
  destruct (Level_init_defaults "customer" (mkAttribute "id" None)
              [mkAttribute "name" None; mkAttribute "city" None]
              None None None None None None None None None None
              eq_refl eq_refl eq_refl) as (Hfields & _ & _).
  destruct (Hfields _ eq_refl) as (Hk & Hl & Ho & _).
  repeat split; assumption.
Defined.

(** C10.  After a successful construction [default_hierarchy_name] is the
    key of a hierarchy of the dimension, namely of the default hierarchy:
    the hierarchy found under the name asked for (or under "default"),
    and the first hierarchy when there is none; the name asked for never
    makes the construction fail. *)
Theorem default_hierarchy_name_resolves attribute_ref name levels
    hierarchies dhn label description info role cardinality category
    master nonadditive attributes d :
  Dimension_init attribute_ref name levels hierarchies dhn label
    description info role cardinality category master nonadditive
    attributes = Ok d ->
  odict_get (default_hierarchy_name d) (dim_hierarchies_dict d)
    = Some (dim_default_hierarchy d)
  /\ hierarchy d (Some (default_hierarchy_name d))
     = Ok (dim_default_hierarchy d)
  /\ default_hierarchy_name d ∈ odict_keys (dim_hierarchies_dict d)
  /\ (odict_get (py_or dhn "default") (dim_hierarchies_dict d) = None ->
      head (dim_hierarchies d) = Some (dim_default_hierarchy d))
  /\ (forall h,
        odict_get (py_or dhn "default") (dim_hierarchies_dict d) = Some h ->
        dim_default_hierarchy d = h
        /\ default_hierarchy_name d = py_or dhn "default")
  /\ (forall other,
        is_ok (Dimension_init attribute_ref name levels hierarchies other
                 label description info role cardinality category master
                 nonadditive attributes) = true).
Proof.
  intros Hinit.
  destruct (Dimension_init_hierarchies _ _ _ _ _ _ _ _ _ _ _ _ _ _ _ Hinit)
    as (Hkeyed & first & Hfirst & Hdefault & Hname & _).
  assert (Hget : odict_get (default_hierarchy_name d)
                   (dim_hierarchies_dict d)
                 = Some (dim_default_hierarchy d)).
  { rewrite Hname, Hdefault.
    destruct (odict_get (py_or dhn "default") (dim_hierarchies_dict d))
      as [h|] eqn:Hlookup; simpl.
    - by rewrite (keyed_by_get _ _ _ _ Hkeyed Hlookup).
    - by apply keyed_by_head. }
  split; [exact Hget|]. split; [|split; [|split; [|split]]].
  - unfold hierarchy. by rewrite Hget.
  - by eapply odict_get_keys.
  - intros Hnone. by rewrite Hdefault, Hnone.
  - intros h Hsome. rewrite Hname, Hdefault, Hsome. simpl.
    split; [done|]. by eapply keyed_by_get.
  - intros other.
    rewrite (Dimension_init_ok_any_default attribute_ref name levels
               hierarchies other dhn).
    by rewrite Hinit.
Qed.

Lemma default_hierarchy_name_resolves_witness :
  exists d,
    Dimension_init dotted_ref "date" (Some [year; quarter; month])
      (Some [ymd]) (Some "fiscal") None None None None None None None
      None None = Ok d
    /\ default_hierarchy_name d = "ymd"
    /\ odict_get (default_hierarchy_name d) (dim_hierarchies_dict d)
       = Some (dim_default_hierarchy d).
Proof.
  eexists. split; [vm_compute; reflexivity|].
  split; [vm_compute; reflexivity|].
  refine (proj1 (default_hierarchy_name_resolves dotted_ref "date"
                   (Some [year; quarter; month]) (Some [ymd])
                   (Some "fiscal") None None None None None None None
                   None None _ _)).
  vm_compute; reflexivity.
Defined.

End MetadataClaims.

(** ** Claims on hierarchies *)

Section HierarchyClaims.
Import Metadata Samples.

Lemma level_index_Ok h name i :
  level_index h name = Ok i <-> list_index name (hier_level_names h) = Some i.
Proof.
  unfold level_index. destruct (list_index _ _); split; congruence.
Qed.

Lemma rollup_one_level h path :
  rollup h path None = Ok (take (length path - 1) path).
Proof.
  unfold rollup. simpl. case_bool_decide; simpl; [done|].
  destruct path; simpl in *; [done | lia].
Qed.

Lemma rollup_to_level h path lv i :
  level_index h (level_name lv) = Ok i ->
  i + 1 <= length path ->
  rollup h path (Some lv) = Ok (take (i + 1) path).
Proof.
  intros Hi Hlen. unfold rollup. rewrite Hi. simpl.
  rewrite bool_decide_false by lia. reflexivity.
Qed.

Lemma rollup_too_deep h path lv i :
  level_index h (level_name lv) = Ok i ->
  length path < i + 1 ->
  exists msg, rollup h path (Some lv) = Err (HierarchyError msg).
Proof.
  intros Hi Hlen. unfold rollup. rewrite Hi. simpl.
  rewrite bool_decide_true by lia. simpl. eauto.
Qed.

Lemma rollup_unknown_level h path lv :
  list_index (level_name lv) (hier_level_names h) = None ->
  exists msg, rollup h path (Some lv) = Err (HierarchyError msg).
Proof.
  intros Hi. unfold rollup, level_index. rewrite Hi. simpl. eauto.
Qed.

Lemma level_index_first h lv :
  head (hier_level_names h) = Some (level_name lv) ->
  level_index h (level_name lv) = Ok 0.
Proof.
  unfold level_index. destruct (hier_level_names h) as [|n names]; simpl;
    [discriminate|].
  intros [= ->]. by rewrite decide_True.
Qed.

(** C3, as the claim has it, fails: rolling the path 2020/Q1/01 up to the
    first level of year > quarter > month gives the one-element path
    2020, not the empty list. *)
Lemma rollup_first_level_not_empty :
  rollup ymd ["2020"; "Q1"; "01"] (Some year) = Ok ["2020"]
  /\ rollup ymd ["2020"; "Q1"; "01"] (Some year) <> Ok [].
Proof. split; [vm_compute; reflexivity | vm_compute; discriminate]. Qed.

(** C3, amended.  Without a level, [rollup] returns the path without its
    last element (the empty list for a path of at most one element);
    with a level it keeps the first [level_index(level)+1] elements, so
    rolling up to the first level keeps the first element alone; rolling
    up to a level deeper than the path, or to a level that is not in the
    hierarchy, fails with a hierarchy error. *)
Theorem rollup_behaviour h path :
  rollup h path None = Ok (take (length path - 1) path)
  /\ (forall init x, path = init ++ [x] -> rollup h path None = Ok init)
  /\ (length path <= 1 -> rollup h path None = Ok [])
  /\ (forall lv i,
        level_index h (level_name lv) = Ok i ->
        (i + 1 <= length path ->
         rollup h path (Some lv) = Ok (take (i + 1) path)
         /\ length (take (i + 1) path) = i + 1)
        /\ (length path < i + 1 ->
            exists msg, rollup h path (Some lv) = Err (HierarchyError msg)))
  /\ (forall lv,
        list_index (level_name lv) (hier_level_names h) = None ->
        exists msg, rollup h path (Some lv) = Err (HierarchyError msg))
  /\ (forall lv,
        head (hier_level_names h) = Some (level_name lv) ->
        match path with
        | x :: _ => rollup h path (Some lv) = Ok [x]
        | [] => exists msg,
                  rollup h path (Some lv) = Err (HierarchyError msg)
        end).
Proof.
  split; [apply rollup_one_level|].
  split; [|split; [|split; [|split]]].
  - intros init x ->. rewrite rollup_one_level, length_app. simpl.
    replace (length init + 1 - 1) with (length init) by lia.
    by rewrite take_app_length.
  - intros Hlen. rewrite rollup_one_level.
    destruct path as [|x [|y path]]; simpl in *; [done | done | lia].
  - intros lv i Hi. split.
    + intros Hlen. split; [by apply rollup_to_level|].
      rewrite length_take. lia.
    + by apply rollup_too_deep.
  - intros lv. apply rollup_unknown_level.
  - intros lv Hfirst. apply level_index_first in Hfirst.
    destruct path as [|x path].
    + eapply rollup_too_deep; [exact Hfirst | simpl; lia].
    + rewrite (rollup_to_level _ _ _ 0 Hfirst) by (simpl; lia). done.
Qed.

Lemma rollup_behaviour_witness :
  rollup ymd ["2020"; "Q1"; "01"] (Some quarter) = Ok ["2020"; "Q1"]
  /\ rollup ymd ["2020"; "Q1"; "01"] None = Ok ["2020"; "Q1"]
  /\ exists msg,
       rollup ymd ["2020"] (Some month) = Err (HierarchyError msg).
Proof.
  destruct (rollup_behaviour ymd ["2020"; "Q1"; "01"])
    as (_ & Hlast & _ & Hlevel & _).
  destruct (rollup_behaviour ymd ["2020"]) as (_ & _ & _ & Hdeep & _).
  split; [|split].
  - exact (proj1 (proj1 (Hlevel quarter 1 eq_refl) ltac:(simpl; lia))).
  - exact (Hlast ["2020"; "Q1"] "01" eq_refl).
  - exact (proj2 (Hdeep month 2 eq_refl) ltac:(simpl; lia)).
Defined.

End HierarchyClaims.

(** ** Claim on the extension registry *)

Section ExtClaims.
Import Ext Samples.

(** C2.  A name that is neither cached nor builtin does not fail with the
    internal error "Unknown '<type>' extension '<name>'": [_get] raises a
    plain exception with the message "nono" before that statement is
    reached. *)
Theorem unknown_extension_raises_plain_exception load self name :
  extensions self !! name = None ->
  odict_get name (builtins self) = None ->
  _get load self name = Err (PlainException "nono")
  /\ _get load self name
     <> Err (InternalError ("Unknown '" +:+ type_ self +:+ "' extension '"
                            +:+ name +:+ "'")).
Proof.
  intros Hcache Hbuiltin. unfold _get, builtin.
  rewrite Hcache, Hbuiltin. simpl. split; [reflexivity | discriminate].
Qed.

Lemma unknown_extension_raises_plain_exception_witness :
  _get sample_loader store "nosuch" = Err (PlainException "nono")
  /\ _get sample_loader store "nosuch"
     <> Err (InternalError "Unknown 'stores' extension 'nosuch'").
Proof.
  exact (unknown_extension_raises_plain_exception sample_loader store
           "nosuch" eq_refl eq_refl).
Defined.

End ExtClaims.

(** ** Claim on the ordering parameter *)

Section ServerClaims.
Import Server.

Lemma split_on_nonempty sep s : split_on sep s <> [].
Proof.
  destruct s as [|c s]; simpl; [discriminate|].
  case_decide; [discriminate|]. destruct (split_on sep s); discriminate.
Qed.

Lemma split_on_absent sep s : occurs sep s = false -> split_on sep s = [s].
Proof.
  induction s as [|c s IH]; simpl; [done|].
  intros Hocc. apply orb_false_iff in Hocc as [Hc Hs].
  apply bool_decide_eq_false in Hc.
  rewrite decide_False by done. by rewrite IH.
Qed.

Lemma split_on_app sep a b :
  occurs sep a = false ->
  split_on sep (a +:+ String sep b) = a :: split_on sep b.
Proof.
  induction a as [|c a IH]; simpl.
  - intros _. by rewrite decide_True.
  - intros Hocc. apply orb_false_iff in Hocc as [Hc Ha].
    apply bool_decide_eq_false in Hc.
    rewrite decide_False by done. by rewrite IH.
Qed.

Lemma split_on_join sep pieces :
  pieces <> [] ->
  Forall (fun piece => occurs sep piece = false) pieces ->
  split_on sep (join sep pieces) = pieces.
Proof.
  intros Hne Hall. induction Hall as [|piece rest Hpiece Hrest IH]; [done|].
  destruct rest as [|piece' rest].
  - simpl. by apply split_on_absent.
  - change (join sep (piece :: piece' :: rest))
      with (piece +:+ String sep (join sep (piece' :: rest))).
    rewrite split_on_app by done. by rewrite IH.
Qed.

Lemma order_item_total order : order_item order = Ok (order_pair order).
Proof.
  unfold order_item, order_pair.
  pose proof (split_on_nonempty ":" order) as Hne.
  destruct (split_on ":" order) as [|a [|b rest]]; done.
Qed.

Lemma append_orders_total segments :
  forall g_order,
    append_orders g_order segments
    = Ok (g_order ++ (order_pair <$> segments)).
Proof.
  induction segments as [|order rest IH]; intros g_order; simpl.
  - by rewrite app_nil_r.
  - rewrite order_item_total. simpl. rewrite IH.
    by rewrite <- app_assoc.
Qed.

Lemma collect_orders_total values :
  forall g_order,
    collect_orders g_order values
    = Ok (g_order
          ++ (values ≫= fun orders => order_pair <$> split_on "," orders)).
Proof.
  induction values as [|orders rest IH]; intros g_order; simpl.
  - by rewrite app_nil_r.
  - rewrite append_orders_total. simpl. rewrite IH.
    by rewrite <- app_assoc.
Qed.

(** C9.  Every value of the repeatable [order] parameter is cut at its
    commas and every piece at its colon into a pair of field and
    direction, the direction absent when the piece has no colon; the
    pairs come in the order of the values and of the pieces; the
    arguments [order=a:desc,b&order=c] give
    [("a","desc"), ("b", absent), ("c", absent)]. *)
Theorem order_parameter_parsing :
  requires_browser_order [("order", "a:desc,b"); ("order", "c")]
    = Ok [("a", Some "desc"); ("b", None); ("c", None)]
  /\ (forall args,
        requires_browser_order args
        = Ok (getlist args "order"
                ≫= fun orders => order_pair <$> split_on "," orders))
  /\ (forall pieces,
        pieces <> [] ->
        Forall (fun piece => occurs "," piece = false) pieces ->
        split_on "," (join "," pieces) = pieces)
  /\ (forall segment,
        occurs ":" segment = false -> order_pair segment = (segment, None))
  /\ (forall field direction,
        occurs ":" field = false -> occurs ":" direction = false ->
        order_pair (field +:+ ":" +:+ direction) = (field, Some direction))
  /\ (forall args1 args2,
        getlist (args1 ++ args2) "order"
        = getlist args1 "order" ++ getlist args2 "order").
Proof.
  split; [vm_compute; reflexivity|].
  split; [|split; [|split; [|split]]].
  - intros args. unfold requires_browser_order.
    by rewrite collect_orders_total.
  - intros pieces. apply split_on_join.
  - intros segment Hocc. unfold order_pair.
    by rewrite split_on_absent.
  - intros field direction Hf Hd. unfold order_pair.
    change (field +:+ ":" +:+ direction)
      with (field +:+ String ":" direction).
    rewrite split_on_app by done. by rewrite split_on_absent.
  - intros args1 args2. unfold getlist.
    by rewrite filter_app, fmap_app.
Qed.

Lemma order_parameter_parsing_witness :
  split_on "," (join "," ["a:desc"; "b"]) = ["a:desc"; "b"]
  /\ order_pair "b" = ("b", None)
  /\ order_pair ("a" +:+ ":" +:+ "desc") = ("a", Some "desc").
Proof.
  destruct order_parameter_parsing as (_ & _ & Hjoin & Hplain & Hcolon & _).
  split; [|split].
  - apply Hjoin; [discriminate | repeat constructor].
  - apply Hplain. reflexivity.
  - apply Hcolon; reflexivity.
Defined.

End ServerClaims.

(** ** Claims on the SQL expression compiler *)

Section SqlFacts.
Import SqlExpressions.

Lemma expr_nested_ind (P : expr -> Prop) :
  (forall v, P (Literal v)) ->
  (forall name, P (Variable_ name)) ->
  (forall operator lhs rhs, P lhs -> P rhs -> P (Binary operator lhs rhs)) ->
  (forall operator operand, P operand -> P (Unary operator operand)) ->
  (forall name args, Forall P args -> P (Function_ name args)) ->
  forall e, P e.
Proof.
  intros Hlit Hvar Hbin Hun Hfun.
  fix IH 1. intros [v|name|operator lhs rhs|operator operand|name args].
  - apply Hlit.
  - apply Hvar.
  - apply Hbin; apply IH.
  - apply Hun; apply IH.
  - apply Hfun. induction args as [|a args IHargs]; constructor.
    + apply IH.
    + apply IHargs.
Qed.

Lemma compile_Function name args context :
  compile (Function_ name args) context
  = compile_list args context ≫= compile_function context name.
Proof.
  simpl. f_equal. induction args as [|a rest IH]; simpl; [done|].
  by rewrite IH.
Qed.

Lemma resolve_unresolvable context name :
  resolvable context name = false ->
  resolve context name
  = Err (ExpressionError ("Unknown attribute, variable or parameter '"
                          +:+ name +:+ "'" +:+ label_suffix (label context))).
Proof.
  unfold resolvable, resolve. intros Hres.
  apply orb_false_iff in Hres as [Hres Hvar].
  apply orb_false_iff in Hres as [Hcol Hpar].
  apply bool_decide_eq_false in Hcol, Hpar.
  destruct (columns context !! name); [by destruct Hcol|].
  destruct (parameters context !! name); [by destruct Hpar|].
  rewrite Hvar. do 3 f_equal.
  unfold label_suffix, truthy.
  destruct (label context) as [l|]; [|done].
  by destruct (bool_decide (l = "")).
Qed.






Lemma function_whitelisted context name :
  bool_decide (name ∈ SQL_ALL_FUNCTIONS) = true ->
  function context name = Ok name.
Proof. intros Hin. unfold function. by rewrite Hin. Qed.

Lemma function_unknown context name :
  name ∉ SQL_ALL_FUNCTIONS ->
  function context name
  = Err (ExpressionError ("Unknown function '" +:+ name +:+ "'")).
Proof.
  intros Hin. unfold function. by rewrite bool_decide_false.
Qed.





End SqlFacts.

Section SqlClaims.
Import SqlExpressions Samples.

(** C6.  A name resolves to its column when the context has one, else to
    the parameter of that name, else, for one of [current_date],
    [current_time], [local_date] and [local_time], to the call of that
    SQL variable without arguments; any other name fails with the
    expression error "Unknown attribute, variable or parameter '<name>'"
    followed by " in <label>" when the context has a label.  A function
    name outside the scalar and aggregate whitelists fails with an
    expression error, whatever the arguments. *)
Theorem resolve_order_and_whitelist context name :
  (forall c, columns context !! name = Some c -> resolve context name = Ok c)
  /\ (forall v,
        columns context !! name = None ->
        parameters context !! name = Some v ->
        resolve context name = Ok (Param v))
  /\ (columns context !! name = None ->
      parameters context !! name = None ->
      name ∈ SQL_VARIABLES ->
      resolve context name = Ok (FuncCall name []))
  /\ (columns context !! name = None ->
      parameters context !! name = None ->
      name ∉ SQL_VARIABLES ->
      resolve context name
      = Err (ExpressionError
               ("Unknown attribute, variable or parameter '" +:+ name
                +:+ "'" +:+ label_suffix (label context))))
  /\ (name ∈ SQL_VARIABLES <->
      name = "current_date" \/ name = "current_time"
      \/ name = "local_date" \/ name = "local_time")
  /\ compile (Variable_ name) context = resolve context name
  /\ (name ∉ SQL_FUNCTIONS ++ SQL_AGGREGATE_FUNCTIONS ->
      function context name
      = Err (ExpressionError ("Unknown function '" +:+ name +:+ "'"))
      /\ forall args xs,
           compile_list args context = Ok xs ->
           compile (Function_ name args) context
           = Err (ExpressionError ("Unknown function '" +:+ name +:+ "'")))
  /\ (name ∈ SQL_FUNCTIONS ++ SQL_AGGREGATE_FUNCTIONS ->
      function context name = Ok name).
Proof.
  split; [|split; [|split; [|split; [|split; [|split; [|split]]]]]].
  - intros c Hc. unfold resolve. by rewrite Hc.
  - intros v Hc Hp. unfold resolve. by rewrite Hc, Hp.
  - intros Hc Hp Hv. unfold resolve. rewrite Hc, Hp.
    by rewrite bool_decide_true.
  - intros Hc Hp Hv. apply resolve_unresolvable. unfold resolvable.
    rewrite Hc, Hp.
    rewrite !(bool_decide_false (is_Some None)) by apply is_Some_None.
    by rewrite bool_decide_false.
  - unfold SQL_VARIABLES. rewrite !elem_of_cons, elem_of_nil. tauto.
  - reflexivity.
  - intros Hname. split; [by apply function_unknown|].
    intros args xs Hxs. rewrite compile_Function, Hxs. simpl.
    unfold compile_function. by rewrite function_unknown.
  - intros Hname. apply function_whitelisted. by apply bool_decide_eq_true_2.
Qed.

Lemma resolve_order_and_whitelist_witness :
  resolve (SQLExpressionContext_init (Some sales_bases) None (Some "sales"))
          "amount" = Ok (Column "amount")
  /\ resolve (SQLExpressionContext_init (Some sales_bases) None
                                        (Some "sales")) "local_time"
     = Ok (FuncCall "local_time" [])
  /\ resolve (SQLExpressionContext_init (Some sales_bases) None
                                        (Some "sales")) "z"
     = Err (ExpressionError
              "Unknown attribute, variable or parameter 'z' in sales")
  /\ function (SQLExpressionContext_init None None None) "evil"
     = Err (ExpressionError "Unknown function 'evil'").
Proof.
  pose (context :=
          SQLExpressionContext_init (Some sales_bases) None (Some "sales")).
  destruct (resolve_order_and_whitelist context "amount") as (Hcol & _).
  destruct (resolve_order_and_whitelist context "local_time")
    as (_ & _ & Hvar & _).
  destruct (resolve_order_and_whitelist context "z")
    as (_ & _ & _ & Hunknown & _).
  destruct (resolve_order_and_whitelist
              (SQLExpressionContext_init None None None) "evil")
    as (_ & _ & _ & _ & _ & _ & Hfun & _).
  split; [|split; [|split]].
  - apply Hcol. vm_compute; reflexivity.
  - apply Hvar; [vm_compute; reflexivity | vm_compute; reflexivity |].
    by_computation.
  - apply Hunknown; [vm_compute; reflexivity | vm_compute; reflexivity |].
    by_computation.
  - apply Hfun. by_computation.
Defined.

End SqlClaims.

Section CompileAttributesFacts.
Import SqlExpressions.

Variable aggregate_function :
  string -> Dependant -> SQLExpressionContext -> option bool -> result sql.

Lemma compile_loop_app coalesce l1 :
  forall context l2,
    compile_loop aggregate_function coalesce context (l1 ++ l2)
    = compile_loop aggregate_function coalesce context l1
        ≫= fun context' =>
              compile_loop aggregate_function coalesce context' l2.
Proof.
  induction l1 as [|attr rest IH]; intros context l2; simpl; [done|].
  destruct (compile_attribute aggregate_function coalesce context attr);
    simpl; [apply IH | done].
Qed.

Lemma compile_attribute_Ok coalesce context attr context' :
  compile_attribute aggregate_function coalesce context attr = Ok context' ->
  exists column0,
    context' = add_column context (dep_ref attr) column0
    /\ resolve context' (dep_ref attr) = Ok column0
    /\ (truthy (dep_function attr) = false ->
        compile (dep_expression attr) context = Ok column0).
Proof.
  unfold compile_attribute. intros Hok.
  apply bind_Ok in Hok as (column0 & Hcol & Hok).
  injection Hok as <-. exists column0. split; [done|]. split.
  - unfold resolve, add_column. simpl. by rewrite lookup_insert_eq.
  - intros Hfun. by rewrite Hfun in Hcol.
Qed.

(** The loop only adds columns, under the references of the attributes
    it has compiled. *)
Lemma compile_loop_context coalesce dependants :
  forall context context',
    compile_loop aggregate_function coalesce context dependants
      = Ok context' ->
    parameters context' = parameters context
    /\ label context' = label context
    /\ forall v, v ∉ dep_ref <$> dependants ->
                 columns context' !! v = columns context !! v.
Proof.
  induction dependants as [|attr rest IH]; intros context context' Hok;
    simpl in Hok.
  - by injection Hok as <-.
  - apply bind_Ok in Hok as (context1 & H1 & Hrest).
    apply compile_attribute_Ok in H1 as (column0 & -> & _).
    apply IH in Hrest as (Hp & Hl & Hc). simpl in *.
    split; [done|]. split; [done|].
    intros v Hv. simpl in Hv. apply not_elem_of_cons in Hv as [Hne Hv].
    rewrite (Hc v Hv).
    by rewrite lookup_insert_ne.
Qed.



End CompileAttributesFacts.

Section CompileAttributesClaims.
Import SqlExpressions Samples.




End CompileAttributesClaims.


(** ** Claim on the drilldown string *)

Section DrilldownClaims.
Import Metadata Samples.

Lemma append_cons c (s t : string) : String c s +:+ t = String c (s +:+ t).
Proof. reflexivity. Qed.

Lemma append_empty_l (t : string) : "" +:+ t = t.
Proof. reflexivity. Qed.

Lemma append_empty_r (s : string) : s +:+ "" = s.
Proof.
  induction s as [|c s IH]; [done|]. by rewrite append_cons, IH.
Qed.

Lemma span_run d rest :
  all_ident d = true -> stops rest = true ->
  span ident (d +:+ rest) = (d, rest).
Proof.
  intros Hd Hrest. induction d as [|c d IH].
  - rewrite append_empty_l.
    destruct rest as [|c rest]; simpl in *; [done|].
    by apply negb_true_iff in Hrest as ->.
  - rewrite append_cons. simpl in *.
    apply andb_true_iff in Hd as [-> Hd]. by rewrite IH.
Qed.

Lemma ident_plus_word d rest :
  is_word d = true -> stops rest = true ->
  ident_plus (d +:+ rest) = Some (d, rest).
Proof.
  intros Hd Hrest. apply andb_true_iff in Hd as [Hne Hd].
  unfold ident_plus. rewrite span_run by done.
  by apply negb_true_iff in Hne as ->.
Qed.

Lemma opt_group_present sep g rest :
  is_word g = true -> stops rest = true ->
  opt_group sep (String sep (g +:+ rest)) = (Some g, rest).
Proof.
  intros Hg Hrest. unfold opt_group.
  rewrite bool_decide_true by done. by rewrite ident_plus_word.
Qed.

(** A text that starts with a run and stops: the run is the dimension,
    the two optional groups are looked for after it. *)
Lemma string_to_dimension_level_word d rest :
  is_word d = true -> stops rest = true ->
  string_to_dimension_level (d +:+ rest)
  = let '(hier, r2) := opt_group "@" rest in
    let '(level, _) := opt_group ":" r2 in
    Ok (d, hier, level).
Proof.
  intros Hd Hrest. unfold string_to_dimension_level.
  rewrite ident_plus_word by done.
  rewrite bool_decide_false; [done|].
  apply andb_true_iff in Hd as [Hd _]. apply negb_true_iff in Hd.
  apply bool_decide_eq_false_1 in Hd. destruct d; [done | discriminate].
Qed.

Lemma opt_group_other sep c s :
  c <> sep -> opt_group sep (String c s) = (None, String c s).
Proof. intros Hc. unfold opt_group. by rewrite bool_decide_false. Qed.

Lemma ident_plus_not_ident c s :
  ident c = false -> ident_plus (String c s) = None.
Proof. intros Hc. unfold ident_plus. simpl. by rewrite Hc. Qed.

Lemma spec_ident_ident c : spec_ident c = true -> ident c = true.
Proof.
  destruct c as [[] [] [] [] [] [] [] []]; vm_compute; intros H;
    first [reflexivity | discriminate H].
Qed.

(** C4, as the claim has it, fails: the one-character text of code point
    233, a letter outside [[A-Za-z0-9_]], is not of the form of the spec,
    and is parsed as a dimension name instead of being refused. *)
Lemma non_ascii_letter_is_accepted :
  spec_form e_acute = false
  /\ string_to_dimension_level e_acute = Ok (e_acute, None, None).
Proof. split; vm_compute; reflexivity. Qed.

(** Text after a well-formed prefix is not refused either: the pattern is
    matched at the start of the string only. *)
Lemma text_after_the_match_is_ignored :
  spec_form "sales!" = false
  /\ string_to_dimension_level "sales!" = Ok ("sales", None, None)
  /\ string_to_dimension_level "sales@" = Ok ("sales", None, None)
  /\ string_to_dimension_level "a@b@c:d" = Ok ("a", Some "b", None).
Proof. repeat split; vm_compute; reflexivity. Qed.

(** C4, amended.  [string_to_dimension_level] parses the texts of the form
    [dimension[@hierarchy][:level]], each component a non-empty run of
    characters of the class [[\w\d_]] (which holds [[A-Za-z0-9_]] and the
    other letters and numerics), into a triple whose hierarchy and level
    are absent when the text has none; it fails with an argument error for
    the empty string and for every text that does not start with a
    character of the class. *)
Theorem string_to_dimension_level_parses :
  string_to_dimension_level ""
    = Err (ArgumentError "Drilldown string should not be empty")
  /\ (forall c s,
        ident c = false ->
        string_to_dimension_level (String c s)
        = Err (ArgumentError
                 ("String '" +:+ String c s
                  +:+ "' does not match drilldown level "
                  +:+ "pattern 'dimension@hierarchy:level'")))
  /\ (forall d h l,
        is_word d = true -> is_word h = true -> is_word l = true ->
        string_to_dimension_level d = Ok (d, None, None)
        /\ string_to_dimension_level (d +:+ "@" +:+ h) = Ok (d, Some h, None)
        /\ string_to_dimension_level (d +:+ ":" +:+ l) = Ok (d, None, Some l)
        /\ string_to_dimension_level (d +:+ "@" +:+ h +:+ ":" +:+ l)
           = Ok (d, Some h, Some l))
  /\ (forall c, spec_ident c = true -> ident c = true)
  /\ string_to_dimension_level "sales@fiscal:month"
     = Ok ("sales", Some "fiscal", Some "month")
  /\ string_to_dimension_level "sales" = Ok ("sales", None, None).
Proof.
  split; [reflexivity|].
  split; [|split; [|split; [apply spec_ident_ident|]]].
  - intros c s Hc. unfold string_to_dimension_level.
    rewrite bool_decide_false by discriminate.
    by rewrite ident_plus_not_ident.
  - intros d h l Hd Hh Hl. repeat split.
    + rewrite <- (append_empty_r d) at 1.
      by rewrite string_to_dimension_level_word.
    + replace (d +:+ "@" +:+ h) with (d +:+ String "@" (h +:+ ""))
        by (by rewrite append_empty_r).
      rewrite string_to_dimension_level_word by done.
      by rewrite opt_group_present.
    + replace (d +:+ ":" +:+ l) with (d +:+ String ":" (l +:+ ""))
        by (by rewrite append_empty_r).
      rewrite string_to_dimension_level_word by done.
      rewrite opt_group_other by discriminate.
      by rewrite opt_group_present.
    + replace (d +:+ "@" +:+ h +:+ ":" +:+ l)
        with (d +:+ String "@" (h +:+ String ":" (l +:+ "")))
        by (by rewrite append_empty_r).
      rewrite string_to_dimension_level_word by done.
      rewrite opt_group_present by done.
      by rewrite opt_group_present.
  - split; vm_compute; reflexivity.
Qed.

Lemma string_to_dimension_level_parses_witness :
  string_to_dimension_level ("date" +:+ "@" +:+ "ymd" +:+ ":" +:+ "month")
    = Ok ("date", Some "ymd", Some "month")
  /\ string_to_dimension_level ("date" +:+ ":" +:+ "month")
     = Ok ("date", None, Some "month")
  /\ exists msg, string_to_dimension_level "@ymd" = Err (ArgumentError msg).
Proof.
  destruct string_to_dimension_level_parses as (_ & Hfail & Hforms & _).
  destruct (Hforms "date" "ymd" "month" eq_refl eq_refl eq_refl)
    as (_ & _ & Hlevel & Hboth).
  split; [exact Hboth|]. split; [exact Hlevel|].
  eexists. exact (Hfail "@"%char "ymd" eq_refl).
Defined.

End DrilldownClaims.


(** ** Claim on the star schema mapper *)

Section MapperClaims.
Import Metadata SqlMapper Samples.

(** C7, as the claim has it, fails: an attribute of a flat dimension
    without details that has no explicit mapping is looked for in the fact
    table, not in the table of its dimension. *)
Lemma flat_dimension_maps_to_fact_table :
  mappings sales_mapper !! "flag" = None
  /\ StarSchemaMapper_getitem Ok sample_is_localizable sample_localized_ref
       sales_mapper flag_attribute
     = Ok {| column := "flag"; table := "ft_sales"; schema := None |}
  /\ claimed_implicit_reference sales_mapper flag_attribute
     = {| column := "flag"; table := "dm_flag"; schema := None |}.
Proof. repeat split; vm_compute; reflexivity. Qed.

Context {Physical : Type}.
Variable from_dict : Physical -> result ColumnReference.
Variable is_localizable : AttributeBase -> bool.
Variable localized_ref : AttributeBase -> option string -> result string.

(** C7, amended.  The lookup of [StarSchemaMapper] first fails with a model
    error when the attribute has an expression; otherwise, when the
    locale-qualified logical reference of the attribute is a key of the
    explicit mappings, it returns the reference read from that mapping, and
    else the implicit reference of the base mapper: the column named after
    the attribute, with the locale after an underscore when the attribute is
    localizable, in the fact table when the attribute has no owning
    dimension or its dimension is flat and without details, and in the
    table named after the owning dimension otherwise. *)
Theorem star_schema_lookup (self : Mapper Physical)
    (attribute : AttributeBase) :
  (forall e,
      expression attribute = Some e ->
      StarSchemaMapper_getitem from_dict is_localizable localized_ref self
        attribute
      = Err (ModelError ("Attribute '" +:+ name attribute
                         +:+ "' has an expression, it can not "
                         +:+ "have a direct physical representation")))
  /\ (forall locale0 logical,
        expression attribute = None ->
        (if is_localizable attribute
         then Some <$> attribute_locale self attribute
         else Ok None) = Ok locale0 ->
        localized_ref attribute locale0 = Ok logical ->
        (forall physical,
            mappings self !! logical = Some physical ->
            StarSchemaMapper_getitem from_dict is_localizable localized_ref
              self attribute = from_dict physical)
        /\ (mappings self !! logical = None ->
            StarSchemaMapper_getitem from_dict is_localizable localized_ref
              self attribute
            = Ok {| column :=
                      match locale0 with
                      | Some l => name attribute +:+ "_" +:+ l
                      | None => name attribute
                      end;
                    table :=
                      match dimension attribute with
                      | None => fact_name self
                      | Some d =>
                          if is_flat d && negb (has_details d)
                          then fact_name self
                          else py_or (dimension_prefix self) ""
                               +:+ dim_name d
                               +:+ py_or (dimension_suffix self) ""
                      end;
                    schema :=
                      match dimension attribute with
                      | None => self_schema self
                      | Some _ =>
                          py_or_opt (dimension_schema self) (self_schema self)
                      end |}
            /\ StarSchemaMapper_getitem from_dict is_localizable
                 localized_ref self attribute
               = Mapper_getitem is_localizable self attribute))
  /\ (forall l,
        locale self = Some l -> l ∈ locales attribute ->
        attribute_locale self attribute = Ok l)
  /\ (forall first rest,
        locales attribute = first :: rest ->
        (forall l, locale self = Some l -> l ∉ locales attribute) ->
        attribute_locale self attribute = Ok first).
Proof.
  split; [|split; [|split]].
  - intros e He. unfold StarSchemaMapper_getitem. by rewrite He.
  - intros locale0 logical He Hlocale Hlogical.
    unfold StarSchemaMapper_getitem. rewrite He, Hlocale.
    rewrite Ok_bind, Hlogical, Ok_bind. split.
    + intros physical Hm. by rewrite Hm.
    + intros Hm. rewrite Hm. split; [|done].
      unfold Mapper_getitem, attribute_table, dimension_table_name.
      destruct (is_localizable attribute).
      * destruct (attribute_locale self attribute) as [l|err];
          [|discriminate].
        injection Hlocale as <-. simpl.
        by destruct (dimension attribute).
      * injection Hlocale as <-. simpl.
        by destruct (dimension attribute).
  - intros l Hl Hin. unfold attribute_locale. rewrite Hl.
    by rewrite bool_decide_true.
  - intros first rest Hlocales Hnot. unfold attribute_locale.
    destruct (locale self) as [l|].
    + rewrite bool_decide_false by (by apply Hnot).
      by rewrite Hlocales.
    + by rewrite Hlocales.
Qed.

End MapperClaims.

Section MapperWitness.
Import Metadata SqlMapper Samples.

Lemma star_schema_lookup_witness :
  StarSchemaMapper_getitem Ok sample_is_localizable sample_localized_ref
    sales_mapper year_attribute
  = Ok {| column := "yr"; table := "calendar"; schema := None |}
  /\ StarSchemaMapper_getitem Ok sample_is_localizable sample_localized_ref
       sales_mapper month_attribute
     = Ok {| column := "month"; table := "dm_date"; schema := None |}
  /\ exists msg,
       StarSchemaMapper_getitem Ok sample_is_localizable
         sample_localized_ref sales_mapper margin_attribute
       = Err (ModelError msg).
Proof.
  split; [|split].
  - destruct (star_schema_lookup Ok sample_is_localizable
                sample_localized_ref sales_mapper year_attribute)
      as (_ & Hlookup & _).
    destruct (Hlookup None "date.year" eq_refl eq_refl eq_refl)
      as (Hexplicit & _).
    apply Hexplicit. vm_compute; reflexivity.
  - destruct (star_schema_lookup Ok sample_is_localizable
                sample_localized_ref sales_mapper month_attribute)
      as (_ & Hlookup & _).
    destruct (Hlookup None "date.month" eq_refl eq_refl eq_refl)
      as (_ & Himplicit).
    destruct Himplicit as (Href & _); [vm_compute; reflexivity|].
    exact Href.
  - destruct (star_schema_lookup Ok sample_is_localizable
                sample_localized_ref sales_mapper margin_attribute)
      as (Hexpr & _).
    eexists. exact (Hexpr "amount - cost" eq_refl).
Defined.

End MapperWitness.


(** * Further properties *)

(** ** Ordered dictionaries *)

Section OdictFacts.
Context {V : Type}.
Implicit Types (d : list (string * V)) (k : string) (v : V).

Lemma odict_get_set_eq d k v : odict_get k (odict_set k v d) = Some v.
Proof.
  induction d as [|[k' v'] d IH]; simpl.
  - by rewrite decide_True.
  - case_decide as Hk; simpl.
    + by rewrite decide_True.
    + by rewrite decide_False.
Qed.

Lemma odict_get_set_ne d k k' v :
  k <> k' -> odict_get k' (odict_set k v d) = odict_get k' d.
Proof.
  intros Hne. induction d as [|[k0 v0] d IH]; simpl.
  - by rewrite decide_False.
  - case_decide as Hk; simpl.
    + subst k0. by rewrite !decide_False.
    + case_decide; [done | apply IH].
Qed.

Lemma odict_get_None d k : odict_get k d = None <-> k ∉ odict_keys d.
Proof.
  unfold odict_keys. induction d as [|[k' v'] d IH]; simpl.
  - split; [intros _; apply not_elem_of_nil | done].
  - rewrite not_elem_of_cons. case_decide as Hk.
    + split; [discriminate | intros [? _]; done].
    + rewrite IH. split; [by intros ? | by intros [_ ?]].
Qed.

Lemma odict_get_is_Some d k : is_Some (odict_get k d) <-> k ∈ odict_keys d.
Proof.
  destruct (odict_get k d) eqn:Hg.
  - split; [intros _ | by eauto]. by eapply odict_get_keys.
  - apply odict_get_None in Hg. split; [by intros [? ?] | done].
Qed.

Lemma odict_keys_set_in d k v :
  k ∈ odict_keys d -> odict_keys (odict_set k v d) = odict_keys d.
Proof.
  unfold odict_keys. induction d as [|[k' v'] d IH]; simpl.
  - intros Hin. by apply elem_of_nil in Hin.
  - intros Hin. case_decide as Hk; simpl; [by subst|].
    apply elem_of_cons in Hin as [?|Hin]; [done|]. f_equal. by apply IH.
Qed.

Lemma odict_keys_set_new d k v :
  k ∉ odict_keys d -> odict_keys (odict_set k v d) = odict_keys d ++ [k].
Proof.
  unfold odict_keys. induction d as [|[k' v'] d IH]; simpl; [done|].
  intros Hin. apply not_elem_of_cons in Hin as [Hne Hin].
  rewrite decide_False by done. simpl. f_equal. by apply IH.
Qed.

Lemma odict_keys_set_NoDup d k v :
  NoDup (odict_keys d) -> NoDup (odict_keys (odict_set k v d)).
Proof.
  intros Hd. destruct (decide (k ∈ odict_keys d)) as [Hin|Hin].
  - by rewrite odict_keys_set_in.
  - rewrite odict_keys_set_new by done.
    apply NoDup_app. split; [done|]. split; [|apply NoDup_singleton].
    intros x Hx Hk. apply list_elem_of_singleton in Hk as ->. done.
Qed.

Lemma odict_keys_set_length d k v :
  length (odict_set k v d) <= S (length d).
Proof.
  induction d as [|[k' v'] d IH]; simpl; [lia|].
  case_decide; simpl; lia.
Qed.

(** A dictionary filled item by item: the last item with a key is the one
    found under it. *)
Lemma foldl_odict_set_get {W} (key_of : W -> string) (val_of : W -> V)
    (items : list W) :
  forall d k,
    odict_get k (foldl (fun d w => odict_set (key_of w) (val_of w) d) d items)
    = match last_with key_of k items with
      | Some w => Some (val_of w)
      | None => odict_get k d
      end.
Proof.
  unfold last_with.
  induction items as [|w items IH] using rev_ind; intros d k; [done|].
  rewrite foldl_app, filter_app. simpl.
  rewrite filter_cons, filter_nil. case_decide as Hk.
  - rewrite last_snoc. subst k. apply odict_get_set_eq.
  - rewrite app_nil_r, odict_get_set_ne by done. apply IH.
Qed.

Lemma foldl_odict_set_NoDup {W} (key_of : W -> string) (val_of : W -> V)
    (items : list W) d :
  NoDup (odict_keys d) ->
  NoDup (odict_keys
           (foldl (fun d w => odict_set (key_of w) (val_of w) d) d items)).
Proof.
  revert d. induction items as [|w items IH]; intros d Hd; simpl; [done|].
  apply IH. by apply odict_keys_set_NoDup.
Qed.

Lemma foldl_odict_set_keys {W} (key_of : W -> string) (val_of : W -> V)
    (items : list W) d k :
  k ∈ odict_keys
        (foldl (fun d w => odict_set (key_of w) (val_of w) d) d items)
  <-> k ∈ odict_keys d \/ k ∈ key_of <$> items.
Proof.
  revert d. induction items as [|w items IH]; intros d; simpl.
  - rewrite elem_of_nil. tauto.
  - rewrite IH, elem_of_cons.
    destruct (decide (key_of w ∈ odict_keys d)) as [Hin|Hin].
    + rewrite odict_keys_set_in by done.
      split; [tauto|]. intros [?|[->|?]]; auto.
    + rewrite odict_keys_set_new, elem_of_app, list_elem_of_singleton by done.
      tauto.
Qed.

Lemma foldl_odict_set_length {W} (key_of : W -> string) (val_of : W -> V)
    (items : list W) d :
  length (foldl (fun d w => odict_set (key_of w) (val_of w) d) d items)
  <= length d + length items.
Proof.
  revert d. induction items as [|w items IH]; intros d; simpl; [lia|].
  etrans; [apply IH|]. pose proof (odict_keys_set_length d (key_of w)
                                     (val_of w)). lia.
Qed.

End OdictFacts.

(** ** Hierarchies *)

Section HierarchyFacts.
Import Metadata MetadataOps.

Lemma odict_set_new {V} (d : list (string * V)) k v :
  k ∉ odict_keys d -> odict_set k v d = d ++ [(k, v)].
Proof.
  unfold odict_keys. induction d as [|[k' v'] d IH]; simpl; [done|].
  intros Hin. apply not_elem_of_cons in Hin as [Hne Hin].
  rewrite decide_False by done. f_equal. by apply IH.
Qed.

Lemma NoDup_keys_get {V} (d : list (string * V)) k v :
  NoDup (odict_keys d) -> (k, v) ∈ d -> odict_get k d = Some v.
Proof.
  unfold odict_keys. induction d as [|[k' v'] d IH]; simpl; intros Hd Hin.
  - by apply elem_of_nil in Hin.
  - apply NoDup_cons in Hd as [Hk' Hd].
    apply elem_of_cons in Hin as [[= -> ->]|Hin].
    + by rewrite decide_True.
    + rewrite decide_False; [by apply IH|].
      intros ->. apply Hk'. apply list_elem_of_fmap. by exists (k', v).
Qed.

Lemma last_with_Some {V} (key_of : V -> string) k (l : list V) v :
  last_with key_of k l = Some v -> key_of v = k /\ v ∈ l.
Proof.
  unfold last_with. intros Hlast.
  assert (Hin : v ∈ filter (fun v => key_of v = k) l).
  { apply last_Some in Hlast as [l' ->]. apply elem_of_app. right. left. }
  by apply list_elem_of_filter in Hin.
Qed.

Lemma keyed_by_names (d : list (string * Level)) :
  keyed_by level_name d -> level_name <$> odict_values d = odict_keys d.
Proof.
  unfold odict_values, odict_keys.
  induction d as [|[k v] d IH]; intros Hd; simpl; [done|]. f_equal.
  - apply Hd. left.
  - apply IH. intros k' v' Hin. apply Hd. by right.
Qed.

(** X1.  Assigning [levels] to a hierarchy leaves a dictionary with
    distinct keys in which every level is stored under its name; the names
    are those of the levels assigned, a later level replaces an earlier
    one of the same name, and levels with distinct names are kept as they
    are, in their order. *)
Theorem set_levels_dictionary self levels :
  hier_wf (set_levels self levels)
  /\ (forall n, n ∈ hier_level_names (set_levels self levels)
                <-> n ∈ level_name <$> levels)
  /\ (forall n, odict_get n (hier_levels_dict (set_levels self levels))
                = last_with level_name n levels)
  /\ hier_len (set_levels self levels) <= length levels
  /\ (NoDup (level_name <$> levels) ->
      hier_levels (set_levels self levels) = levels).
Proof.
  unfold set_levels, hier_wf, hier_level_names, hier_len, hier_levels,
    store_level. simpl.
  assert (Hget : forall n,
             odict_get n (foldl (fun d l => odict_set (level_name l) l d)
                                [] levels)
             = last_with level_name n levels).
  { intros n.
    pose proof (foldl_odict_set_get level_name id levels [] n) as Hn.
    unfold id in Hn. rewrite Hn.
    by destruct (last_with level_name n levels). }
  assert (Hnodup : NoDup (odict_keys
                            (foldl (fun d l => odict_set (level_name l) l d)
                                   [] levels))).
  { pose proof (foldl_odict_set_NoDup level_name id levels []) as Hn.
    unfold id in Hn. apply Hn. constructor. }
  split; [split; [done|]|split; [|split; [done|split]]].
  - intros k v Hin. apply (NoDup_keys_get _ _ _ Hnodup) in Hin.
    rewrite Hget in Hin. by apply last_with_Some in Hin as [? _].
  - intros n.
    pose proof (foldl_odict_set_keys level_name id levels [] n) as Hn.
    unfold id in Hn. rewrite Hn.
    unfold odict_keys at 1. simpl. rewrite elem_of_nil. tauto.
  - unfold odict_values. rewrite length_fmap.
    pose proof (foldl_odict_set_length level_name id levels []) as Hlen.
    unfold id in Hlen. simpl in Hlen. exact Hlen.
  - intros Hnames.
    assert (Hdict : foldl (fun d l => odict_set (level_name l) l d) [] levels
                    = (fun l => (level_name l, l)) <$> levels).
    { clear Hget Hnodup.
      induction levels as [|l levels IH] using rev_ind; [done|].
      rewrite fmap_app in Hnames. apply NoDup_app in Hnames as (Hn & Hl & _).
      rewrite foldl_app, fmap_app, IH by done. simpl.
      apply odict_set_new. unfold odict_keys.
      rewrite <- list_fmap_compose. intros Hin.
      apply (Hl _ Hin). left. }
    rewrite Hdict. unfold odict_values. rewrite <- list_fmap_compose.
    apply list_fmap_id.
Qed.

Lemma list_index_lookup name l i :
  list_index name l = Some i -> l !! i = Some name.
Proof.
  revert i. induction l as [|x l IH]; intros i; simpl; [discriminate|].
  case_decide as Hx.
  - intros [= <-]. by subst.
  - destruct (list_index name l) as [j|]; [|discriminate].
    intros [= <-]. simpl. by apply IH.
Qed.

Lemma list_index_None name l : list_index name l = None <-> name ∉ l.
Proof.
  induction l as [|x l IH]; simpl.
  - split; [intros _; apply not_elem_of_nil | done].
  - rewrite not_elem_of_cons. case_decide as Hx.
    + split; [discriminate | intros [? _]; by subst].
    + destruct (list_index name l); simpl.
      * split; [discriminate|]. intros [_ Hin]. by apply IH in Hin.
      * split; [|done]. intros _. split; [done | by apply IH].
Qed.

Lemma list_index_NoDup name l i :
  NoDup l -> l !! i = Some name -> list_index name l = Some i.
Proof.
  revert i. induction l as [|x l IH]; intros i Hl Hi; [done|].
  apply NoDup_cons in Hl as [Hx Hl]. simpl. destruct i as [|i]; simpl in Hi.
  - injection Hi as ->. by rewrite decide_True.
  - rewrite decide_False.
    + by rewrite (IH i Hl Hi).
    + intros ->. apply Hx. by eapply list_elem_of_lookup_2.
Qed.

Lemma hier_levels_lookup_name h i lv :
  keyed_by level_name (hier_levels_dict h) ->
  hier_levels h !! i = Some lv ->
  hier_level_names h !! i = Some (level_name lv).
Proof.
  intros Hk Hi. unfold hier_level_names.
  rewrite <- (keyed_by_names _ Hk). fold (hier_levels h).
  by rewrite list_lookup_fmap, Hi.
Qed.

Lemma hier_names_lookup_level h i n :
  keyed_by level_name (hier_levels_dict h) ->
  hier_level_names h !! i = Some n ->
  exists lv, hier_levels h !! i = Some lv /\ level_name lv = n.
Proof.
  intros Hk Hi. unfold hier_level_names in Hi.
  rewrite <- (keyed_by_names _ Hk) in Hi. fold (hier_levels h) in Hi.
  rewrite list_lookup_fmap in Hi.
  destruct (hier_levels h !! i) as [lv|]; [|discriminate].
  injection Hi as <-. eauto.
Qed.

Lemma hier_names_length h :
  length (hier_level_names h) = length (hier_levels h).
Proof.
  unfold hier_level_names, hier_levels, odict_keys, odict_values.
  by rewrite !length_fmap.
Qed.

Lemma index_of_level_Ok h lv i :
  index_of_level h lv = Ok i <->
  list_index (level_name lv) (hier_level_names h) = Some i.
Proof.
  unfold index_of_level. destruct (list_index _ _); split; congruence.
Qed.

Lemma py_index_lookup {A} (l : list A) i x :
  l !! i = Some x -> py_index l i = Ok x.
Proof. unfold py_index. by intros ->. Qed.

Lemma next_level_at h lv i :
  index_of_level h lv = Ok i ->
  next_level h (Some lv) = Ok (hier_levels h !! (i + 1)).
Proof.
  intros Hi. unfold next_level. rewrite Hi, Ok_bind. case_bool_decide as Hlen.
  - by rewrite lookup_ge_None_2 by lia.
  - destruct (lookup_lt_is_Some_2 (hier_levels h) (i + 1)) as [x Hx]; [lia|].
    by rewrite Hx, (py_index_lookup _ _ _ Hx).
Qed.

Lemma previous_level_at h lv i :
  index_of_level h lv = Ok i ->
  previous_level h (Some lv)
  = Ok (if bool_decide (i = 0) then None else hier_levels h !! (i - 1)).
Proof.
  intros Hi. unfold previous_level. rewrite Hi, Ok_bind.
  case_bool_decide as Hz; [done|].
  apply index_of_level_Ok, list_index_lookup, lookup_lt_Some in Hi.
  rewrite hier_names_length in Hi.
  destruct (lookup_lt_is_Some_2 (hier_levels h) (i - 1)) as [x Hx]; [lia|].
  by rewrite Hx, (py_index_lookup _ _ _ Hx).
Qed.

(** X2.  In a hierarchy whose dictionary is as Python keeps it,
    [next_level] and [previous_level] undo each other up to the name of
    the level: the level before the next one, and the level after the
    previous one, is the level of the hierarchy that has the name of the
    one asked for.  A level whose name is not in the hierarchy makes both
    raise a [ValueError], never a hierarchy error. *)
Theorem next_previous_level h :
  hier_wf h ->
  (forall lv lv',
      next_level h (Some lv) = Ok (Some lv') ->
      exists l0,
        previous_level h (Some lv') = Ok (Some l0)
        /\ level_name l0 = level_name lv
        /\ Hierarchy_getitem h (level_name lv) = Returns l0)
  /\ (forall lv lv',
        previous_level h (Some lv) = Ok (Some lv') ->
        exists l0,
          next_level h (Some lv') = Ok (Some l0)
          /\ level_name l0 = level_name lv
          /\ Hierarchy_getitem h (level_name lv) = Returns l0)
  /\ (forall lv,
        level_name lv ∉ hier_level_names h ->
        exists msg,
          next_level h (Some lv) = Err (ValueError msg)
          /\ previous_level h (Some lv) = Err (ValueError msg)).
Proof.
  intros [Hnodup Hkeyed].
  assert (Hstored : forall lv i,
             index_of_level h lv = Ok i ->
             exists l0, hier_levels h !! i = Some l0
                        /\ level_name l0 = level_name lv
                        /\ Hierarchy_getitem h (level_name lv) = Returns l0).
  { intros lv i Hi. apply index_of_level_Ok, list_index_lookup in Hi.
    destruct (hier_names_lookup_level _ _ _ Hkeyed Hi) as (l0 & Hl0 & Hn).
    exists l0. split; [done|]. split; [done|].
    unfold Hierarchy_getitem. rewrite (NoDup_keys_get _ _ l0 Hnodup); [done|].
    unfold hier_levels, odict_values in Hl0.
    rewrite list_lookup_fmap in Hl0.
    destruct (hier_levels_dict h !! i) as [[k v]|] eqn:Hkv; [|discriminate].
    injection Hl0 as ->.
    pose proof (list_elem_of_lookup_2 _ _ _ Hkv) as Hin.
    rewrite <- Hn. by rewrite (Hkeyed _ _ Hin) at 1. }
  assert (Hindex : forall lv i,
             hier_levels h !! i = Some lv -> index_of_level h lv = Ok i).
  { intros lv i Hi. apply index_of_level_Ok, list_index_NoDup; [done|].
    by apply hier_levels_lookup_name. }
  split; [|split].
  - intros lv lv' Hnext.
    destruct (index_of_level h lv) as [i|e] eqn:Hi;
      [|by unfold next_level in Hnext; rewrite Hi in Hnext].
    rewrite (next_level_at _ _ _ Hi) in Hnext. injection Hnext as Hnext.
    rewrite (previous_level_at _ _ _ (Hindex _ _ Hnext)).
    rewrite bool_decide_false by lia.
    replace (i + 1 - 1) with i by lia.
    destruct (Hstored _ _ Hi) as (l0 & Hl0 & Hn & Hg).
    exists l0. by rewrite Hl0.
  - intros lv lv' Hprev.
    destruct (index_of_level h lv) as [i|e] eqn:Hi;
      [|by unfold previous_level in Hprev; rewrite Hi in Hprev].
    rewrite (previous_level_at _ _ _ Hi) in Hprev.
    case_bool_decide as Hz; [discriminate|]. injection Hprev as Hprev.
    rewrite (next_level_at _ _ _ (Hindex _ _ Hprev)).
    replace (i - 1 + 1) with i by lia.
    destruct (Hstored _ _ Hi) as (l0 & Hl0 & Hn & Hg).
    exists l0. by rewrite Hl0.
  - intros lv Hin. apply list_index_None in Hin.
    unfold next_level, previous_level, index_of_level. rewrite Hin.
    eexists. split; reflexivity.
Qed.

(** X3.  In a hierarchy whose levels are stored under their names the
    three ways of asking for a level by name agree: the name is [in] the
    hierarchy exactly when subscription returns a level, which then has
    that name, and exactly when [level_index] returns a position, at which
    the name stands; for any other name subscription raises [KeyError]
    (the handler for [IndexError] never applies) and [level_index] a
    hierarchy error. *)
Theorem level_lookups_agree h name :
  keyed_by level_name (hier_levels_dict h) ->
  (Hierarchy_contains h name = true <->
   exists lv, Hierarchy_getitem h name = Returns lv)
  /\ (Hierarchy_contains h name = true <->
      exists i, level_index h name = Ok i)
  /\ (forall lv, Hierarchy_getitem h name = Returns lv -> level_name lv = name)
  /\ (forall i, level_index h name = Ok i ->
                hier_level_names h !! i = Some name
                /\ i < length (hier_levels h))
  /\ (Hierarchy_contains h name = false ->
      Hierarchy_getitem h name = Raises (KeyError name)
      /\ exists msg, level_index h name = Err (HierarchyError msg)).
Proof.
  intros Hkeyed.
  assert (Hin : Hierarchy_contains h name = true
                <-> name ∈ hier_level_names h).
  { unfold Hierarchy_contains, hier_levels, hier_level_names.
    rewrite (keyed_by_names _ Hkeyed). apply bool_decide_eq_true. }
  assert (Hget : name ∈ hier_level_names h
                 <-> exists lv, Hierarchy_getitem h name = Returns lv).
  { unfold hier_level_names. rewrite <- odict_get_is_Some.
    unfold Hierarchy_getitem.
    destruct (odict_get name (hier_levels_dict h)) as [lv|].
    - split; [eauto | intros _; by eexists].
    - split; [by intros [? ?] | by intros [? ?]]. }
  assert (Hidx : name ∈ hier_level_names h
                 <-> exists i, level_index h name = Ok i).
  { unfold level_index.
    destruct (list_index name (hier_level_names h)) as [i|] eqn:Hi.
    - split; [eauto|]. intros _. apply list_index_lookup in Hi.
      by eapply list_elem_of_lookup_2.
    - apply list_index_None in Hi. split; [done | by intros [? ?]]. }
  split; [by rewrite Hin|]. split; [by rewrite Hin|].
  split; [|split].
  - unfold Hierarchy_getitem. intros lv Hlv.
    destruct (odict_get name (hier_levels_dict h)) as [l0|] eqn:Hl0;
      [|discriminate].
    injection Hlv as ->. by eapply keyed_by_get.
  - intros i Hi. apply level_index_Ok, list_index_lookup in Hi.
    split; [done|]. rewrite <- hier_names_length. by eapply lookup_lt_Some.
  - intros Hnot.
    assert (Hout : name ∉ hier_level_names h).
    { intros Hyes. apply Hin in Hyes. congruence. }
    split.
    + unfold Hierarchy_getitem.
      by rewrite (proj2 (odict_get_None _ _) Hout).
    + unfold level_index. rewrite (proj2 (list_index_None _ _) Hout). eauto.
Qed.

Lemma take_prefix_of {A} n (l : list A) : take n l `prefix_of` l.
Proof. exists (drop n l). by rewrite take_drop. Qed.

Lemma py_slice_stop_prefix {A} stop (l : list A) :
  py_slice_stop stop l `prefix_of` l.
Proof. unfold py_slice_stop. destruct (stop <? 0)%Z; apply take_prefix_of. Qed.

Lemma py_slice_stop_nat {A} (n : nat) (l : list A) :
  py_slice_stop (Z.of_nat n) l = take n l.
Proof.
  unfold py_slice_stop.
  destruct (Z.ltb_spec (Z.of_nat n) 0) as [Hneg|_]; [lia|].
  by rewrite Nat2Z.id.
Qed.

Section DepthFacts.
Variable repr_levels : list (string * Level) -> string.

(** X4.  [levels_for_depth] fails with a hierarchy error exactly when the
    depth, one more for a drilldown, exceeds the number of levels;
    otherwise it returns a prefix of the levels, of exactly that many
    levels when the number is not negative, and for a negative number the
    levels without that many of the last ones. *)
Theorem levels_for_depth_prefix (h : Hierarchy) (depth : Z)
    (drilldown : bool) :
  ((Z.of_nat (length (hier_levels h))
    < depth + (if drilldown then 1 else 0))%Z ->
   exists msg,
     levels_for_depth repr_levels h depth drilldown
     = Err (HierarchyError msg))
  /\ ((depth + (if drilldown then 1 else 0)
       <= Z.of_nat (length (hier_levels h)))%Z ->
      exists levels,
        levels_for_depth repr_levels h depth drilldown = Ok levels
        /\ levels `prefix_of` hier_levels h
        /\ ((0 <= depth + (if drilldown then 1 else 0))%Z ->
            Z.of_nat (length levels)
            = (depth + (if drilldown then 1 else 0))%Z)
        /\ ((depth + (if drilldown then 1 else 0) < 0)%Z ->
            Z.of_nat (length levels)
            = Z.max 0 (Z.of_nat (length (hier_levels h))
                       + (depth + (if drilldown then 1 else 0))))).
Proof.
  unfold levels_for_depth.
  set (wanted := (depth + (if drilldown then 1 else 0))%Z).
  split.
  - intros Hlong. rewrite bool_decide_true by done. eauto.
  - intros Hfits. rewrite bool_decide_false by lia.
    eexists. split; [reflexivity|]. split; [apply py_slice_stop_prefix|].
    unfold py_slice_stop. split; intros Hsign.
    + destruct (Z.ltb_spec wanted 0); [lia|]. rewrite length_take. lia.
    + destruct (Z.ltb_spec wanted 0); [|lia]. rewrite length_take. lia.
Qed.

(** X5.  [keys(depth)] gives the keys of the levels that
    [levels_for_depth(depth)] returns whenever that succeeds; for a depth
    beyond the number of levels, where [levels_for_depth] fails, [keys]
    gives the keys of all levels, as it does without a depth. *)
Theorem keys_of_levels_for_depth (h : Hierarchy) (depth : Z) :
  (forall levels,
      levels_for_depth repr_levels h depth false = Ok levels ->
      keys h (Some depth) = level_key <$> levels)
  /\ ((Z.of_nat (length (hier_levels h)) <= depth)%Z ->
      keys h (Some depth) = keys h None)
  /\ keys h None = key_attributes h
  /\ length (keys h (Some depth)) <= length (hier_levels h).
Proof.
  split; [|split; [|split]].
  - intros levels. unfold levels_for_depth, keys.
    case_bool_decide; [discriminate|]. intros [= <-].
    by rewrite Z.add_0_r.
  - intros Hlong. unfold keys, py_slice_stop.
    destruct (Z.ltb_spec depth 0); [lia|]. by rewrite take_ge by lia.
  - reflexivity.
  - unfold keys. rewrite length_fmap.
    apply prefix_length, py_slice_stop_prefix.
Qed.

(** X6.  A base path, one as long as the hierarchy, cannot be drilled
    down: [levels_for_depth] for its length with a drilldown fails with a
    hierarchy error, while for a shorter path it returns one level more
    than the path has elements; and rolling a non-empty base path up one
    level gives a path that is not base. *)
Theorem base_path_has_no_drilldown (h : Hierarchy) (path : list string) :
  (path_is_base h (Some path) = true ->
   (exists msg,
      levels_for_depth repr_levels h (Z.of_nat (length path)) true
      = Err (HierarchyError msg))
   /\ levels_for_depth repr_levels h (Z.of_nat (length path)) false
      = Ok (hier_levels h)
   /\ (path <> [] ->
       exists rolled,
         rollup h path None = Ok rolled
         /\ path_is_base h (Some rolled) = false))
  /\ (length path < length (hier_levels h) ->
      path_is_base h (Some path) = false
      /\ exists levels,
           levels_for_depth repr_levels h (Z.of_nat (length path)) true
           = Ok levels
           /\ length levels = S (length path)).
Proof.
  unfold path_is_base. split.
  - intros Hbase. apply bool_decide_eq_true in Hbase.
    split; [|split].
    + unfold levels_for_depth. rewrite bool_decide_true by lia. eauto.
    + unfold levels_for_depth. rewrite bool_decide_false by lia.
      rewrite Z.add_0_r, py_slice_stop_nat, Hbase. by rewrite take_ge.
    + intros Hne. rewrite rollup_one_level. eexists. split; [reflexivity|].
      apply bool_decide_eq_false. rewrite length_take.
      destruct path; [done | simpl in *; lia].
  - intros Hshort. split; [apply bool_decide_eq_false; lia|].
    unfold levels_for_depth. rewrite bool_decide_false by lia.
    eexists. split; [reflexivity|].
    replace (Z.of_nat (length path) + 1)%Z
      with (Z.of_nat (S (length path))) by lia.
    rewrite py_slice_stop_nat, length_take. lia.
Qed.

End DepthFacts.

(** X7.  A roll-up always returns a prefix of the path; rolling the result
    up to the same level again changes nothing; and in a hierarchy whose
    dictionary is as Python keeps it, rolling up to a level and then one
    level more is rolling up to the previous level. *)
Theorem rollup_composes h path :
  (forall level rolled,
      rollup h path level = Ok rolled -> rolled `prefix_of` path)
  /\ (forall lv rolled,
        rollup h path (Some lv) = Ok rolled ->
        rollup h rolled (Some lv) = Ok rolled)
  /\ (hier_wf h ->
      forall lv before rolled,
        previous_level h (Some lv) = Ok (Some before) ->
        rollup h path (Some lv) = Ok rolled ->
        rollup h rolled None = rollup h path (Some before)).
Proof.
  assert (Hto : forall lv rolled,
             rollup h path (Some lv) = Ok rolled ->
             exists i, level_index h (level_name lv) = Ok i
                       /\ i + 1 <= length path
                       /\ rolled = take (i + 1) path).
  { intros lv rolled. unfold rollup.
    destruct (level_index h (level_name lv)) as [i|e] eqn:Hi;
      [|discriminate].
    rewrite !Ok_bind. case_bool_decide as Hlen; [discriminate|].
    rewrite Ok_bind. intros [= <-]. exists i. split; [done|].
    split; [lia | done]. }
  split; [|split].
  - intros [lv|] rolled Hr.
    + destruct (Hto _ _ Hr) as (i & _ & _ & ->). apply take_prefix_of.
    + rewrite rollup_one_level in Hr. injection Hr as <-.
      apply take_prefix_of.
  - intros lv rolled Hr. destruct (Hto _ _ Hr) as (i & Hi & Hlen & ->).
    rewrite (rollup_to_level _ _ _ i Hi) by (rewrite length_take; lia).
    by rewrite take_take, Nat.min_id.
  - intros [Hnodup Hkeyed] lv before rolled Hprev Hr.
    destruct (Hto _ _ Hr) as (i & Hi & Hlen & ->).
    assert (Hi' : index_of_level h lv = Ok i).
    { apply index_of_level_Ok. by apply level_index_Ok. }
    rewrite (previous_level_at _ _ _ Hi') in Hprev.
    case_bool_decide as Hz; [discriminate|]. injection Hprev as Hprev.
    assert (Hb : level_index h (level_name before) = Ok (i - 1)).
    { apply level_index_Ok, list_index_NoDup; [done|].
      by apply hier_levels_lookup_name. }
    rewrite rollup_one_level, length_take.
    rewrite (rollup_to_level _ _ _ (i - 1) Hb) by lia.
    rewrite take_take. f_equal. f_equal. lia.
Qed.

End HierarchyFacts.

(** ** Levels *)

Section LevelInitFacts.
Import Metadata MetadataOps.

Lemma attribute_of_Ok attributes name a :
  attribute_of attributes name = Ok a -> a ∈ attributes /\ attr_name a = name.
Proof.
  unfold attribute_of.
  destruct (filter (fun a => attr_name a = name) attributes) as [|a' rest]
    eqn:Hf; [discriminate|].
  intros [= <-].
  assert (Hin : a' ∈ filter (fun a => attr_name a = name) attributes)
    by (rewrite Hf; left).
  by apply list_elem_of_filter in Hin as [? ?].
Qed.

Lemma attribute_of_is_ok attributes name :
  is_ok (attribute_of attributes name) = true <->
  name ∈ attr_name <$> attributes.
Proof.
  unfold attribute_of.
  destruct (filter (fun a => attr_name a = name) attributes) as [|a' rest]
    eqn:Hf; simpl.
  - split; [discriminate|]. intros Hin.
    apply list_elem_of_fmap in Hin as (a & -> & Hin).
    assert (Ha : a ∈ filter (fun a' => attr_name a' = attr_name a) attributes)
      by (by apply list_elem_of_filter).
    rewrite Hf in Ha. by apply elem_of_nil in Ha.
  - split; [intros _|done].
    assert (Hin : a' ∈ filter (fun a => attr_name a = name) attributes)
      by (rewrite Hf; left).
    apply list_elem_of_filter in Hin as [<- Hin].
    by apply list_elem_of_fmap_2.
Qed.

Lemma attribute_of_Err attributes name :
  name ∉ attr_name <$> attributes ->
  attribute_of attributes name = Err (NoSuchAttributeError name).
Proof.
  intros Hin. destruct (attribute_of attributes name) as [a|e] eqn:Ha.
  - exfalso. apply Hin. apply attribute_of_is_ok. by rewrite Ha.
  - unfold attribute_of in *.
    destruct (filter _ attributes); [done | discriminate].
Qed.

(** X8.  In every level that is constructed, the key, the label attribute
    and the order attribute are attributes of the level, and one that was
    asked for by name has that name. *)
Theorem Level_init_members name attributes key order_attribute order
    label_attribute label info cardinality role nonadditive description l :
  Level_init name attributes key order_attribute order label_attribute
             label info cardinality role nonadditive description = Ok l ->
  level_wf l
  /\ level_attributes l = attributes
  /\ level_name l = name
  /\ (truthy key = true -> attr_name (level_key l) = default "" key)
  /\ (truthy label_attribute = true ->
      attr_name (level_label_attribute l) = default "" label_attribute)
  /\ (truthy order_attribute = true ->
      attr_name (level_order_attribute l) = default "" order_attribute).
Proof.
  unfold Level_init, level_wf. case_bool_decide as Hempty; [discriminate|].
  intros Hinit.
  apply bind_Ok in Hinit as (? & _ & Hinit).
  apply bind_Ok in Hinit as (k & Hk & Hinit).
  apply bind_Ok in Hinit as (la & Hla & Hinit).
  apply bind_Ok in Hinit as (oa & Hoa & Hinit).
  injection Hinit as <-. simpl.
  assert (Hkey : k ∈ attributes
                 /\ (truthy key = true -> attr_name k = default "" key)).
  { destruct (truthy key).
    - by apply attribute_of_Ok in Hk as [? ?].
    - destruct attributes; [done|]. injection Hk as <-.
      split; [left | discriminate]. }
  assert (Hlabel : la ∈ attributes
                   /\ (truthy label_attribute = true ->
                       attr_name la = default "" label_attribute)).
  { destruct (truthy label_attribute).
    - by apply attribute_of_Ok in Hla as [? ?].
    - split; [|discriminate].
      destruct attributes as [|a [|b rest]]; injection Hla as <-.
      + apply Hkey.
      + apply Hkey.
      + right. left. }
  assert (Horder : oa ∈ attributes
                   /\ (truthy order_attribute = true ->
                       attr_name oa = default "" order_attribute)).
  { destruct (truthy order_attribute).
    - destruct (attribute_of attributes (default "" order_attribute))
        as [a|e] eqn:Ha.
      + injection Hoa as <-. by apply attribute_of_Ok in Ha as [? ?].
      + by destruct e.
    - destruct attributes; [done|]. injection Hoa as <-.
      split; [left | discriminate]. }
  tauto.
Qed.

Lemma is_ok_bind {A B} (r : result A) (f : A -> result B) :
  is_ok (r ≫= f) = true <-> exists a, r = Ok a /\ is_ok (f a) = true.
Proof.
  destruct r as [a|e]; simpl.
  - split; [eauto | by intros (? & [= <-] & ?)].
  - split; [discriminate | by intros (? & ? & _)].
Qed.

Lemma is_ok_Ok {A} (r : result A) : is_ok r = true <-> exists a, r = Ok a.
Proof. destruct r; simpl; split; eauto; try discriminate. by intros [? ?]. Qed.

(** The choice between an attribute asked for by name and a fallback. *)
Lemma named_or_fallback_Ok attributes (explicit : option string)
    (fallback : result Attribute) a :
  (if truthy explicit
   then attribute_of attributes (default "" explicit)
   else fallback) = Ok a ->
  truthy explicit = true ->
  default "" explicit ∈ attr_name <$> attributes.
Proof.
  intros Hpick Ht. rewrite Ht in Hpick.
  apply attribute_of_is_ok. by rewrite Hpick.
Qed.

Lemma named_or_fallback_exists attributes (explicit : option string)
    (fallback : result Attribute) :
  is_ok fallback = true ->
  (truthy explicit = true ->
   default "" explicit ∈ attr_name <$> attributes) ->
  exists a,
    (if truthy explicit
     then attribute_of attributes (default "" explicit)
     else fallback) = Ok a.
Proof.
  intros Hf Hin. destruct (truthy explicit).
  - apply is_ok_Ok, attribute_of_is_ok. by apply Hin.
  - by apply is_ok_Ok.
Qed.

Lemma order_attribute_lookup_Ok attributes name n a :
  match attribute_of attributes n with
  | Ok a => Ok a
  | Err (NoSuchAttributeError _) =>
      Err (NoSuchAttributeError
             ("Unknown order attribute " +:+ n +:+ " in level " +:+ name))
  | Err e => Err e
  end = Ok a ->
  attribute_of attributes n = Ok a.
Proof. destruct (attribute_of attributes n) as [?|[]]; congruence. Qed.

(** X9.  A level is constructed exactly when the attribute list is not
    empty, [nonadditive] is acceptable and every attribute asked for by
    name exists; an unknown key or label attribute raises the
    missing-attribute error with the bare name, an unknown order attribute
    the one that names the level too. *)
Theorem Level_init_succeeds_iff name attributes key order_attribute order
    label_attribute label info cardinality role nonadditive description :
  (is_ok (Level_init name attributes key order_attribute order
            label_attribute label info cardinality role nonadditive
            description) = true <->
   attributes <> []
   /\ is_ok (nonadditive_chain nonadditive) = true
   /\ (truthy key = true -> default "" key ∈ attr_name <$> attributes)
   /\ (truthy label_attribute = true ->
       default "" label_attribute ∈ attr_name <$> attributes)
   /\ (truthy order_attribute = true ->
       default "" order_attribute ∈ attr_name <$> attributes))
  /\ (attributes <> [] ->
      is_ok (nonadditive_chain nonadditive) = true ->
      (truthy key = true ->
       default "" key ∉ attr_name <$> attributes ->
       Level_init name attributes key order_attribute order label_attribute
                  label info cardinality role nonadditive description
       = Err (NoSuchAttributeError (default "" key)))
      /\ ((truthy key = true -> default "" key ∈ attr_name <$> attributes) ->
          truthy label_attribute = true ->
          default "" label_attribute ∉ attr_name <$> attributes ->
          Level_init name attributes key order_attribute order
                     label_attribute label info cardinality role nonadditive
                     description
          = Err (NoSuchAttributeError (default "" label_attribute)))
      /\ ((truthy key = true -> default "" key ∈ attr_name <$> attributes) ->
          (truthy label_attribute = true ->
           default "" label_attribute ∈ attr_name <$> attributes) ->
          truthy order_attribute = true ->
          default "" order_attribute ∉ attr_name <$> attributes ->
          Level_init name attributes key order_attribute order
                     label_attribute label info cardinality role nonadditive
                     description
          = Err (NoSuchAttributeError
                   ("Unknown order attribute " +:+ default "" order_attribute
                    +:+ " in level " +:+ name)))).
Proof.
  split.
  - unfold Level_init. case_bool_decide as Hempty.
    { split; [discriminate | by intros [? _]]. }
    split.
    + intros Hok.
      apply is_ok_bind in Hok as (? & Hchain & Hok).
      apply is_ok_bind in Hok as (k & Hk & Hok).
      apply is_ok_bind in Hok as (la & Hla & Hok).
      apply is_ok_bind in Hok as (oa & Hoa & _).
      split; [done|]. split; [by rewrite Hchain|].
      split; [by eapply named_or_fallback_Ok|].
      split; [by eapply named_or_fallback_Ok|].
      intros Ho. rewrite Ho in Hoa.
      apply order_attribute_lookup_Ok in Hoa.
      apply attribute_of_is_ok. by rewrite Hoa.
    + intros (_ & Hchain & Hkey & Hlabel & Horder).
      apply is_ok_Ok in Hchain as [? ->]. rewrite Ok_bind.
      destruct attributes as [|a0 rest]; [done|].
      destruct (named_or_fallback_exists (a0 :: rest) key (Ok a0)
                  eq_refl Hkey) as [k ->].
      rewrite Ok_bind.
      destruct (named_or_fallback_exists (a0 :: rest) label_attribute
                  (match rest with b :: _ => Ok b | [] => Ok k end)
                  ltac:(by destruct rest) Hlabel) as [la Hla].
      replace (match rest with [] => Ok k | b :: _ => Ok b end)
        with (match rest with b :: _ => Ok b | [] => Ok k end)
        by (by destruct rest).
      rewrite Hla, Ok_bind.
      destruct (truthy order_attribute) eqn:Ho; [|done].
      specialize (Horder eq_refl). apply attribute_of_is_ok, is_ok_Ok in Horder.
      destruct Horder as [oa ->]. done.
  - intros Hne Hna. unfold Level_init. rewrite bool_decide_false by done.
    apply is_ok_Ok in Hna as [? ->]. rewrite Ok_bind.
    destruct attributes as [|a0 rest]; [done|].
    split; [|split].
    + intros Hk Hno. rewrite Hk.
      by rewrite (attribute_of_Err _ (default "" key)).
    + intros Hkey Hl Hno.
      destruct (named_or_fallback_exists (a0 :: rest) key (Ok a0)
                  eq_refl Hkey) as [k ->].
      rewrite Ok_bind, Hl.
      by rewrite (attribute_of_Err _ (default "" label_attribute)).
    + intros Hkey Hlabel Ho Hno.
      destruct (named_or_fallback_exists (a0 :: rest) key (Ok a0)
                  eq_refl Hkey) as [k ->].
      rewrite Ok_bind.
      destruct (named_or_fallback_exists (a0 :: rest) label_attribute
                  (match rest with b :: _ => Ok b | [] => Ok k end)
                  ltac:(by destruct rest) Hlabel) as [la Hla].
      replace (match rest with [] => Ok k | b :: _ => Ok b end)
        with (match rest with b :: _ => Ok b | [] => Ok k end)
        by (by destruct rest).
      rewrite Hla, Ok_bind, Ho.
      by rewrite (attribute_of_Err _ (default "" order_attribute)).
Qed.

Lemma foldl_app_concat {A B} (f : A -> list B) (l : list A) (acc : list B) :
  foldl (fun acc x => acc ++ f x) acc l = acc ++ concat (f <$> l).
Proof.
  revert acc. induction l as [|x l IH]; intros acc; simpl.
  - by rewrite app_nil_r.
  - by rewrite IH, app_assoc.
Qed.

(** X10.  [all_attributes] lists the attributes of the levels in the order
    of the levels; in a hierarchy of levels whose key is one of their
    attributes, as constructed levels are, every key attribute of the
    hierarchy is among them, and there is one key attribute per level. *)
Theorem key_attributes_in_all_attributes (h : Hierarchy) :
  (forall l, l ∈ hier_levels h -> level_wf l) ->
  all_attributes h = concat (level_attributes <$> hier_levels h)
  /\ key_attributes h ⊆ all_attributes h
  /\ length (key_attributes h) = hier_len h.
Proof.
  intros Hwf. unfold all_attributes, key_attributes, hier_len.
  rewrite foldl_app_concat. simpl. split; [done|].
  split; [|by rewrite length_fmap].
  intros a Ha. apply list_elem_of_fmap in Ha as (l & -> & Hl).
  apply list_elem_of_In, in_concat. exists (level_attributes l).
  split; apply list_elem_of_In; [by apply list_elem_of_fmap_2|].
  apply (Hwf l Hl).
Qed.

End LevelInitFacts.

(** ** Dimensions *)

Section ObjectDictFacts.
Import Metadata.
Context {V : Type} (name_of : V -> string).

Lemma object_dict_into_distinct message objects :
  forall ordered,
    NoDup (odict_keys ordered ++ (name_of <$> objects)) ->
    object_dict_into name_of message ordered objects
    = Ok (ordered ++ ((fun obj => (name_of obj, obj)) <$> objects)).
Proof.
  induction objects as [|obj rest IH]; intros ordered Hnd; simpl.
  - by rewrite app_nil_r.
  - simpl in Hnd.
    assert (Hnew : name_of obj ∉ odict_keys ordered).
    { apply NoDup_app in Hnd as (_ & Hd & _). intros Hin.
      apply (Hd _ Hin). left. }
    rewrite (proj2 (odict_get_None _ _) Hnew).
    rewrite odict_set_new by done. rewrite IH.
    + by rewrite <- app_assoc.
    + unfold odict_keys in *. rewrite fmap_app. simpl.
      rewrite <- app_assoc. exact Hnd.
Qed.

Lemma object_dict_into_NoDup message objects :
  forall ordered d,
    NoDup (odict_keys ordered) ->
    object_dict_into name_of message ordered objects = Ok d ->
    NoDup (odict_keys d).
Proof.
  induction objects as [|obj rest IH]; intros ordered d Hnd Hd; simpl in Hd.
  - by injection Hd as <-.
  - destruct (odict_get (name_of obj) ordered), message; try discriminate;
      (eapply IH; [|exact Hd]; by apply odict_keys_set_NoDup).
Qed.

Lemma object_dict_into_keys message objects :
  forall ordered d,
    object_dict_into name_of message ordered objects = Ok d ->
    forall k, k ∈ odict_keys d
              <-> k ∈ odict_keys ordered \/ k ∈ name_of <$> objects.
Proof.
  induction objects as [|obj rest IH]; intros ordered d Hd k; simpl in Hd.
  - injection Hd as <-. rewrite fmap_nil, elem_of_nil. tauto.
  - assert (Hset : k ∈ odict_keys (odict_set (name_of obj) obj ordered)
                   <-> k ∈ odict_keys ordered \/ k = name_of obj).
    { destruct (decide (name_of obj ∈ odict_keys ordered)) as [Hin|Hin].
      - rewrite odict_keys_set_in by done. split; [auto|].
        intros [?| ->]; done.
      - rewrite odict_keys_set_new, elem_of_app, list_elem_of_singleton
          by done. tauto. }
    rewrite fmap_cons, elem_of_cons.
    destruct (odict_get (name_of obj) ordered), message; try discriminate;
      (rewrite (IH _ _ Hd k), Hset; tauto).
Qed.


End ObjectDictFacts.

Section DimensionInitFacts.
Import Metadata MetadataOps.

Variable attribute_ref : Attribute -> string.

Lemma claim_attribute_Ok self_name maps a maps' :
  claim_attribute attribute_ref self_name maps a = Ok maps' ->
  attr_dimension a = None
  /\ maps' = (odict_set (attr_name a) (own self_name a) maps.1,
              odict_set (attribute_ref (own self_name a)) (own self_name a)
                        maps.2).
Proof.
  unfold claim_attribute. destruct (attr_dimension a); [discriminate|].
  by intros [= <-].
Qed.

Lemma claim_attributes_Ok self_name attrs :
  forall maps maps',
    claim_attributes attribute_ref self_name maps attrs = Ok maps' ->
    Forall (fun a => attr_dimension a = None) attrs
    /\ (maps_owned self_name maps -> maps_owned self_name maps')
    /\ (forall k, k ∈ odict_keys maps'.1
                  <-> k ∈ odict_keys maps.1 \/ k ∈ attr_name <$> attrs)
    /\ (forall r, r ∈ odict_keys maps'.2
                  <-> r ∈ odict_keys maps.2
                      \/ r ∈ (fun a => attribute_ref (own self_name a))
                             <$> attrs).
Proof.
  induction attrs as [|a rest IH]; intros maps maps' Hok; simpl in Hok.
  - injection Hok as <-. split; [constructor|]. split; [done|].
    split; intros x; rewrite fmap_nil, elem_of_nil; tauto.
  - apply bind_Ok in Hok as (maps1 & H1 & Hrest).
    apply claim_attribute_Ok in H1 as [Hfree ->].
    destruct (IH _ _ Hrest) as (Hall & Hown & Hk1 & Hk2). simpl in *.
    split; [by constructor|]. split; [|split].
    + intros [Ho1 Ho2]. apply Hown. split; simpl.
      * intros k b. destruct (decide (attr_name a = k)) as [<-|Hne].
        -- rewrite odict_get_set_eq. by intros [= <-].
        -- rewrite odict_get_set_ne by done. apply Ho1.
      * intros r b.
        destruct (decide (attribute_ref (own self_name a) = r)) as [<-|Hne].
        -- rewrite odict_get_set_eq. by intros [= <-].
        -- rewrite odict_get_set_ne by done. apply Ho2.
    + intros k. rewrite Hk1, elem_of_cons.
      destruct (decide (attr_name a ∈ odict_keys maps.1)) as [Hin|Hin].
      * rewrite odict_keys_set_in by done. split; [tauto|].
        intros [?|[->|?]]; auto.
      * rewrite odict_keys_set_new, elem_of_app, list_elem_of_singleton
          by done. tauto.
    + intros r. rewrite Hk2, elem_of_cons.
      destruct (decide (attribute_ref (own self_name a) ∈ odict_keys maps.2))
        as [Hin|Hin].
      * rewrite odict_keys_set_in by done. split; [tauto|].
        intros [?|[->|?]]; auto.
      * rewrite odict_keys_set_new, elem_of_app, list_elem_of_singleton
          by done. tauto.
Qed.

Lemma claim_attributes_owned self_name attrs :
  forall maps,
    Exists (fun a => attr_dimension a <> None) attrs ->
    exists msg,
      claim_attributes attribute_ref self_name maps attrs
      = Err (ModelError msg).
Proof.
  induction attrs as [|a rest IH]; intros maps Hex.
  - by apply Exists_nil in Hex.
  - simpl. unfold claim_attribute at 1.
    destruct (attr_dimension a) as [other|] eqn:Ha; [simpl; eauto|].
    rewrite Ok_bind. apply IH.
    apply Exists_cons in Hex as [Hex|Hex]; [by rewrite Ha in Hex | done].
Qed.

Lemma claim_attributes_Ok_or_ModelError self_name attrs :
  forall maps e,
    claim_attributes attribute_ref self_name maps attrs = Err e ->
    exists msg, e = ModelError msg.
Proof.
  induction attrs as [|a rest IH]; intros maps e; simpl; [discriminate|].
  unfold claim_attribute at 1. destruct (attr_dimension a).
  - simpl. intros [= <-]. eauto.
  - rewrite Ok_bind. apply IH.
Qed.

Lemma claim_levels_Ok self_name levels :
  forall maps maps',
    claim_levels attribute_ref self_name maps levels = Ok maps' ->
    Forall (fun l => Forall (fun a => attr_dimension a = None)
                            (level_attributes l)) levels
    /\ (maps_owned self_name maps -> maps_owned self_name maps')
    /\ (forall l a, l ∈ levels -> a ∈ level_attributes l ->
                    attr_name a ∈ odict_keys maps'.1
                    /\ attribute_ref (own self_name a) ∈ odict_keys maps'.2)
    /\ (forall k, k ∈ odict_keys maps'.1 ->
                  k ∈ odict_keys maps.1
                  \/ exists l a, l ∈ levels /\ a ∈ level_attributes l
                                 /\ attr_name a = k).
Proof.
  induction levels as [|l rest IH]; intros maps maps' Hok; simpl in Hok.
  - injection Hok as <-. split; [constructor|]. split; [done|].
    split; [|by auto].
    intros l a Hl. by apply elem_of_nil in Hl.
  - apply bind_Ok in Hok as (maps1 & H1 & Hrest).
    apply claim_attributes_Ok in H1 as (Hall & Hown & Hk1 & Hk2).
    destruct (IH _ _ Hrest) as (Hall' & Hown' & Hin' & Hback).
    split; [by constructor|]. split; [by auto|]. split.
    + intros l0 a Hl0 Ha. apply elem_of_cons in Hl0 as [->|Hl0];
        [|by eapply Hin'].
      destruct (IH _ _ Hrest) as (_ & _ & _ & _).
      assert (Hmono1 : forall k, k ∈ odict_keys maps1.1 ->
                                 k ∈ odict_keys maps'.1).
      { clear -Hrest. revert maps1 Hrest.
        induction rest as [|l' rest IHr]; intros maps1 Hrest k Hk;
          simpl in Hrest.
        - by injection Hrest as <-.
        - apply bind_Ok in Hrest as (m & Hm & Hrest).
          apply claim_attributes_Ok in Hm as (_ & _ & Hk1 & _).
          eapply IHr; [exact Hrest|]. apply Hk1. by left. }
      assert (Hmono2 : forall k, k ∈ odict_keys maps1.2 ->
                                 k ∈ odict_keys maps'.2).
      { clear -Hrest. revert maps1 Hrest.
        induction rest as [|l' rest IHr]; intros maps1 Hrest k Hk;
          simpl in Hrest.
        - by injection Hrest as <-.
        - apply bind_Ok in Hrest as (m & Hm & Hrest).
          apply claim_attributes_Ok in Hm as (_ & _ & _ & Hk2).
          eapply IHr; [exact Hrest|]. apply Hk2. by left. }
      split.
      * apply Hmono1, Hk1. right. by apply list_elem_of_fmap_2.
      * apply Hmono2, Hk2. right.
        by apply (list_elem_of_fmap_2
                    (fun a => attribute_ref (own self_name a))).
    + intros k Hk. destruct (Hback k Hk) as [Hk'|(l0 & a & Hl0 & Ha & Hn)].
      * apply Hk1 in Hk' as [?|Hk']; [by left|]. right.
        apply list_elem_of_fmap in Hk' as (a & -> & Ha).
        exists l, a. split; [left | done].
      * right. exists l0, a. split; [by right | done].
Qed.

Lemma claim_levels_owned self_name levels :
  forall maps,
    Exists (fun l => Exists (fun a => attr_dimension a <> None)
                            (level_attributes l)) levels ->
    exists msg,
      claim_levels attribute_ref self_name maps levels = Err (ModelError msg).
Proof.
  induction levels as [|l rest IH]; intros maps Hex.
  - by apply Exists_nil in Hex.
  - simpl.
    destruct (claim_attributes attribute_ref self_name maps
                (level_attributes l)) as [maps1|e] eqn:H1.
    + rewrite Ok_bind. apply IH.
      apply Exists_cons in Hex as [Hex|Hex]; [|done].
      destruct (claim_attributes_owned self_name _ maps Hex) as [msg Hmsg].
      congruence.
    + apply claim_attributes_Ok_or_ModelError in H1 as [msg ->].
      simpl. eauto.
Qed.

Lemma keyed_pairs {V} (name_of : V -> string) (d : list (string * V)) :
  keyed_by name_of d ->
  (fun obj => (name_of obj, obj)) <$> odict_values d = d.
Proof.
  unfold odict_values. induction d as [|[k v] d IH]; intros Hd; [done|].
  simpl. rewrite (Hd k v) by left. f_equal. apply IH.
  intros k' v' Hin. apply Hd. by right.
Qed.

Lemma adopt_keys self_name roles (ld : list (string * Level)) :
  odict_keys (prod_map id (adopt_level self_name roles) <$> ld)
  = odict_keys ld.
Proof.
  unfold odict_keys. rewrite <- list_fmap_compose.
  apply list_fmap_ext. by intros ? [k v].
Qed.

Lemma adopt_values self_name roles (ld : list (string * Level)) :
  odict_values (prod_map id (adopt_level self_name roles) <$> ld)
  = adopt_level self_name roles <$> odict_values ld.
Proof.
  unfold odict_values. rewrite <- !list_fmap_compose.
  apply list_fmap_ext. by intros ? [k v].
Qed.

Lemma adopt_keyed self_name roles (ld : list (string * Level)) :
  keyed_by level_name ld ->
  keyed_by level_name (prod_map id (adopt_level self_name roles) <$> ld).
Proof.
  intros Hk k v Hin. apply list_elem_of_fmap in Hin as ([k0 v0] & Heq & Hin).
  injection Heq as -> ->. simpl. by apply Hk.
Qed.

Lemma odict_get_adopt self_name roles (ld : list (string * Level)) k :
  odict_get k (prod_map id (adopt_level self_name roles) <$> ld)
  = adopt_level self_name roles <$> odict_get k ld.
Proof.
  induction ld as [|[k0 v0] ld IH]; simpl; [done|].
  by case_decide.
Qed.

(** What a successful [Dimension.__init__] has gone through. *)
Lemma Dimension_init_inv name levels hierarchies dhn label description info
    role cardinality category master nonadditive attributes d :
  Dimension_init attribute_ref name levels hierarchies dhn label description
    info role cardinality category master nonadditive attributes = Ok d ->
  exists lvs ld maps,
    is_ok (nonadditive_chain nonadditive) = true
    /\ ((default [] attributes <> [] /\ default [] levels = []
         /\ exists level,
              Level_init name (default [] attributes) None None None None
                         None None None None None None = Ok level
              /\ lvs = [level])
        \/ (default [] attributes = [] /\ default [] levels <> []
            /\ lvs = default [] levels))
    /\ object_dict level_name None lvs = Ok ld
    /\ claim_levels attribute_ref name ([], []) (odict_values ld) = Ok maps
    /\ dim_levels_dict d
       = prod_map id (adopt_level name (default_roles_of role)) <$> ld
    /\ dim_attributes_dict d = maps.1
    /\ dim_attributes_by_ref d = maps.2
    /\ (if negb (bool_decide (default [] hierarchies = []))
        then object_dict hier_name
               (Some (fun key => "Duplicate hierarchy '" +:+ key
                                 +:+ "' in cube '" +:+ name +:+ "'"))
               (default [] hierarchies)
        else Hierarchy_init "default" (odict_values (dim_levels_dict d))
                            None None None
               ≫= fun dflt => object_dict hier_name None [dflt])
       = Ok (dim_hierarchies_dict d)
    /\ dim_name d = name
    /\ dim_master d = master
    /\ dim_role d = role.
Proof.
  unfold Dimension_init. intros Hinit.
  apply bind_Ok in Hinit as (? & Hchain & Hinit).
  destruct (bool_decide (default [] levels = [])) eqn:Hl;
    destruct (bool_decide (default [] attributes = [])) eqn:Ha;
    simpl in Hinit; try discriminate.
  - apply bool_decide_eq_true in Hl. apply bool_decide_eq_false in Ha.
    apply bind_Ok in Hinit as (lvs & Hlvs & Hinit).
    apply bind_Ok in Hlvs as (level & Hlevel & Hlvs).
    injection Hlvs as <-.
    apply bind_Ok in Hinit as (ld & Hld & Hinit).
    apply bind_Ok in Hinit as (maps & Hmaps & Hinit).
    apply bind_Ok in Hinit as (hd & Hhd & Hinit).
    apply bind_Ok in Hinit as (first & Hfirst & Hinit).
    injection Hinit as <-. simpl.
    exists [level], ld, maps. rewrite Hchain.
    split; [done|]. split; [left; eauto|]. done.
  - apply bool_decide_eq_false in Hl. apply bool_decide_eq_true in Ha.
    apply bind_Ok in Hinit as (ld & Hld & Hinit).
    apply bind_Ok in Hinit as (maps & Hmaps & Hinit).
    apply bind_Ok in Hinit as (hd & Hhd & Hinit).
    apply bind_Ok in Hinit as (first & Hfirst & Hinit).
    injection Hinit as <-. simpl.
    exists (default [] levels), ld, maps. rewrite Hchain.
    split; [done|]. split; [right; eauto|]. done.
Qed.

Lemma adopt_level_attributes self_name roles l :
  level_attributes (adopt_level self_name roles l)
  = own self_name <$> level_attributes l.
Proof. reflexivity. Qed.

(** X11.  After a successful construction every attribute of every level
    of the dimension is owned by the dimension and is found by
    [attribute(name)] under its name, as an attribute of that name owned
    by the dimension; a name that no level has raises the
    missing-attribute error; a lookup by reference returns an attribute
    owned by the dimension or raises [KeyError]. *)
Theorem Dimension_init_owns_attributes name levels hierarchies dhn label
    description info role cardinality category master nonadditive
    attributes d :
  Dimension_init attribute_ref name levels hierarchies dhn label description
    info role cardinality category master nonadditive attributes = Ok d ->
  (forall l a,
      l ∈ dim_levels d -> a ∈ level_attributes l ->
      attr_dimension a = Some name
      /\ exists a',
           Dimension_attribute d (attr_name a) false = Returns a'
           /\ attr_name a' = attr_name a
           /\ attr_dimension a' = Some name)
  /\ (forall l, l ∈ dim_levels d ->
                attr_dimension (level_key l) = Some name)
  /\ (forall n a,
        Dimension_attribute d n false = Returns a ->
        attr_name a = n /\ attr_dimension a = Some name
        /\ exists l, l ∈ dim_levels d /\ n ∈ attr_name <$> level_attributes l)
  /\ (forall n,
        (forall l, l ∈ dim_levels d -> n ∉ attr_name <$> level_attributes l) ->
        Dimension_attribute d n false
        = Raises (Raised (NoSuchAttributeError
                            ("Unknown attribute '" +:+ n
                             +:+ "' in dimension '" +:+ name +:+ "'"))))
  /\ (forall r,
        (exists a, Dimension_attribute d r true = Returns a
                   /\ attr_dimension a = Some name)
        \/ Dimension_attribute d r true = Raises (KeyError r)).
Proof.
  intros Hinit.
  destruct (Dimension_init_inv _ _ _ _ _ _ _ _ _ _ _ _ _ _ Hinit)
    as (lvs & ld & maps & _ & _ & _ & Hmaps & Hlevels & Ha1 & Ha2 & _
        & Hname & _).
  apply claim_levels_Ok in Hmaps as (_ & Hown & Hin & Hback).
  destruct Hown as [Ho1 Ho2].
  { split; intros ? ?; discriminate. }
  assert (Hlv : dim_levels d
                = adopt_level name (default_roles_of role) <$> odict_values ld).
  { unfold dim_levels. by rewrite Hlevels, adopt_values. }
  assert (Hnames : forall l n,
             l ∈ dim_levels d -> n ∈ attr_name <$> level_attributes l ->
             n ∈ odict_keys maps.1).
  { intros l n Hl Hn. rewrite Hlv in Hl.
    apply list_elem_of_fmap in Hl as (l0 & -> & Hl0).
    rewrite adopt_level_attributes in Hn. rewrite <- list_fmap_compose in Hn.
    apply list_elem_of_fmap in Hn as (a0 & -> & Ha0).
    by apply (Hin l0 a0). }
  split; [|split; [|split; [|split]]].
  - intros l a Hl Ha.
    assert (Howned : attr_dimension a = Some name).
    { rewrite Hlv in Hl. apply list_elem_of_fmap in Hl as (l0 & -> & _).
      rewrite adopt_level_attributes in Ha.
      by apply list_elem_of_fmap in Ha as (a0 & -> & _). }
    split; [done|].
    assert (Hk : attr_name a ∈ odict_keys maps.1).
    { apply (Hnames l); [done|]. by apply list_elem_of_fmap_2. }
    apply odict_get_is_Some in Hk as [a' Ha'].
    exists a'. unfold Dimension_attribute. rewrite Ha1, Ha'.
    destruct (Ho1 _ _ Ha'). done.
  - intros l Hl. rewrite Hlv in Hl.
    by apply list_elem_of_fmap in Hl as (l0 & -> & _).
  - intros n a. unfold Dimension_attribute. rewrite Ha1.
    destruct (odict_get n maps.1) as [a0|] eqn:Hget; [|discriminate].
    intros [= <-]. destruct (Ho1 _ _ Hget) as [Hn Hd].
    split; [done|]. split; [done|].
    destruct (Hback n (odict_get_keys _ _ _ Hget))
      as [Hnil|(l0 & a1 & Hl0 & Ha1' & Hn1)].
    { by apply elem_of_nil in Hnil. }
    exists (adopt_level name (default_roles_of role) l0). split.
    + rewrite Hlv. by apply list_elem_of_fmap_2.
    + rewrite adopt_level_attributes, <- list_fmap_compose.
      apply list_elem_of_fmap. exists a1. by rewrite <- Hn1.
  - intros n Hnone. unfold Dimension_attribute. rewrite Ha1, Hname.
    destruct (odict_get n maps.1) as [a0|] eqn:Hget; [|done].
    exfalso.
    destruct (Hback n (odict_get_keys _ _ _ Hget))
      as [Hnil|(l0 & a1 & Hl0 & Ha1' & Hn1)].
    { by apply elem_of_nil in Hnil. }
    apply (Hnone (adopt_level name (default_roles_of role) l0)).
    + rewrite Hlv. by apply list_elem_of_fmap_2.
    + rewrite adopt_level_attributes, <- list_fmap_compose.
      apply list_elem_of_fmap. exists a1. by rewrite <- Hn1.
  - intros r. unfold Dimension_attribute. rewrite Ha2.
    destruct (odict_get r maps.2) as [a0|] eqn:Hget; [|by right].
    left. exists a0. split; [done|]. by eapply Ho2.
Qed.

Lemma Level_init_plain name attributes l :
  Level_init name attributes None None None None None None None None None
             None = Ok l ->
  level_name l = name /\ level_attributes l = attributes
  /\ head attributes = Some (level_key l).
Proof.
  unfold Level_init. case_bool_decide; [discriminate|].
  destruct attributes as [|a [|b rest]]; [done|..]; simpl;
    by intros [= <-].
Qed.

Lemma Level_init_plain_Ok name attributes :
  attributes <> [] ->
  exists l, Level_init name attributes None None None None None None None
                       None None None = Ok l.
Proof.
  intros Hne. unfold Level_init. rewrite bool_decide_false by done.
  destruct attributes as [|a [|b rest]]; [done|..]; simpl; eauto.
Qed.

Lemma object_dict_levels_ok (lvs : list Level) :
  exists ld, object_dict level_name None lvs = Ok ld
             /\ NoDup (odict_keys ld) /\ keyed_by level_name ld
             /\ (NoDup (level_name <$> lvs) -> odict_values ld = lvs)
             /\ (lvs <> [] -> ld <> []).
Proof.
  assert (Hok : forall ordered,
             exists ld, object_dict_into level_name None ordered lvs = Ok ld).
  { induction lvs as [|l rest IH]; intros ordered; simpl; [eauto|].
    destruct (odict_get (level_name l) ordered); apply IH. }
  destruct (Hok []) as [ld Hld]. exists ld. split; [done|].
  split; [apply (object_dict_into_NoDup level_name None lvs [] ld);
          [apply NoDup_nil_2 | exact Hld]|].
  split; [by eapply object_dict_keyed|]. split.
  - intros Hnd. unfold object_dict in Hld.
    rewrite object_dict_into_distinct in Hld by done.
    injection Hld as <-. simpl. unfold odict_values.
    rewrite <- list_fmap_compose. apply list_fmap_id.
  - intros Hne ->. destruct lvs as [|l rest]; [done|].
    pose proof (object_dict_into_keys level_name None (l :: rest) [] []
                  Hld (level_name l)) as [_ Hk].
    unfold odict_keys at 1 in Hk. simpl in Hk.
    eapply elem_of_nil, Hk. right. left.
Qed.

(** X12.  A dimension cannot be constructed over an attribute that already
    has an owner: whether the attributes are given directly or in levels
    of distinct names, the construction fails with a model error. *)
Theorem Dimension_init_refuses_owned_attributes name levels hierarchies dhn
    label description info role cardinality category master nonadditive
    attributes :
  is_ok (nonadditive_chain nonadditive) = true ->
  (default [] levels = [] ->
   Exists (fun a => attr_dimension a <> None) (default [] attributes) ->
   exists msg,
     Dimension_init attribute_ref name levels hierarchies dhn label
       description info role cardinality category master nonadditive
       attributes = Err (ModelError msg))
  /\ (default [] attributes = [] ->
      NoDup (level_name <$> default [] levels) ->
      Exists (fun l => Exists (fun a => attr_dimension a <> None)
                              (level_attributes l)) (default [] levels) ->
      exists msg,
        Dimension_init attribute_ref name levels hierarchies dhn label
          description info role cardinality category master nonadditive
          attributes = Err (ModelError msg)).
Proof.
  intros Hchain. apply is_ok_Ok in Hchain as [? Hchain].
  unfold Dimension_init. rewrite Hchain, Ok_bind. split.
  - intros Hl Hex. rewrite Hl.
    assert (Hne : default [] attributes <> []).
    { intros Hnil. rewrite Hnil in Hex. by apply Exists_nil in Hex. }
    rewrite (bool_decide_true ([] = [])) by done.
    rewrite (bool_decide_false (default [] attributes = [])) by done.
    simpl.
    destruct (Level_init_plain_Ok name _ Hne) as [l Hlevel].
    rewrite Hlevel, !Ok_bind.
    destruct (Level_init_plain _ _ _ Hlevel) as (_ & Hlattrs & _).
    destruct (object_dict_levels_ok [l]) as (ld & Hld & _ & _ & Hvalues & _).
    rewrite Hld, Ok_bind, Hvalues
      by (apply NoDup_singleton).
    destruct (claim_levels_owned name [l] ([], [])) as [msg Hmsg].
    { apply Exists_cons. left. by rewrite Hlattrs. }
    rewrite Hmsg. simpl. eauto.
  - intros Ha Hnd Hex. rewrite Ha.
    assert (Hne : default [] levels <> []).
    { intros Hnil. rewrite Hnil in Hex. by apply Exists_nil in Hex. }
    rewrite (bool_decide_false (default [] levels = [])) by done.
    rewrite (bool_decide_true ([] = [])) by done. simpl.
    destruct (object_dict_levels_ok (default [] levels))
      as (ld & Hld & _ & _ & Hvalues & _).
    rewrite Hld, Ok_bind, (Hvalues Hnd).
    destruct (claim_levels_owned name (default [] levels) ([], []) Hex)
      as [msg Hmsg].
    rewrite Hmsg. simpl. eauto.
Qed.

Lemma is_flat_unfold d :
  is_flat d = match dim_master d with
              | Some m => is_flat m
              | None => bool_decide (length (dim_levels d) = 1)
              end.
Proof. by destruct d. Qed.

Lemma has_details_unfold d :
  has_details d = match dim_master d with
                  | Some m => has_details m
                  | None => existsb level_has_details (dim_levels d)
                  end.
Proof. by destruct d. Qed.

(** X13.  Without hierarchies given, a constructed dimension has exactly
    one hierarchy, named "default", over the levels of the dimension in
    their order, and it is the default hierarchy whatever name was asked
    for. *)
Theorem Dimension_init_default_hierarchy name levels hierarchies dhn label
    description info role cardinality category master nonadditive
    attributes d :
  default [] hierarchies = [] ->
  Dimension_init attribute_ref name levels hierarchies dhn label description
    info role cardinality category master nonadditive attributes = Ok d ->
  dim_hierarchies d = [dim_default_hierarchy d]
  /\ Dimension_level_names d <> []
  /\ hier_name (dim_default_hierarchy d) = "default"
  /\ hier_levels_dict (dim_default_hierarchy d) = dim_levels_dict d
  /\ hier_wf (dim_default_hierarchy d)
  /\ default_hierarchy_name d = "default".
Proof.
  intros Hnone Hinit.
  destruct (Dimension_init_hierarchies _ _ _ _ _ _ _ _ _ _ _ _ _ _ _ Hinit)
    as (_ & first & Hfirst & Hdefault & Hdname & _).
  destruct (Dimension_init_inv _ _ _ _ _ _ _ _ _ _ _ _ _ _ Hinit)
    as (lvs & ld & maps & _ & Hlvs & Hld & _ & Hlevels & _ & _ & Hhd & _).
  rewrite Hnone in Hhd. rewrite (bool_decide_true ([] = [])) in Hhd by done.
  simpl in Hhd.
  assert (Hne : lvs <> []).
  { destruct Hlvs as [(_ & _ & l & _ & ->)|(_ & ? & ->)]; done. }
  destruct (object_dict_levels_ok lvs) as (ld' & Hld' & Hnd & Hkeyed & _ & Hne').
  rewrite Hld in Hld'. injection Hld' as <-. specialize (Hne' Hne).
  assert (Hnd' : NoDup (odict_keys (dim_levels_dict d)))
    by (by rewrite Hlevels, adopt_keys).
  assert (Hkeyed' : keyed_by level_name (dim_levels_dict d))
    by (rewrite Hlevels; by apply adopt_keyed).
  assert (Hnonempty : dim_levels_dict d <> []).
  { rewrite Hlevels. by destruct ld. }
  unfold Hierarchy_init in Hhd.
  rewrite bool_decide_false in Hhd.
  2: { unfold odict_values. by destruct (dim_levels_dict d). }
  apply bind_Ok in Hhd as (dflt & Hdflt & Hhd).
  apply bind_Ok in Hdflt as (hl & Hhl & Hdflt).
  unfold object_dict in Hhl.
  rewrite object_dict_into_distinct in Hhl.
  2: { simpl. by rewrite (keyed_by_names _ Hkeyed'). }
  simpl in Hhl. rewrite (keyed_pairs _ _ Hkeyed') in Hhl.
  injection Hhl as <-. injection Hdflt as <-.
  unfold object_dict in Hhd. simpl in Hhd.
  injection Hhd as Hhd. unfold dim_hierarchies in *.
  rewrite <- Hhd in Hfirst, Hdefault |- *. simpl in *.
  injection Hfirst as <-.
  assert (Hd : dim_default_hierarchy d
               = {| hier_name := "default"; hier_label := None;
                    hier_description := None; hier_info := None;
                    hier_levels_dict := dim_levels_dict d |}).
  { rewrite Hdefault. by case_decide. }
  rewrite Hdname, Hd. simpl. repeat split; try done.
  unfold Dimension_level_names. by destruct (dim_levels_dict d).
Qed.

Lemma Dimension_init_attributes_levels name levels hierarchies dhn label
    description info role cardinality category master nonadditive
    attributes d :
  default [] levels = [] ->
  Dimension_init attribute_ref name levels hierarchies dhn label description
    info role cardinality category master nonadditive attributes = Ok d ->
  exists l,
    Level_init name (default [] attributes) None None None None None None
               None None None None = Ok l
    /\ dim_levels_dict d
       = [(name, adopt_level name (default_roles_of role) l)]
    /\ dim_master d = master
    /\ dim_name d = name.
Proof.
  intros Hnone Hinit.
  destruct (Dimension_init_inv _ _ _ _ _ _ _ _ _ _ _ _ _ _ Hinit)
    as (lvs & ld & maps & _ & Hlvs & Hld & _ & Hlevels & _ & _ & _ & Hname
        & Hmaster & _).
  destruct Hlvs as [(Hattrs & _ & l & Hl & ->)|(_ & Hne & _)]; [|done].
  destruct (Level_init_plain _ _ _ Hl) as (Hlname & _ & _).
  unfold object_dict in Hld. simpl in Hld. injection Hld as <-.
  exists l. rewrite Hlevels. simpl. by rewrite Hlname.
Qed.

Lemma flat_dimension_details name role l d :
  dim_levels_dict d = [(name, adopt_level name (default_roles_of role) l)] ->
  dim_master d = None ->
  is_flat d = true
  /\ has_details d = bool_decide (1 < length (level_attributes l)).
Proof.
  intros Hlevels Hmaster.
  rewrite is_flat_unfold, has_details_unfold, Hmaster.
  unfold dim_levels. rewrite Hlevels. split; [done|]. simpl.
  unfold level_has_details. simpl.
  by rewrite length_fmap, orb_false_r.
Qed.

(** X14.  A dimension constructed from a flat list of attributes has one
    level, named after the dimension, whose attributes are the given ones,
    owned by the dimension, with the first as key; when it is not a clone
    it is flat, and it has details exactly when there is more than one
    attribute. *)
Theorem Dimension_init_from_attributes name levels hierarchies dhn label
    description info role cardinality category master nonadditive
    attributes d :
  default [] levels = [] ->
  Dimension_init attribute_ref name levels hierarchies dhn label description
    info role cardinality category master nonadditive attributes = Ok d ->
  exists level first,
    dim_levels d = [level]
    /\ level_name level = name
    /\ head (default [] attributes) = Some first
    /\ level_attributes level = own name <$> default [] attributes
    /\ level_key level = own name first
    /\ Dimension_level d name = Returns level
    /\ (master = None ->
        is_flat d = true
        /\ has_details d = bool_decide (1 < length (default [] attributes))).
Proof.
  intros Hnone Hinit.
  destruct (Dimension_init_attributes_levels _ _ _ _ _ _ _ _ _ _ _ _ _ _
              Hnone Hinit) as (l & Hl & Hlevels & Hmaster & Hname).
  destruct (Level_init_plain _ _ _ Hl) as (Hlname & Hlattrs & Hkey).
  exists (adopt_level name (default_roles_of role) l), (level_key l).
  split; [unfold dim_levels; by rewrite Hlevels|].
  split; [done|]. split; [done|].
  split; [by rewrite adopt_level_attributes, Hlattrs|].
  split; [done|]. split.
  - unfold Dimension_level. rewrite Hlevels. simpl.
    by rewrite decide_True.
  - intros ->. rewrite <- Hlattrs.
    by apply (flat_dimension_details name role).
Qed.

Lemma object_dict_distinct_get {V} (name_of : V -> string) message objects d :
  NoDup (name_of <$> objects) ->
  object_dict name_of message objects = Ok d ->
  odict_values d = objects
  /\ odict_keys d = name_of <$> objects
  /\ (forall obj, obj ∈ objects -> odict_get (name_of obj) d = Some obj).
Proof.
  intros Hnd Hd. unfold object_dict in Hd.
  rewrite object_dict_into_distinct in Hd by done.
  injection Hd as <-. simpl.
  assert (Hkeys : odict_keys ((fun obj => (name_of obj, obj)) <$> objects)
                  = name_of <$> objects).
  { unfold odict_keys. by rewrite <- list_fmap_compose. }
  split; [|split; [done|]].
  - unfold odict_values. rewrite <- list_fmap_compose. apply list_fmap_id.
  - intros obj Hin. apply NoDup_keys_get; [by rewrite Hkeys|].
    by apply (list_elem_of_fmap_2 (fun obj => (name_of obj, obj))).
Qed.

Lemma adopt_level_role self_name role l :
  level_role (adopt_level self_name (default_roles_of role) l)
  = if bool_decide (role = Some "time")
       && bool_decide (level_name l ∈ default_roles_of (Some "time"))
    then Some (level_name l) else level_role l.
Proof.
  unfold adopt_level. simpl.
  destruct (decide (role = Some "time")) as [->|Hrole].
  - by rewrite (bool_decide_true (Some "time" = Some "time")).
  - rewrite (bool_decide_false (role = Some "time")) by done.
    destruct role as [r|]; [|done]. unfold default_roles_of. simpl.
    by rewrite decide_False by congruence.
Qed.

(** X15.  A dimension constructed from levels of distinct names keeps them
    in their order; each is found under its name with its attributes owned
    by the dimension, and its role is its own name exactly when the
    dimension has the role "time" and the level one of the names of time
    units, and is what it was otherwise.  Any other name raises the key
    error. *)
Theorem Dimension_init_from_levels name levels hierarchies dhn label
    description info role cardinality category master nonadditive
    attributes d :
  default [] attributes = [] ->
  NoDup (level_name <$> default [] levels) ->
  Dimension_init attribute_ref name levels hierarchies dhn label description
    info role cardinality category master nonadditive attributes = Ok d ->
  Dimension_level_names d = level_name <$> default [] levels
  /\ length (dim_levels d) = length (default [] levels)
  /\ (forall l, l ∈ default [] levels ->
        exists l',
          Dimension_level d (level_name l) = Returns l'
          /\ level_name l' = level_name l
          /\ level_attributes l' = own name <$> level_attributes l
          /\ level_key l' = own name (level_key l)
          /\ level_role l'
             = if bool_decide (role = Some "time")
                  && bool_decide
                       (level_name l ∈ default_roles_of (Some "time"))
               then Some (level_name l) else level_role l)
  /\ (forall n, n ∉ level_name <$> default [] levels ->
        Dimension_level d n
        = Raises (KeyError ("No level " +:+ n +:+ " in dimension "
                            +:+ name))).
Proof.
  intros Hnone Hnd Hinit.
  destruct (Dimension_init_inv _ _ _ _ _ _ _ _ _ _ _ _ _ _ Hinit)
    as (lvs & ld & maps & _ & Hlvs & Hld & _ & Hlevels & _ & _ & _ & Hname
        & _).
  destruct Hlvs as [(Hattrs & _)|(_ & Hne & ->)]; [done|].
  destruct (object_dict_distinct_get _ _ _ _ Hnd Hld)
    as (Hvalues & Hkeys & Hget).
  unfold Dimension_level_names, Dimension_level, dim_levels.
  rewrite Hlevels, adopt_keys, adopt_values, Hvalues, Hkeys, length_fmap, Hname.
  split; [done|]. split; [done|]. split.
  - intros l Hl. exists (adopt_level name (default_roles_of role) l).
    rewrite odict_get_adopt, (Hget l Hl).
    split; [done|]. split; [done|]. split; [done|]. split; [done|].
    apply adopt_level_role.
  - intros n Hn. rewrite odict_get_adopt.
    assert (Hnone' : odict_get n ld = None).
    { apply odict_get_None. by rewrite Hkeys. }
    by rewrite Hnone'.
Qed.


End DimensionInitFacts.

(** ** Splitting strings *)

Section SplitFacts.

Lemma join_cons sep piece rest :
  rest <> [] ->
  join sep (piece :: rest) = piece +:+ String sep (join sep rest).
Proof. by destruct rest. Qed.

(** [sep.join(s.split(sep))] is [s]. *)
Lemma join_split_on sep s : join sep (split_on sep s) = s.
Proof.
  induction s as [|c s IH]; [done|]. simpl.
  pose proof (split_on_nonempty sep s) as Hne.
  case_decide as Hc.
  - subst c. rewrite join_cons by done. by rewrite append_empty_l, IH.
  - destruct (split_on sep s) as [|piece rest]; [done|].
    destruct rest as [|next rest].
    + simpl in *. by rewrite IH.
    + rewrite join_cons by done. rewrite join_cons in IH by done.
      by rewrite append_cons, IH.
Qed.

Lemma split_on_pieces sep s :
  Forall (fun piece => occurs sep piece = false) (split_on sep s).
Proof.
  induction s as [|c s IH]; simpl; [by repeat constructor|].
  case_decide as Hc.
  - by constructor.
  - pose proof (split_on_nonempty sep s) as Hne.
    destruct (split_on sep s) as [|piece rest]; [done|].
    apply Forall_cons in IH as [Hp Hrest]. constructor; [|done].
    simpl. by rewrite bool_decide_false.
Qed.

Lemma length_split_on sep s :
  length (split_on sep s) = S (count_char sep s).
Proof.
  induction s as [|c s IH]; simpl; [done|].
  case_decide as Hc.
  - rewrite bool_decide_true by done. simpl. by rewrite IH.
  - rewrite bool_decide_false by done.
    pose proof (split_on_nonempty sep s) as Hne.
    destruct (split_on sep s) as [|piece rest]; [done|].
    simpl in *. lia.
Qed.

End SplitFacts.

(** ** Extensions *)

Section ExtFacts.
Import Ext.

Variable load_attribute : string -> string -> result Factory.

Lemma _get_cached self name ext :
  extensions self !! name = Some ext ->
  _get load_attribute self name = Ok (ext, self).
Proof. intros Hc. unfold _get. by rewrite Hc. Qed.

Lemma _get_builtin self name path modname attr :
  extensions self !! name = None ->
  odict_get name (builtins self) = Some path ->
  split_on ":" path = [modname; attr] ->
  _get load_attribute self name
  = load_attribute modname attr
      ≫= fun f =>
           let ext := set_factory (_Extension_init (type_ self) name) f in
           Ok (ext, {| type_ := type_ self; group := group self;
                       extensions := <[name := ext]> (extensions self);
                       builtins := builtins self |}).
Proof.
  intros Hc Hb Hsplit. unfold _get, builtin. rewrite Hc, Hb, Hsplit.
  by destruct (load_attribute modname attr).
Qed.

Lemma _get_Ok self name ext self' :
  _get load_attribute self name = Ok (ext, self') ->
  (extensions self !! name = Some ext /\ self' = self)
  \/ (extensions self !! name = None
      /\ exists path modname attr f,
           odict_get name (builtins self) = Some path
           /\ split_on ":" path = [modname; attr]
           /\ load_attribute modname attr = Ok f
           /\ ext = set_factory (_Extension_init (type_ self) name) f
           /\ self' = {| type_ := type_ self; group := group self;
                         extensions := <[name := ext]> (extensions self);
                         builtins := builtins self |}).
Proof.
  unfold _get. destruct (extensions self !! name) as [ext0|] eqn:Hc.
  - simpl. intros [= <- <-]. by left.
  - intros Hget. right. split; [done|]. unfold builtin in Hget.
    destruct (odict_get name (builtins self)) as [path|]; [|discriminate].
    destruct (split_on ":" path) as [|modname [|attr [|? ?]]] eqn:Hsplit;
      try discriminate.
    destruct (load_attribute modname attr) as [f|e] eqn:Hload;
      [|discriminate].
    simpl in Hget. injection Hget as <- <-.
    by exists path, modname, attr, f.
Qed.

End ExtFacts.

Section ExtProperties.
Import Ext.

(** X17.  An extension that was found is cached under its name: a later
    lookup of the name returns the same extension without importing
    anything, whatever the import system would answer then, and the
    other entries of the cache, the type and the table of builtins are
    not touched. *)
Theorem _get_caches_the_extension
    (load_attribute later : string -> string -> result Factory)
    self name ext self' :
  _get load_attribute self name = Ok (ext, self') ->
  extensions self' !! name = Some ext
  /\ _get later self' name = Ok (ext, self')
  /\ factory later self' name = Ok (ext_factory ext, self')
  /\ (forall other, other <> name ->
        extensions self' !! other = extensions self !! other)
  /\ type_ self' = type_ self
  /\ group self' = group self
  /\ builtins self' = builtins self.
Proof.
  intros Hget.
  assert (Hcached : extensions self' !! name = Some ext
                    /\ (forall other, other <> name ->
                          extensions self' !! other
                          = extensions self !! other)
                    /\ type_ self' = type_ self
                    /\ group self' = group self
                    /\ builtins self' = builtins self).
  { apply _get_Ok in Hget
      as [[Hc ->]|(Hc & path & modname & attr & f & _ & _ & _ & _ & ->)].
    - done.
    - simpl. rewrite lookup_insert_eq. split; [done|].
      split; [|done]. intros other Hne. by rewrite lookup_insert_ne. }
  destruct Hcached as (Hc & Hothers & Htype & Hgroup & Hbuiltins).
  pose proof (_get_cached later _ _ _ Hc) as Hagain.
  split; [done|]. split; [done|]. split; [|done].
  unfold factory. by rewrite Hagain.
Qed.

Lemma builtin_paths :
  Forall (fun self =>
            Forall (fun entry => length (split_on ":" entry.2) = 2)
                   (builtins self))
         registries.
Proof. by_computation. Qed.

(** X18.  In each registry of ext.py every builtin name stands for one
    module and one attribute, joined by a colon.  The first lookup of
    such a name imports that attribute and returns an extension of the
    registry's type with it as factory; it fails only as the import
    fails, so unpacking the path never does. *)
Theorem builtin_names_load
    (load_attribute : string -> string -> result Factory)
    self name path :
  self ∈ registries ->
  odict_get name (builtins self) = Some path ->
  exists modname attr,
    path = modname +:+ ":" +:+ attr
    /\ occurs ":" modname = false /\ occurs ":" attr = false
    /\ (forall f,
          load_attribute modname attr = Ok f ->
          exists ext self',
            _get load_attribute self name = Ok (ext, self')
            /\ ext_type_ ext = type_ self /\ ext_name ext = name
            /\ ext_factory ext = Some f)
    /\ (forall e,
          load_attribute modname attr = Err e ->
          _get load_attribute self name = Err e).
Proof.
  intros Hself Hpath.
  pose proof builtin_paths as Hall.
  rewrite Forall_forall in Hall. specialize (Hall self Hself).
  rewrite Forall_forall in Hall.
  specialize (Hall (name, path) (odict_get_elem_of _ _ _ Hpath)).
  simpl in Hall.
  destruct (split_on ":" path) as [|modname [|attr [|? ?]]] eqn:Hsplit;
    try discriminate.
  exists modname, attr.
  pose proof (split_on_pieces ":" path) as Hpieces.
  rewrite Hsplit in Hpieces.
  apply Forall_cons in Hpieces as [Hm Hpieces].
  apply Forall_cons in Hpieces as [Ha _].
  pose proof (join_split_on ":" path) as Hjoin.
  rewrite Hsplit in Hjoin. simpl in Hjoin.
  split; [done|]. split; [done|]. split; [done|].
  assert (Hc : extensions self !! name = None).
  { repeat (apply elem_of_cons in Hself as [->|Hself]; [done|]).
    by apply elem_of_nil in Hself. }
  rewrite (_get_builtin load_attribute self name path modname attr)
    by done.
  split.
  - intros f ->. simpl. eauto 10.
  - by intros e ->.
Qed.

(** X19.  [set_factory] keeps one entry for each option name, that of the
    last option of that name, and records its type, "string" when none
    is declared.  The options of an earlier factory are forgotten but
    their types are kept, unless the new factory has an option of the
    same name. *)
Theorem set_factory_option_types ext f k :
  let options := default [] (factory_options f) in
  odict_get k (ext_options (set_factory ext f)) = last_with fst k options
  /\ odict_get k (ext_option_types (set_factory ext f))
     = match last_with fst k options with
       | Some o => Some (default "string" o.2)
       | None => odict_get k (ext_option_types ext)
       end
  /\ NoDup (odict_keys (ext_options (set_factory ext f)))
  /\ (forall n, n ∈ odict_keys (ext_options (set_factory ext f))
                <-> n ∈ options.*1)
  /\ ext_factory (set_factory ext f) = Some f
  /\ ext_name (set_factory ext f) = ext_name ext
  /\ ext_type_ (set_factory ext f) = ext_type_ ext.
Proof.
  unfold set_factory. simpl.
  set (options := default [] (factory_options f)).
  split; [|split; [|split; [|split]]]; try done.
  - rewrite (foldl_odict_set_get fst id).
    by destruct (last_with fst k options).
  - by rewrite (foldl_odict_set_get fst (fun o => default "string" o.2)).
  - apply (foldl_odict_set_NoDup fst id). apply NoDup_nil_2.
  - intros n. rewrite (foldl_odict_set_keys fst id).
    unfold odict_keys at 1. simpl. rewrite elem_of_nil. tauto.
Qed.

End ExtProperties.

(** ** SQL expressions *)

Section SameOutcome.
Context {A B : Type}.

Lemma same_outcome_refl (r : result A) : same_outcome r r.
Proof. by destruct r. Qed.

Lemma same_outcome_eq (r1 r2 : result A) : r1 = r2 -> same_outcome r1 r2.
Proof. intros ->. apply same_outcome_refl. Qed.

Lemma same_outcome_bind (r1 r2 : result A) (f g : A -> result B) :
  same_outcome r1 r2 ->
  (forall a, same_outcome (f a) (g a)) ->
  same_outcome (r1 ≫= f) (r2 ≫= g).
Proof.
  destruct r1 as [a1|e1], r2 as [a2|e2]; simpl; try done.
  intros -> Hfg. apply Hfg.
Qed.

Lemma same_outcome_Ok (r1 r2 : result A) a :
  same_outcome r1 r2 -> r1 = Ok a -> r2 = Ok a.
Proof. destruct r1, r2; simpl; try done. by intros -> [= ->]. Qed.

End SameOutcome.

Section CompileFacts.
Import SqlExpressions.

Lemma resolve_agree c1 c2 name :
  columns c1 !! name = columns c2 !! name ->
  parameters c1 !! name = parameters c2 !! name ->
  same_outcome (resolve c1 name) (resolve c2 name)
  /\ (label c1 = label c2 -> resolve c1 name = resolve c2 name).
Proof.
  unfold resolve. intros -> ->.
  destruct (columns c2 !! name); [done|].
  destruct (parameters c2 !! name); [done|].
  case_bool_decide; [done|]. split; [done|]. by intros ->.
Qed.

Lemma compile_agree e :
  forall c1 c2,
    (forall v, v ∈ variables e ->
               columns c1 !! v = columns c2 !! v
               /\ parameters c1 !! v = parameters c2 !! v) ->
    same_outcome (compile e c1) (compile e c2)
    /\ (label c1 = label c2 -> compile e c1 = compile e c2).
Proof.
  induction e as [v|name|operator lhs rhs IHl IHr|operator operand IHo
                 |name args IHargs] using expr_nested_ind;
    intros c1 c2 Hagree.
  - done.
  - simpl. unfold compile_variable.
    destruct (Hagree name) as [Hc Hp]; [simpl; left|].
    by apply resolve_agree.
  - simpl in *.
    destruct (IHl c1 c2) as [Hl Hl'].
    { intros v Hv. apply Hagree, elem_of_app. auto. }
    destruct (IHr c1 c2) as [Hr Hr'].
    { intros v Hv. apply Hagree, elem_of_app. auto. }
    split.
    + apply same_outcome_bind; [done|]. intros op1.
      apply same_outcome_bind; [done|]. intros op2.
      apply same_outcome_refl.
    + intros Hlabel. by rewrite Hl', Hr'.
  - simpl in *. destruct (IHo c1 c2 Hagree) as [Ho Ho']. split.
    + apply same_outcome_bind; [done|]. intros x. apply same_outcome_refl.
    + intros Hlabel. by rewrite Ho'.
  - rewrite !compile_Function.
    assert (Hlist : same_outcome (compile_list args c1) (compile_list args c2)
                    /\ (label c1 = label c2 ->
                        compile_list args c1 = compile_list args c2)).
    { simpl in Hagree.
      induction IHargs as [|a rest IHa _ IHrest]; [done|].
      simpl in Hagree.
      destruct (IHa c1 c2) as [Ha Ha'].
      { intros v Hv. apply Hagree, elem_of_app. auto. }
      destruct IHrest as [Hrest Hrest'].
      { intros v Hv. apply Hagree, elem_of_app. auto. }
      simpl. split.
      - apply same_outcome_bind; [done|]. intros x.
        apply same_outcome_bind; [done|]. intros xs.
        apply same_outcome_refl.
      - intros Hlabel. by rewrite Ha', Hrest'. }
    destruct Hlist as [Hlist Hlist']. split.
    + apply same_outcome_bind; [done|]. intros xs. apply same_outcome_refl.
    + intros Hlabel. by rewrite Hlist'.
Qed.

Lemma compile_add_column e context name column :
  name ∉ variables e ->
  compile e (add_column context name column) = compile e context.
Proof.
  intros Hname. apply compile_agree; [|done].
  intros v Hv. simpl. split; [|done].
  apply lookup_insert_ne. by intros ->.
Qed.

End CompileFacts.

Section CompileProperties.
Import SqlExpressions.

(** X20.  The compilation of an expression reads the context only at the
    names the expression mentions: in two contexts that have the same
    columns and parameters under those names it succeeds together and with
    the same result, and fails with the same error when the labels of the
    contexts are the same too.  So a column added under a name that the
    expression does not mention changes nothing. *)
Theorem compile_reads_its_variables e c1 c2 :
  (forall v, v ∈ variables e ->
             columns c1 !! v = columns c2 !! v
             /\ parameters c1 !! v = parameters c2 !! v) ->
  same_outcome (compile e c1) (compile e c2)
  /\ (label c1 = label c2 -> compile e c1 = compile e c2)
  /\ (forall name column,
        name ∉ variables e ->
        compile e (add_column c1 name column) = compile e c2
        <-> compile e c1 = compile e c2).
Proof.
  intros Hagree.
  destruct (compile_agree e c1 c2 Hagree) as [Hsame Heq].
  split; [done|]. split; [done|].
  intros name column Hname. by rewrite compile_add_column.
Qed.

End CompileProperties.

Section CompileAttributesProperties.
Import SqlExpressions.

Variable aggregate_function :
  string -> Dependant -> SQLExpressionContext -> option bool -> result sql.

Lemma compile_attribute_plain coalesce context attr :
  truthy (dep_function attr) = false ->
  compile_attribute aggregate_function coalesce context attr
  = compile (dep_expression attr) context
      ≫= fun column => Ok (add_column context (dep_ref attr) column).
Proof. intros Hfun. unfold compile_attribute. by rewrite Hfun. Qed.

Lemma add_column_commute context n1 c1 n2 c2 :
  n1 <> n2 ->
  add_column (add_column context n1 c1) n2 c2
  = add_column (add_column context n2 c2) n1 c1.
Proof.
  intros Hne. unfold add_column. simpl. f_equal.
  by apply insert_insert_ne.
Qed.

Lemma compile_pair_commute coalesce context x y :
  truthy (dep_function x) = false ->
  truthy (dep_function y) = false ->
  dep_ref x <> dep_ref y ->
  dep_ref x ∉ variables (dep_expression y) ->
  dep_ref y ∉ variables (dep_expression x) ->
  same_outcome
    (compile_attribute aggregate_function coalesce context x
       ≫= fun context' =>
             compile_attribute aggregate_function coalesce context' y)
    (compile_attribute aggregate_function coalesce context y
       ≫= fun context' =>
             compile_attribute aggregate_function coalesce context' x).
Proof.
  intros Hx Hy Hne Hxy Hyx.
  rewrite (compile_attribute_plain _ context x Hx),
    (compile_attribute_plain _ context y Hy).
  destruct (compile (dep_expression x) context) as [cx|ex] eqn:Hcx;
    destruct (compile (dep_expression y) context) as [cy|ey] eqn:Hcy;
    simpl;
    rewrite ?(compile_attribute_plain _ _ x Hx),
      ?(compile_attribute_plain _ _ y Hy),
      ?compile_add_column, ?Hcx, ?Hcy by done; simpl; try done.
  by apply add_column_commute.
Qed.

Lemma compile_loop_keys coalesce dependants :
  forall context context',
    compile_loop aggregate_function coalesce context dependants
      = Ok context' ->
    forall k, is_Some (columns context' !! k)
              <-> is_Some (columns context !! k)
                  \/ k ∈ dep_ref <$> dependants.
Proof.
  induction dependants as [|attr rest IH]; intros context context' Hok k;
    simpl in Hok.
  - injection Hok as <-. rewrite fmap_nil, elem_of_nil. tauto.
  - apply bind_Ok in Hok as (context1 & H1 & Hrest).
    apply compile_attribute_Ok in H1 as (column0 & -> & _).
    rewrite (IH _ _ Hrest k), fmap_cons, elem_of_cons. simpl.
    destruct (decide (k = dep_ref attr)) as [->|Hne].
    + rewrite lookup_insert_eq. split; [auto|]. intros _. left. eauto.
    + rewrite lookup_insert_ne by done. split; [tauto|].
      intros [?|[?|?]]; auto. done.
Qed.

(** X21.  Two dependants next to each other that are no aggregates, have
    different references and do not mention each other can be given in
    either order: [compile_attributes] succeeds for both orders or for
    neither, and with the same columns. *)
Theorem independent_dependants_commute bases pre x y post parameters
    coalesce label :
  truthy (dep_function x) = false ->
  truthy (dep_function y) = false ->
  dep_ref x <> dep_ref y ->
  dep_ref x ∉ variables (dep_expression y) ->
  dep_ref y ∉ variables (dep_expression x) ->
  same_outcome
    (compile_attributes aggregate_function bases (pre ++ x :: y :: post)
       parameters coalesce label)
    (compile_attributes aggregate_function bases (pre ++ y :: x :: post)
       parameters coalesce label).
Proof.
  intros Hx Hy Hne Hxy Hyx. unfold compile_attributes.
  apply same_outcome_bind; [|intros; apply same_outcome_refl].
  rewrite !compile_loop_app.
  apply same_outcome_bind; [apply same_outcome_refl|].
  intros context.
  assert (Hassoc : forall a b,
             compile_loop aggregate_function coalesce context (a :: b :: post)
             = (compile_attribute aggregate_function coalesce context a
                  ≫= fun context' =>
                        compile_attribute aggregate_function coalesce
                          context' b)
                 ≫= fun context' =>
                       compile_loop aggregate_function coalesce context'
                         post).
  { intros a b. simpl.
    by destruct (compile_attribute aggregate_function coalesce context a). }
  rewrite !Hassoc.
  apply same_outcome_bind; [by apply compile_pair_commute|].
  intros ?. apply same_outcome_refl.
Qed.

(** X22.  The columns that [compile_attributes] returns are the bases and
    one column for each reference of a dependant.  A base that no
    dependant has the reference of is returned as it was given; under
    the reference of a dependant that is no aggregate and is the last of
    that reference is its expression, compiled in the context of the
    dependants before it. *)
Theorem compile_attributes_columns bases dependants parameters coalesce
    label cols :
  compile_attributes aggregate_function bases dependants parameters
    coalesce label = Ok cols ->
  (forall k, is_Some (cols !! k)
             <-> is_Some (default ∅ bases !! k)
                 \/ k ∈ dep_ref <$> dependants)
  /\ (forall k, k ∉ dep_ref <$> dependants ->
                cols !! k = default ∅ bases !! k)
  /\ (forall pre x post,
        dependants = pre ++ x :: post ->
        dep_ref x ∉ dep_ref <$> post ->
        truthy (dep_function x) = false ->
        exists context,
          compile_loop aggregate_function coalesce
            (SQLExpressionContext_init bases parameters label) pre
          = Ok context
          /\ compile (dep_expression x) context ≫= (fun c => Ok (Some c))
             = Ok (cols !! dep_ref x)).
Proof.
  unfold compile_attributes. intros Hok.
  apply bind_Ok in Hok as (context' & Hloop & Hok). injection Hok as <-.
  split; [|split].
  - intros k. by rewrite (compile_loop_keys _ _ _ _ Hloop k).
  - intros k Hk.
    destruct (compile_loop_context _ _ _ _ _ Hloop) as (_ & _ & Hsame).
    by apply Hsame.
  - intros pre x post -> Hlast Hfun.
    rewrite compile_loop_app in Hloop.
    apply bind_Ok in Hloop as (context & Hpre & Hloop).
    exists context. split; [done|]. simpl in Hloop.
    apply bind_Ok in Hloop as (context1 & Hx & Hpost).
    apply compile_attribute_Ok in Hx as (column0 & -> & _ & Hc).
    rewrite (Hc Hfun). simpl.
    destruct (compile_loop_context _ _ _ _ _ Hpost) as (_ & _ & Hsame).
    rewrite (Hsame _ Hlast). simpl. by rewrite lookup_insert_eq.
Qed.

End CompileAttributesProperties.

(** ** Mappers *)

Section MapperProperties.
Import Metadata MetadataOps SqlMapper.

Context {Physical : Type}.
Variable attribute_ref : Attribute -> string.
Variable is_localizable : AttributeBase -> bool.

Lemma attribute_locale_Ok (self : Mapper Physical) attribute l :
  attribute_locale self attribute = Ok l -> l ∈ locales attribute.
Proof.
  unfold attribute_locale.
  assert (Hfirst : py_index (locales attribute) 0 = Ok l ->
                   l ∈ locales attribute).
  { destruct (locales attribute) as [|first rest]; [discriminate|].
    intros [= <-]. left. }
  destruct (locale self) as [l0|]; [|done].
  case_bool_decide; [|done]. by intros [= <-].
Qed.

Lemma attribute_locale_Err (self : Mapper Physical) attribute e :
  attribute_locale self attribute = Err e ->
  locales attribute = [] /\ e = IndexError "list index out of range".
Proof.
  unfold attribute_locale.
  assert (Hfirst : py_index (locales attribute) 0 = Err e ->
                   locales attribute = []
                   /\ e = IndexError "list index out of range").
  { destruct (locales attribute) as [|first rest]; [|discriminate].
    by intros [= <-]. }
  destruct (locale self) as [l0|]; [|done].
  case_bool_decide; [discriminate | done].
Qed.

(** X23.  The implicit lookup of a mapper fails in one case only: for a
    localizable attribute without locales, with the index error.
    Otherwise it returns a reference in the table of the attribute, to
    the column of the attribute's name, which for a localizable attribute
    is followed by an underscore and one of the locales of the attribute. *)
Theorem implicit_lookup_outcome (self : Mapper Physical) attribute :
  (is_localizable attribute = true -> locales attribute = [] ->
   Mapper_getitem is_localizable self attribute
   = Err (IndexError "list index out of range"))
  /\ (forall e,
        Mapper_getitem is_localizable self attribute = Err e ->
        is_localizable attribute = true /\ locales attribute = []
        /\ e = IndexError "list index out of range")
  /\ (forall reference,
        Mapper_getitem is_localizable self attribute = Ok reference ->
        (schema reference, table reference) = attribute_table self attribute
        /\ (is_localizable attribute = false ->
            column reference = name attribute)
        /\ (is_localizable attribute = true ->
            exists l, l ∈ locales attribute
                      /\ column reference = name attribute +:+ "_" +:+ l))
  /\ (expression attribute = None ->
      DenormalizedMapper_getitem is_localizable self attribute
      = Mapper_getitem is_localizable self attribute).
Proof.
  unfold DenormalizedMapper_getitem, Mapper_getitem.
  destruct (attribute_table self attribute) as [schema0 table0].
  split; [|split; [|split]].
  - intros -> Hnone. unfold attribute_locale. rewrite Hnone.
    destruct (locale self) as [l0|]; [|done].
    by rewrite bool_decide_false by apply not_elem_of_nil.
  - intros e. destruct (is_localizable attribute); [|discriminate].
    destruct (attribute_locale self attribute) as [l|e0] eqn:Hl;
      [discriminate|].
    intros [= <-]. by apply attribute_locale_Err in Hl as [? ?].
  - intros reference. destruct (is_localizable attribute).
    + destruct (attribute_locale self attribute) as [l|e0] eqn:Hl;
        [|discriminate].
      intros [= <-]. simpl. split; [done|]. split; [discriminate|].
      intros _. exists l. split; [|done]. by eapply attribute_locale_Ok.
    + intros [= <-]. simpl. split; [done|]. split; [done | discriminate].
  - by intros ->.
Qed.

(** X24.  An attribute of a dimension that was constructed from a list of
    attributes, and is no clone, is looked for in the fact table when the
    list had one attribute, and in the table of the dimension, named with
    the prefix and the suffix for dimensions, when it had more. *)
Theorem attribute_table_of_flat_dimension (self : Mapper Physical)
    attribute dim_name0 levels hierarchies dhn label description info role
    cardinality category nonadditive attributes d :
  default [] levels = [] ->
  Dimension_init attribute_ref dim_name0 levels hierarchies dhn label
    description info role cardinality category None nonadditive attributes
  = Ok d ->
  dimension attribute = Some d ->
  attribute_table self attribute
  = (py_or_opt (dimension_schema self) (self_schema self),
     if bool_decide (length (default [] attributes) = 1)
     then fact_name self
     else py_or (dimension_prefix self) "" +:+ dim_name0
          +:+ py_or (dimension_suffix self) "").
Proof.
  intros Hnone Hinit Hdim.
  destruct (Dimension_init_attributes_levels _ _ _ _ _ _ _ _ _ _ _ _ _ _ _
              Hnone Hinit) as (l & Hl & Hlevels & Hmaster & Hname).
  destruct (Level_init_plain _ _ _ Hl) as (_ & Hlattrs & Hfirst).
  destruct (flat_dimension_details _ _ _ _ Hlevels Hmaster) as [Hf Hd].
  rewrite Hlattrs in Hd.
  unfold attribute_table, dimension_table_name.
  rewrite Hdim, Hf, Hd, Hname. f_equal.
  destruct (default [] attributes) as [|a0 [|a1 rest]]; [done|done|].
  rewrite (bool_decide_true (1 < _)) by (simpl; lia).
  by rewrite (bool_decide_false (_ = 1)) by (simpl; lia).
Qed.

End MapperProperties.

Section NamingProperties.
Import Naming.

Lemma odict_get_filter {V} (P : string -> Prop) `{!forall k, Decision (P k)}
    (d : list (string * V)) k :
  odict_get k (filter (fun kv => P kv.1) d)
  = if decide (P k) then odict_get k d else None.
Proof.
  induction d as [|[k0 v0] d IH]; [by destruct (decide (P k))|].
  rewrite filter_cons. simpl. destruct (decide (P k0)) as [Hk0|Hk0]; simpl.
  - destruct (decide (k = k0)) as [->|Hne]; [by rewrite decide_True|].
    apply IH.
  - rewrite IH. destruct (decide (P k)) as [Hk|Hk]; [|done].
    rewrite decide_False; [done|]. by intros ->.
Qed.

(** X25.  [distill_naming] keeps, in their order, the items under the
    keys of [NAMING_DEFAULTS] and nothing else; distilling again changes
    nothing.  A naming option reads the same from the distilled
    dictionary as from the given one, and any other key reads as [None]
    from it. *)
Theorem distill_naming_keeps_naming_keys
    (dictionary : list (string * naming_value)) :
  distill_naming (distill_naming dictionary) = distill_naming dictionary
  /\ (forall k v, (k, v) ∈ distill_naming dictionary
                  <-> (k, v) ∈ dictionary
                      /\ k ∈ odict_keys NAMING_DEFAULTS)
  /\ distill_naming dictionary `sublist_of` dictionary
  /\ (forall k, k ∈ odict_keys NAMING_DEFAULTS ->
                _naming_default (distill_naming dictionary) k
                = _naming_default dictionary k)
  /\ (forall k, k ∉ odict_keys NAMING_DEFAULTS ->
                _naming_default (distill_naming dictionary) k = NNone).
Proof.
  unfold distill_naming, _naming_default.
  split; [|split; [|split; [|split]]].
  - apply list_filter_filter_l. by intros [k v].
  - intros k v. rewrite list_elem_of_filter. simpl. tauto.
  - apply sublist_filter.
  - intros k Hk.
    pose proof (odict_get_filter (fun k => k ∈ odict_keys NAMING_DEFAULTS)
                  dictionary k) as Hget.
    cbv beta in Hget. rewrite Hget. by rewrite decide_True.
  - intros k Hk.
    pose proof (odict_get_filter (fun k => k ∈ odict_keys NAMING_DEFAULTS)
                  dictionary k) as Hget.
    cbv beta in Hget. rewrite Hget. rewrite decide_False by done.
    assert (Hnone : odict_get k NAMING_DEFAULTS = None)
      by (by apply odict_get_None).
    by rewrite Hnone.
Qed.

End NamingProperties.

(** ** The arguments of a request *)

Section RequestProperties.
Import Server ServerLog.




Lemma drilldown_bind args :
  drilldown args = getlist args "drilldown" ≫= split_on "|".
Proof.
  unfold drilldown.
  assert (Hfold : forall l acc,
             foldl (fun drilldown ddstring =>
                      drilldown ++ split_on "|" ddstring) acc l
             = acc ++ (l ≫= split_on "|")).
  { induction l as [|x l IH]; intros acc; simpl.
    - by rewrite app_nil_r.
    - by rewrite IH, app_assoc. }
  case_bool_decide as Hempty; [by rewrite Hempty|]. by rewrite Hfold.
Qed.

Lemma join_app sep (l1 l2 : list string) :
  l1 <> [] -> l2 <> [] ->
  join sep (l1 ++ l2) = join sep l1 +:+ String sep (join sep l2).
Proof.
  intros Hl1 Hl2. induction l1 as [|piece rest IH]; [done|].
  destruct rest as [|next rest].
  - simpl. by destruct l2.
  - change ((piece :: next :: rest) ++ l2)
      with (piece :: ((next :: rest) ++ l2)).
    rewrite !join_cons by done. rewrite IH by done.
    generalize (join sep (next :: rest)). intros t.
    clear. induction piece as [|c piece IH]; simpl.
    + by rewrite !append_empty_l, append_cons.
    + by rewrite !append_cons, IH.
Qed.

(** X27.  The drill-down that is logged is the values of [drilldown],
    each cut at its bars and put one after the other: no item contains a
    bar, each value gives one item more than it has bars, and joining the
    items with bars gives the values joined with bars. *)
Theorem drilldown_items args :
  drilldown args = getlist args "drilldown" ≫= split_on "|"
  /\ Forall (fun item => occurs "|" item = false) (drilldown args)
  /\ length (drilldown args)
     = sum_list ((fun ddstring => S (count_char "|" ddstring))
                   <$> getlist args "drilldown")
  /\ join "|" (drilldown args) = join "|" (getlist args "drilldown").
Proof.
  rewrite drilldown_bind. split; [done|].
  induction (getlist args "drilldown") as [|dd rest (IHf & IHl & IHj)];
    [done|].
  rewrite bind_cons. split; [|split].
  - apply Forall_app. split; [apply split_on_pieces | done].
  - by rewrite length_app, length_split_on, IHl.
  - destruct rest as [|next rest].
    + change ([] ≫= split_on "|") with (@nil string).
      rewrite app_nil_r. apply join_split_on.
    + rewrite join_app.
      * rewrite IHj, join_split_on.
        by rewrite (join_cons _ dd (next :: rest)).
      * apply split_on_nonempty.
      * rewrite bind_cons. pose proof (split_on_nonempty "|" next).
        by destruct (split_on "|" next).
Qed.

End RequestProperties.

(** * The properties at sample values *)

Section SampleFacts.
Import Metadata MetadataOps Samples MoreSamples.

Lemma keyed_by_Forall {V} (name_of : V -> string) (d : list (string * V)) :
  Forall (fun kv => name_of kv.2 = kv.1) d -> keyed_by name_of d.
Proof.
  intros Hall k v Hin. rewrite Forall_forall in Hall.
  exact (Hall (k, v) Hin).
Qed.

Lemma ymd_keyed : keyed_by level_name (hier_levels_dict ymd).
Proof. apply keyed_by_Forall. by_computation. Qed.

Lemma ymd_wf : hier_wf ymd.
Proof. split; [by_computation | apply ymd_keyed]. Qed.

Lemma ymd_levels_wf : forall l, l ∈ hier_levels ymd -> level_wf l.
Proof.
  apply Forall_forall. repeat constructor.
Qed.

End SampleFacts.

Section HierarchyWitnesses.
Import Metadata MetadataOps Samples MoreSamples.

Lemma next_previous_level_witness :
  exists l0,
    previous_level ymd (Some quarter) = Ok (Some l0)
    /\ level_name l0 = "year"
    /\ Hierarchy_getitem ymd "year" = Returns l0.
Proof.
  destruct (next_previous_level ymd ymd_wf) as (Hnext & _).
  exact (Hnext year quarter ltac:(vm_compute; reflexivity)).
Defined.

Lemma level_lookups_agree_witness :
  hier_level_names ymd !! 1 = Some "quarter"
  /\ 1 < length (hier_levels ymd).
Proof.
  destruct (level_lookups_agree ymd "quarter" ymd_keyed)
    as (_ & _ & _ & Hindex & _).
  exact (Hindex 1 ltac:(vm_compute; reflexivity)).
Defined.

Lemma Level_init_members_witness :
  exists l,
    Level_init "month" [month_number; month_name] (Some "month") None None
      (Some "month_name") None None None None None None = Ok l
    /\ level_wf l
    /\ attr_name (level_label_attribute l) = "month_name".
Proof.
  destruct (Level_init "month" [month_number; month_name] (Some "month")
              None None (Some "month_name") None None None None None None)
    as [l|e] eqn:Hinit; [|vm_compute in Hinit; discriminate].
  exists l. split; [reflexivity|].
  destruct (Level_init_members _ _ _ _ _ _ _ _ _ _ _ _ _ Hinit)
    as (Hwf & _ & _ & _ & Hlabel & _).
  split; [exact Hwf | exact (Hlabel eq_refl)].
Defined.

Lemma key_attributes_in_all_attributes_witness :
  key_attributes ymd ⊆ all_attributes ymd
  /\ length (key_attributes ymd) = hier_len ymd.
Proof.
  exact (proj2 (key_attributes_in_all_attributes ymd ymd_levels_wf)).
Defined.

End HierarchyWitnesses.

Section DimensionWitnesses.
Import Metadata MetadataOps Samples MoreSamples.

Lemma Dimension_init_owns_attributes_witness :
  exists d,
    Dimension_init dotted_ref "date" (Some [year; quarter; month])
      (Some [ymd]) None None None None None None None None None None = Ok d
    /\ forall l, l ∈ dim_levels d ->
                 attr_dimension (level_key l) = Some "date".
Proof.
  destruct (Dimension_init dotted_ref "date" (Some [year; quarter; month])
              (Some [ymd]) None None None None None None None None None
              None) as [d|e] eqn:Hinit;
    [|vm_compute in Hinit; discriminate].
  exists d. split; [reflexivity|].
  exact (proj1 (proj2 (Dimension_init_owns_attributes _ _ _ _ _ _ _ _ _ _ _
                         _ _ _ _ Hinit))).
Defined.

Lemma Dimension_init_refuses_owned_attributes_witness :
  exists msg,
    Dimension_init dotted_ref "flag" None None None None None None None
      None None None None (Some [taken]) = Err (ModelError msg).
Proof.
  refine (proj1 (Dimension_init_refuses_owned_attributes dotted_ref "flag"
                   None None None None None None None None None None None
                   (Some [taken]) eq_refl) eq_refl _).
  apply Exists_cons. left. discriminate.
Defined.

Lemma Dimension_init_default_hierarchy_witness :
  exists d,
    Dimension_init dotted_ref "date" (Some [year; quarter; month]) None
      (Some "fiscal") None None None None None None None None None = Ok d
    /\ dim_hierarchies d = [dim_default_hierarchy d]
    /\ default_hierarchy_name d = "default".
Proof.
  destruct (Dimension_init dotted_ref "date" (Some [year; quarter; month])
              None (Some "fiscal") None None None None None None None None
              None) as [d|e] eqn:Hinit;
    [|vm_compute in Hinit; discriminate].
  exists d. split; [reflexivity|].
  destruct (Dimension_init_default_hierarchy _ _ _ None _ _ _ _ _ _ _ _ _ _
              _ eq_refl Hinit) as (Hone & _ & _ & _ & _ & Hname).
  split; [exact Hone | exact Hname].
Defined.

Lemma Dimension_init_from_attributes_witness :
  exists d,
    Dimension_init dotted_ref "flag" None None None None None None None
      None None None None (Some [flag]) = Ok d
    /\ is_flat d = true /\ has_details d = false.
Proof.
  destruct (Dimension_init dotted_ref "flag" None None None None None None
              None None None None None (Some [flag])) as [d|e] eqn:Hinit;
    [|vm_compute in Hinit; discriminate].
  exists d. split; [reflexivity|].
  destruct (Dimension_init_from_attributes _ _ None _ _ _ _ _ _ _ _ _ _ _ _
              eq_refl Hinit) as (level & first & _ & _ & _ & _ & _ & _
                                 & Hflat).
  exact (Hflat eq_refl).
Defined.

Lemma Dimension_init_from_levels_witness :
  exists d l',
    Dimension_init dotted_ref "date" (Some [year; quarter; month]) None
      None None None None (Some "time") None None None None None = Ok d
    /\ Dimension_level d "year" = Returns l'
    /\ level_role l' = Some "year".
Proof.
  destruct (Dimension_init dotted_ref "date" (Some [year; quarter; month])
              None None None None None (Some "time") None None None None
              None) as [d|e] eqn:Hinit;
    [|vm_compute in Hinit; discriminate].
  destruct (Dimension_init_from_levels _ _ (Some [year; quarter; month]) _
              _ _ _ _ _ _ _ _ _ None _
              eq_refl ltac:(by_computation) Hinit) as (_ & _ & Hlevel & _).
  destruct (Hlevel year ltac:(left)) as (l' & Hget & _ & _ & _ & Hrole).
  exists d, l'. split; [reflexivity|]. split; [exact Hget | exact Hrole].
Defined.


End DimensionWitnesses.

Section ExtWitnesses.
Import Ext Samples MoreSamples.

Lemma _get_caches_the_extension_witness :
  exists ext self',
    _get sample_loader store "sql" = Ok (ext, self')
    /\ _get no_loader self' "sql" = Ok (ext, self').
Proof.
  destruct (_get sample_loader store "sql") as [[ext self']|e] eqn:Hget;
    [|vm_compute in Hget; discriminate].
  exists ext, self'. split; [reflexivity|].
  exact (proj1 (proj2 (_get_caches_the_extension sample_loader no_loader
                         store "sql" ext self' Hget))).
Defined.

Lemma builtin_names_load_witness :
  exists modname attr,
    "cubes.sql.store:SQLStore" = modname +:+ ":" +:+ attr
    /\ occurs ":" modname = false /\ occurs ":" attr = false
    /\ _get no_loader store "sql"
       = Err (ImportError ("No module named '" +:+ modname +:+ "'")).
Proof.
  destruct (builtin_names_load no_loader store "sql"
              "cubes.sql.store:SQLStore"
              ltac:(do 6 right; left) ltac:(vm_compute; reflexivity))
    as (modname & attr & Hpath & Hm & Ha & _ & Herr).
  exists modname, attr. split; [exact Hpath|]. split; [exact Hm|].
  split; [exact Ha|]. exact (Herr _ eq_refl).
Defined.

End ExtWitnesses.

Section SqlWitnesses.
Import SqlExpressions Samples MoreSamples.

Lemma compile_reads_its_variables_witness :
  same_outcome (compile (dep_expression net) sales_context)
               (compile (dep_expression net) labelled_context).
Proof.
  refine (proj1 (compile_reads_its_variables (dep_expression net)
                   sales_context labelled_context _)).
  intros v Hv.
  apply elem_of_cons in Hv as [->|Hv]; [split; vm_compute; reflexivity|].
  apply elem_of_cons in Hv as [->|Hv]; [split; vm_compute; reflexivity|].
  by apply elem_of_nil in Hv.
Defined.

Lemma independent_dependants_commute_witness :
  same_outcome
    (compile_attributes no_aggregate (Some sales_bases) [net; today] None
       None None)
    (compile_attributes no_aggregate (Some sales_bases) [today; net] None
       None None).
Proof.
  exact (independent_dependants_commute no_aggregate (Some sales_bases) []
           net today [] None None None eq_refl eq_refl
           ltac:(discriminate) ltac:(by_computation)
           ltac:(by_computation)).
Defined.

Lemma compile_attributes_columns_witness :
  exists cols,
    compile_attributes no_aggregate (Some sales_bases) [net; double_net]
      None None None = Ok cols
    /\ cols !! "amount" = sales_bases !! "amount".
Proof.
  destruct (compile_attributes no_aggregate (Some sales_bases)
              [net; double_net] None None None) as [cols|e] eqn:Hok;
    [|vm_compute in Hok; discriminate].
  exists cols. split; [reflexivity|].
  destruct (compile_attributes_columns _ _ _ _ _ _ _ Hok)
    as (_ & Hbase & _).
  exact (Hbase "amount" ltac:(by_computation)).
Defined.

End SqlWitnesses.

Section MapperWitnesses.
Import Metadata SqlMapper Samples MoreSamples.

Lemma attribute_table_of_flat_dimension_witness :
  exists d,
    Dimension_init dotted_ref "flag" None None None None None None None
      None None None None (Some [flag]) = Ok d
    /\ attribute_table sales_mapper (flag_of d) = (None, "ft_sales").
Proof.
  destruct (Dimension_init dotted_ref "flag" None None None None None None
              None None None None None (Some [flag])) as [d|e] eqn:Hinit;
    [|vm_compute in Hinit; discriminate].
  exists d. split; [reflexivity|].
  exact (attribute_table_of_flat_dimension dotted_ref sales_mapper
           (flag_of d) "flag" None None None None None None None None None
           None (Some [flag]) d eq_refl Hinit eq_refl).
Defined.

End MapperWitnesses.

Section RequestWitnesses.
Import Server Samples MoreSamples.


End RequestWitnesses.
